(** * Sandbox container registry: prune policy, reconciliation and recreate

    A shallow embedding of
      - src/agents/sandbox/prune.ts   (prune policy, prune pass, rate limit)
      - the sandbox management module (listSandboxRegistryItems,
                                       listSandboxContainers,
                                       removeSandboxContainer)
      - src/commands/sandbox.ts       (the list and recreate commands)
      - the model provider module     (normalization of providers, model
                                       ids, base URLs and API keys)
    and the properties of the specification that concern them.

    Numbers are JavaScript numbers holding integers (epoch milliseconds,
    hour and day counts, counters); they are embedded as [Z] and [nat].
    Strings are sequences of code units; only equality, concatenation and
    prefix tests are used on them. *)

From Stdlib Require Import ZArith List String Ascii Bool Lia.
From Stdlib Require QArith_base.
Import ListNotations.
Open Scope string_scope.
Open Scope Z_scope.

(* ================================================================== *)
(** ** Data model *)

(** [SandboxRegistryEntry] (registry.ts; the fields the sources read). *)
Record SandboxRegistryEntry := mkEntry {
  containerName : string;
  image         : string;
  sessionKey    : string;
  createdAtMs   : Z;
  lastUsedAtMs  : Z
}.

(** [SandboxContainerInfo = SandboxRegistryEntry & { running; imageMatch }].
    The entry part is the spread [...entry] with [image] overwritten. *)
Record SandboxContainerInfo := mkInfo {
  info_entry : SandboxRegistryEntry;
  running    : bool;
  imageMatch : bool
}.

Record PruneConfig := mkPrune {
  idleHours  : Z;
  maxAgeDays : Z
}.

(** [SandboxConfig]: only [cfg.prune] is read here. *)
Record SandboxConfig := mkConfig {
  prune : PruneConfig
}.

(** [SandboxRecreateOptions]; an optional string is [None] when the flag
    was not given. *)
Record SandboxRecreateOptions := mkOpts {
  all     : bool;
  session : option string;
  agent   : option string;
  force   : bool
}.

Definition set_image (e : SandboxRegistryEntry) (img : string) : SandboxRegistryEntry :=
  mkEntry (containerName e) img (sessionKey e) (createdAtMs e) (lastUsedAtMs e).

(* ================================================================== *)
(** ** Prune policy (prune.ts, lines 13-25) *)

Definition shouldPruneSandboxEntry (cfg : SandboxConfig) (now : Z)
    (entry : SandboxRegistryEntry) : bool :=
  let idleHours := idleHours (prune cfg) in
  let maxAgeDays := maxAgeDays (prune cfg) in
  if (idleHours =? 0) && (maxAgeDays =? 0) then false
  else
    let idleMs := now - lastUsedAtMs entry in
    let ageMs := now - createdAtMs entry in
    ((0 <? idleHours) && (idleHours * 60 * 60 * 1000 <? idleMs))
    || ((0 <? maxAgeDays) && (maxAgeDays * 24 * 60 * 60 * 1000 <? ageMs)).

(** The reference predicate, written from the words of the specification
    (section 4.4): disabled when both thresholds are zero, otherwise the
    logical OR of the idle rule and the age rule, both strict. *)
Definition idle_rule (cfg : SandboxConfig) (now : Z) (entry : SandboxRegistryEntry) : bool :=
  (idleHours (prune cfg) >? 0)
  && (now - lastUsedAtMs entry >? idleHours (prune cfg) * 3600000).

Definition age_rule (cfg : SandboxConfig) (now : Z) (entry : SandboxRegistryEntry) : bool :=
  (maxAgeDays (prune cfg) >? 0)
  && (now - createdAtMs entry >? maxAgeDays (prune cfg) * 86400000).

Definition shouldPrune_reference (cfg : SandboxConfig) (now : Z)
    (entry : SandboxRegistryEntry) : bool :=
  if (idleHours (prune cfg) =? 0) && (maxAgeDays (prune cfg) =? 0) then false
  else idle_rule cfg now entry || age_rule cfg now entry.

(* ================================================================== *)
(** ** The world: registry store, process state and observable effects *)

(** Everything the code does to the outside is recorded, in order, and so
    is the assignment to the module variable of prune.ts. *)
Inductive Event :=
| EvNow (t : Z)                        (* Date.now() *)
| EvLastPruneAt (t : Z)                (* lastPruneAtMs = t *)
| EvRegistryRead                       (* readRegistry() *)
| EvRegistryRemove (name : string)     (* removeRegistryEntry(name) *)
| EvLoadConfig                         (* loadConfig() *)
| EvContainerState (name : string)     (* dockerContainerState(name) *)
| EvExecDocker (args : list string)    (* execDocker(args, ...) *)
| EvLog (msg : string)                 (* runtime.log *)
| EvError (msg : string)               (* runtime.error *)
| EvExit (code : Z)                    (* runtime.exit *)
| EvConfirm                            (* the confirmation prompt *)
| EvPreview (names : list string)      (* displayRecreatePreview *)
| EvRecreateResult (ok failed : nat).  (* displayRecreateResult *)

Record World := mkWorld {
  registry      : list SandboxRegistryEntry;  (* content of the registry store *)
  trace         : list Event;                 (* effects so far, oldest first *)
  lastPruneAtMs : Z                           (* module variable of prune.ts *)
}.

(** What the container runtime answers to a state query: the three
    states of the specification's state machine, or no answer. *)
Inductive ContainerStatus := Running | Stopped | Missing.
Inductive QueryOutcome := Reported (s : ContainerStatus) | QueryFailed.

(** How a docker child process ends: with an exit code and its output,
    or not at all (spawn error, abort). *)
Inductive ExecOutcome :=
| Exited (code : Z) (stdout : string)
| SpawnError (msg : string).

(** A JavaScript symbol: [Symbol.for(key)], the one symbol the global
    registry holds for [key], or a symbol made by [Symbol(description)],
    which is equal to itself and to no other symbol. *)
Inductive JsSymbol :=
| RegisteredSymbol (key : string)
| FreshSymbol (description : string).

(** What the confirmation prompt resolves to ([boolean | symbol]). *)
Inductive ConfirmAnswer :=
| AnswerBool (b : bool)
| AnswerSymbol (s : JsSymbol).

Definition ConfirmYes : ConfirmAnswer := AnswerBool true.
Definition ConfirmNo : ConfirmAnswer := AnswerBool false.

(** What the prompt library (@clack/prompts, outside the sources) resolves
    to when the operator cancels: a symbol of its own, which it makes with
    [Symbol("clack:cancel")]. *)
Definition ConfirmCancel : ConfirmAnswer := AnswerSymbol (FreshSymbol "clack:cancel").

(** A computation returns a value or throws, and changes the world.
    [Throw msg] carries the text the thrown error is reported with. *)
Inductive Result (A : Type) :=
| Ok (a : A)
| Throw (msg : string).
Arguments Ok {A} a.
Arguments Throw {A} msg.

(** The environment decides every external outcome from the history of
    effects, so an outcome may differ from one call to the next. A loaded
    configuration is represented by what is read from it: the image
    configured for an agent. *)
Record Env := mkEnv {
  envNow             : list Event -> Z;
  envStoreFault      : list Event -> option string;
  envLoadConfig      : list Event -> Result (option string -> string);
  envContainerState  : list Event -> string -> QueryOutcome;
  envExec            : list Event -> list string -> ExecOutcome;
  envConfirm         : list Event -> ConfirmAnswer;
  (* pure collaborators that are not part of the sources *)
  resolveSandboxAgentId : string -> option string;
  jsTrim             : string -> string
}.

Definition M (A : Type) : Type := World -> Result A * World.

Definition ret {A} (a : A) : M A := fun w => (Ok a, w).

Definition bind {A B} (m : M A) (k : A -> M B) : M B :=
  fun w => match m w with
           | (Ok a, w1) => k a w1
           | (Throw e, w1) => (Throw e, w1)
           end.

Notation "x <- m ;; k" := (bind m (fun x => k))
  (at level 61, m at next level, right associativity).
Notation "m ;;; k" := (bind m (fun _ => k))
  (at level 61, right associativity).

(** [try { body } catch (e) { handler e }] *)
Definition try_catch {A} (body : M A) (handler : string -> M A) : M A :=
  fun w => match body w with
           | (Ok a, w1) => (Ok a, w1)
           | (Throw e, w1) => handler e w1
           end.

(** [try { body } catch (e) { handler e } finally { fin }]: the finally
    block runs on every path and its own exception wins. *)
Definition try_catch_finally {A} (body : M A) (handler : string -> M A)
    (fin : M unit) : M A :=
  fun w => let (r, w1) := try_catch body handler w in
           match fin w1 with
           | (Ok _, w2) => (r, w2)
           | (Throw e, w2) => (Throw e, w2)
           end.

(** [for (const x of xs) { s = body s x }], left at the first exception. *)
Fixpoint for_of {A S} (xs : list A) (body : S -> A -> M S) (s : S) : M S :=
  match xs with
  | [] => ret s
  | x :: rest => s1 <- body s x ;; for_of rest body s1
  end.

Definition emit (ev : Event) (w : World) : World :=
  mkWorld (registry w) (trace w ++ [ev])%list (lastPruneAtMs w).

Definition effect (ev : Event) : M unit := fun w => (Ok tt, emit ev w).

Definition dateNow (env : Env) : M Z :=
  fun w => let t := envNow env (trace w) in (Ok t, emit (EvNow t) w).

Definition getLastPruneAtMs : M Z := fun w => (Ok (lastPruneAtMs w), w).

Definition setLastPruneAtMs (t : Z) : M unit :=
  fun w => (Ok tt, mkWorld (registry w) (trace w ++ [EvLastPruneAt t])%list t).

Definition runtime_log (msg : string) : M unit := effect (EvLog msg).
Definition runtime_error (msg : string) : M unit := effect (EvError msg).
Definition runtime_exit (code : Z) : M unit := effect (EvExit code).

(** Modelled from the spec: the Registry Store (registry.ts is not part
    of the sources). [read() -> entries[]] returns the stored entries;
    [remove(containerName) -> void] deletes the entry of that name, is
    reflected in the next read and is a no-op for an unknown name. Both
    are file operations and may fail (section 4.5: "failures in the
    underlying read"). *)
Definition readRegistry (env : Env) : M (list SandboxRegistryEntry) :=
  fun w => let w1 := emit EvRegistryRead w in
           match envStoreFault env (trace w) with
           | Some e => (Throw e, w1)
           | None => (Ok (registry w), w1)
           end.

(** Modelled from the spec: [remove(containerName) -> void] of the
    Registry Store (registry.ts is not part of the sources); every entry
    of that name is dropped, the others keep their order. *)
Definition removeRegistryEntry (env : Env) (name : string) : M unit :=
  fun w => let w1 := emit (EvRegistryRemove name) w in
           match envStoreFault env (trace w) with
           | Some e => (Throw e, w1)
           | None =>
               (Ok tt,
                mkWorld (filter (fun e => negb (containerName e =? name)%string) (registry w1))
                        (trace w1) (lastPruneAtMs w1))
           end.

Record ExecResult := mkExec {
  code   : Z;
  stdout : string
}.

(** Modelled from the spec: the Runtime Adapter (docker.ts is not part of
    the sources). Every operation is fallible; with [allowFailure] a
    non-zero exit code is returned instead of raised, a process that
    could not run raises in both cases (the callers wrap the call in
    try/catch). *)
Definition execDocker (env : Env) (args : list string) (allowFailure : bool)
    : M ExecResult :=
  fun w => let w1 := emit (EvExecDocker args) w in
           match envExec env (trace w) args with
           | Exited c out =>
               if allowFailure || (c =? 0) then (Ok (mkExec c out), w1)
               else (Throw "docker failed", w1)
           | SpawnError e => (Throw e, w1)
           end.

Record ContainerState := mkState {
  state_exists  : bool;
  state_running : bool
}.

(** Modelled from the spec: [containerState(name) -> {exists, running}]
    (docker.ts is not part of the sources). It has no failure result
    (section 6); a failed or timed-out query surfaces as [exists = false]
    (section 5), and the two booleans distinguish running, stopped and
    missing (section 4.5). *)
Definition dockerContainerState (env : Env) (name : string) : M ContainerState :=
  fun w => let w1 := emit (EvContainerState name) w in
           match envContainerState env (trace w) name with
           | Reported Running => (Ok (mkState true true), w1)
           | Reported Stopped => (Ok (mkState true false), w1)
           | Reported Missing => (Ok (mkState false false), w1)
           | QueryFailed => (Ok (mkState false false), w1)
           end.

(* ================================================================== *)
(** ** prune.ts *)

Definition rm_args (name : string) : list string := ["rm"; "-f"; name].

(** The body of the loop, lines 39-51. [remove] and the optional
    [onRemoved] are members of [params]. *)
Definition prune_entry (env : Env) (cfg : SandboxConfig) (now : Z)
    (remove : string -> M unit)
    (onRemoved : option (SandboxRegistryEntry -> M unit))
    (entry : SandboxRegistryEntry) : M unit :=
  if negb (shouldPruneSandboxEntry cfg now entry) then ret tt
  else
    try_catch_finally
      (execDocker env (rm_args (containerName entry)) true ;;; ret tt)
      (fun _ => ret tt)
      (remove (containerName entry) ;;;
       match onRemoved with
       | Some f => f entry
       | None => ret tt
       end).

(** Lines 27-53. *)
Definition pruneSandboxRegistryEntries (env : Env) (cfg : SandboxConfig)
    (read : M (list SandboxRegistryEntry))
    (remove : string -> M unit)
    (onRemoved : option (SandboxRegistryEntry -> M unit)) : M unit :=
  now <- dateNow env ;;
  if (idleHours (prune cfg) =? 0) && (maxAgeDays (prune cfg) =? 0) then ret tt
  else
    entries <- read ;;
    for_of entries (fun _ entry => prune_entry env cfg now remove onRemoved entry) tt.

(** Lines 82-87. *)
Definition ensureDockerContainerIsRunning (env : Env) (name : string) : M unit :=
  state <- dockerContainerState env name ;;
  if state_exists state && negb (state_running state) then
    execDocker env ["start"; name] false ;;; ret tt
  else ret tt.

(** Lines 55-61. *)
Definition pruneSandboxContainers (env : Env) (cfg : SandboxConfig) : M unit :=
  pruneSandboxRegistryEntries env cfg (readRegistry env) (removeRegistryEntry env) None.

(** The catch block of lines 71-79; [message] is the message of the
    error that was thrown. *)
Definition prune_failed_handler (message : string) : M unit :=
  runtime_error ("Sandbox prune failed: " ++ message).

(** Lines 63-80. *)
Definition maybePruneSandboxes (env : Env) (cfg : SandboxConfig) : M unit :=
  now <- dateNow env ;;
  last <- getLastPruneAtMs ;;
  if now - last <? 5 * 60 * 1000 then ret tt
  else
    setLastPruneAtMs now ;;;
    try_catch (pruneSandboxContainers env cfg) prune_failed_handler.

(* ================================================================== *)
(** ** The sandbox management module *)

Definition inspect_args (name : string) : list string :=
  ["inspect"; "-f"; "{{.Config.Image}}"; name].

(** The body of the loop, lines 661-685: the item pushed for [entry].
    [containerState] is the state query of docker.ts, which is not part
    of the sources; the loop calls it outside its [try]. *)
Definition reconcile_entry_with (env : Env)
    (containerState : string -> M ContainerState)
    (resolveConfiguredImage : option string -> string)
    (entry : SandboxRegistryEntry) : M SandboxContainerInfo :=
  state <- containerState (containerName entry) ;;
  actualImage <-
    (if state_exists state then
       try_catch
         (result <- execDocker env (inspect_args (containerName entry)) true ;;
          ret (if code result =? 0 then jsTrim env (stdout result) else image entry))
         (fun _ => ret (image entry))
     else ret (image entry)) ;;
  let agentId := resolveSandboxAgentId env (sessionKey entry) in
  let configuredImage := resolveConfiguredImage agentId in
  ret (mkInfo (set_image entry actualImage)
              (state_running state)
              (actualImage =? configuredImage)%string).

(** Lines 652-689, with the state query it is given. *)
Definition listSandboxRegistryItems_with (env : Env)
    (containerState : string -> M ContainerState)
    (read : M (list SandboxRegistryEntry))
    (resolveConfiguredImage : option string -> string)
    : M (list SandboxContainerInfo) :=
  entries <- read ;;
  for_of entries (fun results entry =>
    item <- reconcile_entry_with env containerState resolveConfiguredImage entry ;;
    ret (results ++ [item])%list) [].

(** The loop body and the listing with [dockerContainerState] as the
    specification describes it. *)
Definition reconcile_entry (env : Env)
    (resolveConfiguredImage : option string -> string)
    (entry : SandboxRegistryEntry) : M SandboxContainerInfo :=
  reconcile_entry_with env (dockerContainerState env) resolveConfiguredImage entry.

Definition listSandboxRegistryItems (env : Env)
    (read : M (list SandboxRegistryEntry))
    (resolveConfiguredImage : option string -> string)
    : M (list SandboxContainerInfo) :=
  listSandboxRegistryItems_with env (dockerContainerState env) read
    resolveConfiguredImage.

(** [loadConfig()], a collaborator outside the sources; its result
    stands for [resolveSandboxConfigForAgent(config, agentId).docker.image]. *)
Definition loadConfig (env : Env) : M (option string -> string) :=
  fun w => (envLoadConfig env (trace w), emit EvLoadConfig w).

(** Lines 691-697. *)
Definition listSandboxContainers (env : Env) : M (list SandboxContainerInfo) :=
  config <- loadConfig env ;;
  listSandboxRegistryItems env (readRegistry env) (fun agentId => config agentId).

(** Lines 699-706. *)
Definition removeSandboxContainer (env : Env) (name : string) : M unit :=
  try_catch (execDocker env (rm_args name) true ;;; ret tt) (fun _ => ret tt) ;;;
  removeRegistryEntry env name.

(* ================================================================== *)
(** ** commands/sandbox.ts *)

(** JavaScript truthiness of an optional string: [undefined] and the
    empty string are falsy. *)
Definition truthy (o : option string) : bool :=
  match o with
  | Some s => negb (s =? EmptyString)%string
  | None => false
  end.

(** [s === o] for a string [s] and an optional string [o]. *)
Definition strict_eq (s : string) (o : option string) : bool :=
  match o with
  | Some k => (s =? k)%string
  | None => false
  end.

(** [`${o}`] *)
Definition template (o : option string) : string :=
  match o with
  | Some s => s
  | None => "undefined"
  end.

Definition count_truthy (flags : list bool) : nat :=
  List.length (filter (fun b => b) flags).

Definition usage_none : string :=
  "Please specify --all, --session <key>, or --agent <id>".
Definition usage_many : string :=
  "Please specify only one of: --all, --session, --agent".

(** Lines 79-94. *)
Definition validateRecreateOptions (opts : SandboxRecreateOptions) : M bool :=
  if negb (all opts) && negb (truthy (session opts)) && negb (truthy (agent opts)) then
    runtime_error usage_none ;;;
    runtime_exit 1 ;;;
    ret false
  else
    let exclusiveCount :=
      count_truthy [all opts; truthy (session opts); truthy (agent opts)] in
    if (1 <? exclusiveCount)%nat then
      runtime_error usage_many ;;;
      runtime_exit 1 ;;;
      ret false
    else ret true.

(** The filter of lines 103-110. *)
Definition filterContainers (opts : SandboxRecreateOptions)
    (containers : list SandboxContainerInfo) : list SandboxContainerInfo :=
  if truthy (session opts) then
    filter (fun c => strict_eq (sessionKey (info_entry c)) (session opts)) containers
  else if truthy (agent opts) then
    let agentPrefix := "agent:" ++ template (agent opts) in
    filter (fun c => (sessionKey (info_entry c) =? agentPrefix)%string
                     || String.prefix (agentPrefix ++ ":") (sessionKey (info_entry c)))
           containers
  else containers.

(** Lines 98-113. *)
Definition fetchAndFilterContainers (env : Env) (opts : SandboxRecreateOptions)
    : M (list SandboxContainerInfo) :=
  containers <- try_catch (listSandboxContainers env) (fun _ => ret []) ;;
  ret (filterContainers opts containers).

(** [result !== false] *)
Definition is_not_false (result : ConfirmAnswer) : bool :=
  match result with
  | AnswerBool false => false
  | _ => true
  end.

(** [result !== Symbol.for(key)] *)
Definition is_not_symbol_for (key : string) (result : ConfirmAnswer) : bool :=
  match result with
  | AnswerSymbol (RegisteredSymbol k) => negb (k =? key)%string
  | _ => true
  end.

(** The expression returned at line 123. *)
Definition confirms (result : ConfirmAnswer) : bool :=
  is_not_false result && is_not_symbol_for "clack:cancel" result.

(** Lines 117-124. *)
Definition confirmRecreate (env : Env) : M bool :=
  fun w => let result := envConfirm env (trace w) in
           (Ok (confirms result), emit EvConfirm w).

Record RecreateResult := mkResult {
  successCount : nat;
  failCount    : nat
}.

(** Lines 147-160. *)
Definition removeContainer (name : string) (removeFn : string -> M unit) : M bool :=
  try_catch
    (removeFn name ;;;
     runtime_log ("✓ Removed " ++ name) ;;;
     ret true)
    (fun err =>
     runtime_error ("✗ Failed to remove " ++ name ++ ": " ++ err) ;;;
     ret false).

Definition removing_banner : string :=
  String (ascii_of_nat 10)
    ("Removing containers..." ++ String (ascii_of_nat 10) EmptyString).

(** The body of the loop, lines 136-141. *)
Definition count_removal (env : Env) (counts : RecreateResult)
    (container : SandboxContainerInfo) : M RecreateResult :=
  result <- removeContainer (containerName (info_entry container))
              (removeSandboxContainer env) ;;
  if (result : bool) then
    ret (mkResult (S (successCount counts)) (failCount counts))
  else
    ret (mkResult (successCount counts) (S (failCount counts))).

(** Lines 126-145. *)
Definition removeContainers (env : Env) (containers : list SandboxContainerInfo)
    : M RecreateResult :=
  runtime_log removing_banner ;;;
  for_of containers (count_removal env) (mkResult 0 0).

(** The presenter (sandbox-display.ts) is outside the sources; its calls
    are recorded with what they are given. *)
Definition displayRecreatePreview (containers : list SandboxContainerInfo) : M unit :=
  effect (EvPreview (map (fun c => containerName (info_entry c)) containers)).

Definition displayRecreateResult (result : RecreateResult) : M unit :=
  effect (EvRecreateResult (successCount result) (failCount result)).

(** Lines 47-75. *)
Definition sandboxRecreateCommand (env : Env) (opts : SandboxRecreateOptions) : M unit :=
  valid <- validateRecreateOptions opts ;;
  if negb valid then ret tt
  else
    containers <- fetchAndFilterContainers env opts ;;
    if (List.length containers =? 0)%nat then
      runtime_log "No containers found matching the criteria."
    else
      displayRecreatePreview containers ;;;
      cancelled <- (if negb (force opts)
                    then confirmed <- confirmRecreate env ;; ret (negb confirmed)
                    else ret false) ;;
      if (cancelled : bool) then runtime_log "Cancelled."
      else
        result <- removeContainers env containers ;;
        displayRecreateResult result ;;;
        if (0 <? failCount result)%nat then runtime_exit 1 else ret tt.

(** The events a run added to the trace, and the exit status a trace
    leaves the process with (0 when [runtime.exit] was never called). *)
Definition new_events (w w' : World) : list Event :=
  skipn (List.length (trace w)) (trace w').

Fixpoint exit_status (evs : list Event) : Z :=
  match evs with
  | [] => 0
  | EvExit c :: _ => c
  | _ :: rest => exit_status rest
  end.

Definition selector_count (opts : SandboxRecreateOptions) : nat :=
  count_truthy [all opts; truthy (session opts); truthy (agent opts)].

(** Names of the entries the policy makes eligible at [now], in registry
    order, and a registry without the entries of some names. *)
Definition eligible_names (cfg : SandboxConfig) (now : Z)
    (entries : list SandboxRegistryEntry) : list string :=
  map containerName (filter (shouldPruneSandboxEntry cfg now) entries).

Definition drop_names (names : list string) (entries : list SandboxRegistryEntry)
    : list SandboxRegistryEntry :=
  filter (fun e => negb (existsb (String.eqb (containerName e)) names)) entries.

(** What one removal attempt of the prune pass leaves in the trace. *)
Definition attempt_events (name : string) : list Event :=
  [EvExecDocker (rm_args name); EvRegistryRemove name].

Definition store_reliable (env : Env) : Prop :=
  forall tr, envStoreFault env tr = None.

(** An inspection that does not yield an image: the command could not
    be run, or ended with a non-zero exit code. *)
Definition inspect_failed (o : ExecOutcome) : Prop :=
  match o with
  | Exited c _ => c <> 0
  | SpawnError _ => True
  end.

(** The turn of [entry] within a listing that takes the world from [w]
    to [w']: the loop body ran from [w0] to [w1] and produced [item]. *)
Definition entry_turn (env : Env) (configured : option string -> string)
    (w w' : World) (entry : SandboxRegistryEntry) (item : SandboxContainerInfo)
    (w0 w1 : World) : Prop :=
  reconcile_entry env configured entry w0 = (Ok item, w1)
  /\ (exists before, trace w0 = trace w ++ before)%list
  /\ (exists after, trace w' = trace w1 ++ after)%list.




(** Options in which an empty-string selector is replaced by an absent one. *)
Definition drop_empty (o : option string) : option string :=
  match o with
  | Some EmptyString => None
  | _ => o
  end.

Definition without_empty_selectors (opts : SandboxRecreateOptions)
    : SandboxRecreateOptions :=
  mkOpts (all opts) (drop_empty (session opts)) (drop_empty (agent opts)) (force opts).

(** [s] starts with [p]. *)
Definition starts_with (p s : string) : Prop := exists suffix, s = p ++ suffix.

(** Events that neither end the process nor report a recreate result. *)
Definition silent (ev : Event) : Prop :=
  match ev with
  | EvExit _ => False
  | EvRecreateResult _ _ => False
  | _ => True
  end.

(** What one removal of the recreate command leaves in the trace; the
    outcome of a removal is [None] when it succeeded and the error it
    raised otherwise. *)
Definition removal_events (outcome : string * option string) : list Event :=
  let (name, failure) := outcome in
  [EvExecDocker (rm_args name);
   EvRegistryRemove name;
   match failure with
   | None => EvLog ("✓ Removed " ++ name)
   | Some err => EvError ("✗ Failed to remove " ++ name ++ ": " ++ err)
   end].

Definition has_failed (outcome : string * option string) : bool :=
  match snd outcome with
  | Some _ => true
  | None => false
  end.

Definition info_name (c : SandboxContainerInfo) : string :=
  containerName (info_entry c).

Definition succeeded (outcomes : list (string * option string)) : list string :=
  map fst (filter (fun o => negb (has_failed o)) outcomes).

Definition failures (outcomes : list (string * option string)) : list string :=
  map fst (filter has_failed outcomes).

(** The outcomes of the removals of [names], in order, the first of them
    starting at the trace [tr]: a removal fails with the error of the
    registry store when the store fails at its registry removal, and
    succeeds otherwise. *)
Fixpoint removal_outcomes (env : Env) (tr : list Event) (names : list string)
    : list (string * option string) :=
  match names with
  | [] => []
  | name :: rest =>
      let outcome := (name, envStoreFault env (tr ++ [EvExecDocker (rm_args name)])%list) in
      outcome :: removal_outcomes env (tr ++ removal_events outcome)%list rest
  end.

(* ================================================================== *)
(** ** Example environments *)

Definition is_space (c : ascii) : bool :=
  let n := nat_of_ascii c in ((9 <=? n) && (n <=? 13) || (n =? 32))%nat.

Fixpoint drop_spaces (s : string) : string :=
  match s with
  | String c rest => if is_space c then drop_spaces rest else s
  | EmptyString => EmptyString
  end.

Fixpoint rev_string (s acc : string) : string :=
  match s with
  | String c rest => rev_string rest (String c acc)
  | EmptyString => acc
  end.

Definition ascii_trim (s : string) : string :=
  rev_string (drop_spaces (rev_string (drop_spaces s) EmptyString)) EmptyString.

Definition count_events (p : Event -> bool) (tr : list Event) : nat :=
  List.length (filter p tr).

Definition is_registry_remove (ev : Event) : bool :=
  match ev with EvRegistryRemove _ => true | _ => false end.

(** A healthy host at time [t]: every container is running the image
    [img], every docker command succeeds, the operator confirms. *)
Definition env_healthy (t : Z) (img : string) : Env :=
  mkEnv (fun _ => t) (fun _ => None)
        (fun _ => Ok (fun _ => img))
        (fun _ _ => Reported Running)
        (fun _ _ => Exited 0 img)
        (fun _ => ConfirmYes)
        (fun _ => None) ascii_trim.

(** A host whose docker daemon is unreachable: state queries fail and
    docker commands cannot be run. The registry store works. *)
Definition env_docker_down (t : Z) : Env :=
  mkEnv (fun _ => t) (fun _ => None)
        (fun _ => Ok (fun _ => "sandbox:latest"))
        (fun _ _ => QueryFailed)
        (fun _ _ => SpawnError "spawn docker ENOENT")
        (fun _ => ConfirmYes)
        (fun _ => None) ascii_trim.

(** A host on which the second registry removal fails, whatever else
    happens. *)
Definition env_second_removal_fails (t : Z) : Env :=
  mkEnv (fun _ => t)
        (fun tr => if (count_events is_registry_remove tr =? 1)%nat
                   then Some "EBUSY" else None)
        (fun _ => Ok (fun _ => "sandbox:latest"))
        (fun _ _ => Reported Running)
        (fun _ _ => Exited 0 "sandbox:latest")
        (fun _ => ConfirmYes)
        (fun _ => None) ascii_trim.

(** A host on which no container exists any more. *)
Definition env_all_missing (t : Z) : Env :=
  mkEnv (fun _ => t) (fun _ => None)
        (fun _ => Ok (fun _ => "sandbox:latest"))
        (fun _ _ => Reported Missing)
        (fun _ _ => Exited 1 EmptyString)
        (fun _ => ConfirmYes)
        (fun _ => None) ascii_trim.

Definition hour : Z := 3600000.

Definition entry_c1 : SandboxRegistryEntry :=
  mkEntry "c1" "sandbox:latest" "agent:a:1" 0 0.
Definition entry_c2 : SandboxRegistryEntry :=
  mkEntry "c2" "sandbox:old" "agent:foo" 0 (2 * hour).
Definition entry_c3 : SandboxRegistryEntry :=
  mkEntry "c3" "sandbox:latest" "agent:foobar" hour hour.

Definition world_of (entries : list SandboxRegistryEntry) : World :=
  mkWorld entries [] 0.

Definition cfg_idle_1h : SandboxConfig := mkConfig (mkPrune 1 0).


(** A clock that advances by one second with every effect. *)
Definition env_ticking (t0 : Z) : Env :=
  mkEnv (fun tr => t0 + 1000 * Z.of_nat (List.length tr)) (fun _ => None)
        (fun _ => Ok (fun _ => "sandbox:latest"))
        (fun _ _ => Reported Running)
        (fun _ _ => Exited 0 "sandbox:latest")
        (fun _ => ConfirmYes)
        (fun _ => None) ascii_trim.

Definition entry_c4 : SandboxRegistryEntry :=
  mkEntry "c4" "sandbox:latest" "agent:foo:bar" 0 0.

Definition info_of (e : SandboxRegistryEntry) : SandboxContainerInfo :=
  mkInfo e true true.

(* ================================================================== *)
(** ** commands/sandbox.ts: the list command *)

(** Modelled from the spec: the Presenter (sandbox-display.ts is not part
    of the sources) prints a table and a summary of the listing through
    [runtime.log]; [renderJson] stands for [JSON.stringify({ containers },
    null, 2)]. Only what is rendered matters here, not the text. *)
Record Presenter := mkPresenter {
  renderJson    : list SandboxContainerInfo -> string;
  renderTable   : list SandboxContainerInfo -> string;
  renderSummary : list SandboxContainerInfo -> string
}.

Definition displayContainers (p : Presenter)
    (containers : list SandboxContainerInfo) : M unit :=
  runtime_log (renderTable p containers).

Definition displaySummary (p : Presenter)
    (containers : list SandboxContainerInfo) : M unit :=
  runtime_log (renderSummary p containers).

(** Lines 30-43; [json] is [opts.json]. *)
Definition sandboxListCommand (env : Env) (p : Presenter) (json : bool) : M unit :=
  containers <- try_catch (listSandboxContainers env) (fun _ => ret []) ;;
  if json then runtime_log (renderJson p containers)
  else
    displayContainers p containers ;;;
    displaySummary p containers.

(* ================================================================== *)
(** ** Vocabulary of the further properties *)

(** Events of a listing: configuration and registry are read, containers
    are queried and inspected. *)
Definition listing_event (ev : Event) : Prop :=
  match ev with
  | EvLoadConfig => True
  | EvRegistryRead => True
  | EvContainerState _ => True
  | EvExecDocker args => exists name, args = inspect_args name
  | _ => False
  end.

(** Events that remove something: a docker removal or a registry removal. *)
Definition removing_event (ev : Event) : Prop :=
  match ev with
  | EvRegistryRemove _ => True
  | EvExecDocker args => exists name, args = rm_args name
  | _ => False
  end.

Definition start_args (name : string) : list string := ["start"; name].

(** The prune pass with a callback that reports what it is given. *)
Definition callback_events (observe : SandboxRegistryEntry -> list Event)
    (entry : SandboxRegistryEntry) : list Event :=
  attempt_events (containerName entry) ++ observe entry.

(** A host whose registry store fails on every access. *)
Definition env_store_down (t : Z) : Env :=
  mkEnv (fun _ => t) (fun _ => Some "EACCES")
        (fun _ => Ok (fun _ => "sandbox:latest"))
        (fun _ _ => Reported Running)
        (fun _ _ => Exited 0 "sandbox:latest")
        (fun _ => ConfirmYes)
        (fun _ => None) ascii_trim.

(** A host on which the first registry removal fails; reads work. *)
Definition env_first_removal_fails (t : Z) : Env :=
  mkEnv (fun _ => t)
        (fun tr => match tr with
                   | [] => None
                   | _ => match last tr EvRegistryRead with
                          | EvExecDocker _ =>
                              if (count_events is_registry_remove tr =? 0)%nat
                              then Some "EBUSY" else None
                          | _ => None
                          end
                   end)
        (fun _ => Ok (fun _ => "sandbox:latest"))
        (fun _ _ => Reported Running)
        (fun _ _ => Exited 0 "sandbox:latest")
        (fun _ => ConfirmYes)
        (fun _ => None) ascii_trim.

(** A healthy host whose operator declines every prompt. *)
Definition env_declining (t : Z) : Env :=
  mkEnv (fun _ => t) (fun _ => None)
        (fun _ => Ok (fun _ => "sandbox:latest"))
        (fun _ _ => Reported Running)
        (fun _ _ => Exited 0 "sandbox:latest")
        (fun _ => ConfirmNo)
        (fun _ => None) ascii_trim.

(** A healthy host whose operator cancels every prompt. *)
Definition env_cancelling (t : Z) : Env :=
  mkEnv (fun _ => t) (fun _ => None)
        (fun _ => Ok (fun _ => "sandbox:latest"))
        (fun _ _ => Reported Running)
        (fun _ _ => Exited 0 "sandbox:latest")
        (fun _ => ConfirmCancel)
        (fun _ => None) ascii_trim.

(** A host on which docker cannot remove the container [c2]; everything
    else works. *)
Definition env_second_docker_removal_fails (t : Z) : Env :=
  mkEnv (fun _ => t) (fun _ => None)
        (fun _ => Ok (fun _ => "sandbox:latest"))
        (fun _ _ => Reported Running)
        (fun _ args => if existsb (String.eqb "rm") args && existsb (String.eqb "c2") args
                       then SpawnError "docker rm timed out"
                       else Exited 0 "sandbox:latest")
        (fun _ => ConfirmYes)
        (fun _ => None) ascii_trim.



(** A host whose configuration cannot be loaded. *)
Definition env_no_config (t : Z) : Env :=
  mkEnv (fun _ => t) (fun _ => None)
        (fun _ => Throw "invalid config")
        (fun _ _ => Reported Running)
        (fun _ _ => Exited 0 "sandbox:latest")
        (fun _ => ConfirmYes)
        (fun _ => None) ascii_trim.

(** A host with one stopped container, on which docker commands work. *)
Definition env_stopped (t : Z) : Env :=
  mkEnv (fun _ => t) (fun _ => None)
        (fun _ => Ok (fun _ => "sandbox:latest"))
        (fun _ _ => Reported Stopped)
        (fun _ _ => Exited 0 EmptyString)
        (fun _ => ConfirmYes)
        (fun _ => None) ascii_trim.

Definition plain_presenter : Presenter :=
  mkPresenter
    (fun cs => String.concat "," (map (fun c => containerName (info_entry c)) cs))
    (fun cs => String.concat " " (map (fun c => containerName (info_entry c)) cs))
    (fun cs => if (List.length cs =? 0)%nat then "none" else "some").

(** An [onRemoved] callback that does nothing but leave [observe entry]
    in the trace. *)
Definition observing_callback (observe : SandboxRegistryEntry -> list Event)
    (entry : SandboxRegistryEntry) : M unit :=
  fun w => (Ok tt, mkWorld (registry w) (trace w ++ observe entry)%list (lastPruneAtMs w)).

Definition is_error_event (ev : Event) : Prop :=
  match ev with
  | EvError _ => True
  | _ => False
  end.

(** The end of [sandboxRecreateCommand], lines 69-74: remove, report, and
    exit with status 1 when a removal failed. *)
Definition recreate_finish (env : Env) (containers : list SandboxContainerInfo)
    : M unit :=
  result <- removeContainers env containers ;;
  displayRecreateResult result ;;;
  if (0 <? failCount result)%nat then runtime_exit 1 else ret tt.

Definition nothing_found : string := "No containers found matching the criteria.".


(** The prompt resolves to [false], or to [Symbol.for("clack:cancel")]. *)
Definition declines (result : ConfirmAnswer) : Prop :=
  result = ConfirmNo \/ result = AnswerSymbol (RegisteredSymbol "clack:cancel").

(** The prompt resolves to a symbol other than [Symbol.for("clack:cancel")]. *)
Definition other_symbol (result : ConfirmAnswer) : Prop :=
  exists s, result = AnswerSymbol s /\ s <> RegisteredSymbol "clack:cancel".

(** The same host with an operator who confirms every prompt. *)
Definition confirming (env : Env) : Env :=
  mkEnv (envNow env) (envStoreFault env) (envLoadConfig env) (envContainerState env)
        (envExec env) (fun _ => ConfirmYes) (resolveSandboxAgentId env) (jsTrim env).

(** The operator lets the command proceed: [--force], or a confirmed prompt. *)
Definition proceeds (env : Env) (opts : SandboxRecreateOptions) : Prop :=
  force opts = true \/ forall tr, envConfirm env tr = ConfirmYes.

(** Configuration and registry can be read when the listing starts at [w]. *)
Definition listing_works (env : Env) (w : World) : Prop :=
  (exists config, envLoadConfig env (trace w) = Ok config)
  /\ envStoreFault env (trace w ++ [EvLoadConfig])%list = None.

(* ================================================================== *)
(** ** Model providers (part_000, lines 1-640) *)

Record ModelCost := mkCost {
  cost_input      : QArith_base.Q;
  cost_output     : QArith_base.Q;
  cost_cacheRead  : QArith_base.Q;
  cost_cacheWrite : QArith_base.Q
}.

(** [ProviderModelConfig], with the members [buildMinimaxModel] gives it
    (lines 39-54). *)
Record ProviderModel := mkModel {
  model_id            : string;
  model_name          : string;
  model_reasoning     : bool;
  model_input         : list string;
  model_cost          : ModelCost;
  model_contextWindow : Z;
  model_maxTokens     : Z
}.

(** [ProviderConfig], with the members the module reads and writes. *)
Record ProviderConfig := mkProvider {
  baseUrl : string;
  api     : option string;
  apiKey  : option string;
  auth    : option string;
  models  : list ProviderModel
}.

(** [{ ...model, id }], [{ ...provider, models }], [{ ...provider, apiKey }] *)
Definition set_model_id (m : ProviderModel) (id : string) : ProviderModel :=
  mkModel id (model_name m) (model_reasoning m) (model_input m) (model_cost m)
          (model_contextWindow m) (model_maxTokens m).

Definition set_models (p : ProviderConfig) (ms : list ProviderModel) : ProviderConfig :=
  mkProvider (baseUrl p) (api p) (apiKey p) (auth p) ms.

Definition set_apiKey (p : ProviderConfig) (k : string) : ProviderConfig :=
  mkProvider (baseUrl p) (api p) (Some k) (auth p) (models p).

(** Lines 224-232. *)
Definition normalizeGoogleModelId (id : string) : string :=
  if (id =? "gemini-3-pro")%string then "gemini-3-pro-preview"
  else if (id =? "gemini-3-flash")%string then "gemini-3-flash-preview"
  else id.

(** The callback of [provider.models.map], lines 236-243: the model, and
    whether it is a new object. *)
Definition normalize_google_model (model : ProviderModel) : bool * ProviderModel :=
  let nextId := normalizeGoogleModelId (model_id model) in
  if (nextId =? model_id model)%string then (false, model)
  else (true, set_model_id model nextId).

(** Lines 234-245. The source returns the provider object itself when no
    model changed; the first component says whether the result is a new
    object ([mutated]). *)
Definition normalizeGoogleProvider (provider : ProviderConfig) : bool * ProviderConfig :=
  let results := map normalize_google_model (models provider) in
  let mutated := existsb fst results in
  if mutated then (true, set_models provider (map snd results))
  else (false, provider).

(** *** Regular expressions of the module, as matchers *)

Definition slash : ascii := "/"%char.

(** [s.replace(/\/+$/, "")]: without the trailing run of slashes. *)
Fixpoint strip_trailing_slashes (s : string) : string :=
  match s with
  | EmptyString => EmptyString
  | String c rest =>
      match strip_trailing_slashes rest with
      | EmptyString => if Ascii.eqb c slash then EmptyString else String c EmptyString
      | kept => String c kept
      end
  end.

(** [s.replace(/\/v1$/i, "")]: without a final ["/v1"] or ["/V1"]. *)
Fixpoint strip_v1_suffix (s : string) : string :=
  match s with
  | EmptyString => EmptyString
  | String c rest =>
      if Ascii.eqb c slash
         && ((rest =? "v1")%string || (rest =? "V1")%string)
      then EmptyString
      else String c (strip_v1_suffix rest)
  end.

(** Lines 137-144; [defaultBase] is [OLLAMA_API_BASE_URL], a constant
    imported from outside the sources. *)
Definition resolveOllamaApiBase (defaultBase : string)
    (configuredBaseUrl : option string) : string :=
  if negb (truthy configuredBaseUrl) then defaultBase
  else
    let trimmed := strip_trailing_slashes (template configuredBaseUrl) in
    strip_v1_suffix trimmed.

(** The character class [[A-Z0-9_]] and the strings of [[A-Z0-9_]+]. *)
Definition is_env_char (c : ascii) : bool :=
  let n := nat_of_ascii c in
  ((65 <=? n) && (n <=? 90) || (48 <=? n) && (n <=? 57) || (n =? 95))%nat.

Fixpoint all_env_chars (s : string) : bool :=
  match s with
  | EmptyString => true
  | String c rest => is_env_char c && all_env_chars rest
  end.

Definition is_env_name (s : string) : bool :=
  negb (s =? EmptyString)%string && all_env_chars s.

Fixpoint strip_prefix (p s : string) : option string :=
  match p with
  | EmptyString => Some s
  | String a p' =>
      match s with
      | EmptyString => None
      | String b s' => if Ascii.eqb a b then strip_prefix p' s' else None
      end
  end.

(** [s] without its last character, when that character is [c]. *)
Fixpoint strip_last (c : ascii) (s : string) : option string :=
  match s with
  | EmptyString => None
  | String a EmptyString => if Ascii.eqb a c then Some EmptyString else None
  | String a rest => option_map (String a) (strip_last c rest)
  end.

(** [/^\$\{([A-Z0-9_]+)\}$/.exec(s)?.[1]] *)
Definition match_env_reference (s : string) : option string :=
  match strip_prefix "${" s with
  | Some rest =>
      match strip_last "}"%char rest with
      | Some name => if is_env_name name then Some name else None
      | None => None
      end
  | None => None
  end.

(** [/^(?:env: |shell env: )([A-Z0-9_]+)$/.exec(s)?.[1]] *)
Definition match_env_source (s : string) : option string :=
  match strip_prefix "env: " s with
  | Some name => if is_env_name name then Some name else None
  | None =>
      match strip_prefix "shell env: " s with
      | Some name => if is_env_name name then Some name else None
      | None => None
      end
  end.

(** *** Credentials *)

(** A credential of the auth profile store, by its [type]. *)
Inductive AuthCredential :=
| ApiKeyCredential (key : string)
| TokenCredential (token : string)
| OtherCredential.

(** The collaborators of the module that are outside the sources: the
    auth profile store ([listProfilesForProvider], [store.profiles]), the
    lookups of model-auth.ts, and [String.prototype.trim]. *)
Record AuthEnv := mkAuthEnv {
  auth_trim               : string -> string;
  resolveEnvApiKey        : string -> option string;  (* [resolved.source] *)
  resolveAwsSdkEnvVarName : option string;
  listProfilesForProvider : string -> list string;
  profiles                : string -> option AuthCredential
}.

(** Lines 185-189. *)
Definition normalizeApiKeyConfig (a : AuthEnv) (value : string) : string :=
  let trimmed := auth_trim a value in
  match match_env_reference trimmed with
  | Some name => name
  | None => trimmed
  end.

(** Lines 191-198. *)
Definition resolveEnvApiKeyVarName (a : AuthEnv) (provider : string) : option string :=
  match resolveEnvApiKey a provider with
  | None => None
  | Some source => match_env_source source
  end.

(** Lines 200-202. *)
Definition resolveAwsSdkApiKeyVarName (a : AuthEnv) : string :=
  match resolveAwsSdkEnvVarName a with
  | Some name => name
  | None => "AWS_PROFILE"
  end.

(** The loop of lines 209-220. *)
Fixpoint first_profile_key (a : AuthEnv) (ids : list string) : option string :=
  match ids with
  | [] => None
  | id :: rest =>
      match profiles a id with
      | None => first_profile_key a rest
      | Some (ApiKeyCredential key) => Some key
      | Some (TokenCredential token) => Some token
      | Some OtherCredential => first_profile_key a rest
      end
  end.

(** Lines 204-222. *)
Definition resolveApiKeyFromProfiles (a : AuthEnv) (provider : string) : option string :=
  first_profile_key a (listProfilesForProvider a provider).

(** [!o?.trim()] for an optional string. *)
Definition blank (a : AuthEnv) (o : option string) : bool :=
  match o with
  | None => true
  | Some s => (auth_trim a s =? EmptyString)%string
  end.

(** [x ?? y] *)
Definition nullish_or {A} (x y : option A) : option A :=
  match x with
  | Some _ => x
  | None => y
  end.

(** The body of the loop of [normalizeProviders], lines 262-308: the
    normalized provider, and whether anything was replaced ([mutated]). *)
Definition normalize_provider (a : AuthEnv) (key : string) (provider : ProviderConfig)
    : bool * ProviderConfig :=
  let normalizedKey := auth_trim a key in
  (* lines 266-275 *)
  let (m1, p1) :=
    if truthy (apiKey provider)
       && negb (normalizeApiKeyConfig a (template (apiKey provider))
                =? template (apiKey provider))%string
    then (true, set_apiKey provider (normalizeApiKeyConfig a (template (apiKey provider))))
    else (false, provider) in
  (* lines 279-300 *)
  let hasModels := (0 <? List.length (models p1))%nat in
  let (m2, p2) :=
    if hasModels && blank a (apiKey p1) then
      let authMode :=
        nullish_or (auth p1)
          (if (normalizedKey =? "amazon-bedrock")%string then Some "aws-sdk" else None) in
      if strict_eq "aws-sdk" authMode then
        (true, set_apiKey p1 (resolveAwsSdkApiKeyVarName a))
      else
        let fromEnv := resolveEnvApiKeyVarName a normalizedKey in
        let fromProfiles := resolveApiKeyFromProfiles a normalizedKey in
        let found := nullish_or fromEnv fromProfiles in
        if negb (blank a found) then (true, set_apiKey p1 (template found))
        else (false, p1)
    else (false, p1) in
  (* lines 302-308 *)
  let (m3, p3) :=
    if (normalizedKey =? "google")%string then normalizeGoogleProvider p2
    else (false, p2) in
  (m1 || m2 || m3, p3).

(** A record of providers as a JavaScript object: its own properties in
    property order, whose keys are distinct, and its prototype when that
    is not [Object.prototype]. *)
Record ProviderRecord := mkRecord {
  own_entries : list (string * ProviderConfig);
  prototype   : option ProviderConfig
}.

(** The own properties after [key] was defined as [provider]: the value
    is replaced in place when the key is present, and the property is
    added last otherwise. *)
Fixpoint define_property (key : string) (provider : ProviderConfig)
    (entries : list (string * ProviderConfig)) : list (string * ProviderConfig) :=
  match entries with
  | [] => [(key, provider)]
  | (k, p) :: rest =>
      if (k =? key)%string then (k, provider) :: rest
      else (k, p) :: define_property key provider rest
  end.

Definition is_proto_key (key : string) : bool := (key =? "__proto__")%string.

(** [next[key] = provider] on an object created by [{}]. The key
    ["__proto__"] reaches the accessor inherited from [Object.prototype]:
    the assignment replaces the prototype of [next] and defines no
    property. *)
Definition assign_provider (next : ProviderRecord) (key : string)
    (provider : ProviderConfig) : ProviderRecord :=
  if is_proto_key key then mkRecord (own_entries next) (Some provider)
  else mkRecord (define_property key provider (own_entries next)) (prototype next).

(** One turn of the loop of lines 261-311 on [mutated] and [next]. *)
Definition normalize_step (a : AuthEnv) (state : bool * ProviderRecord)
    (kp : string * ProviderConfig) : bool * ProviderRecord :=
  let (m, normalizedProvider) := normalize_provider a (fst kp) (snd kp) in
  (fst state || m, assign_provider (snd state) (fst kp) normalizedProvider).

(** Lines 247-314. [providers] is [None] for [undefined]; the loop visits
    [Object.entries(providers)], the own properties in property order.
    The first component says whether the result is the new record [next]
    rather than [providers] itself. *)
Definition normalizeProviders (a : AuthEnv) (providers : option ProviderRecord)
    : bool * option ProviderRecord :=
  match providers with
  | None => (false, None)
  | Some record =>
      let (mutated, next) :=
        fold_left (normalize_step a) (own_entries record) (false, mkRecord [] None) in
      (mutated, Some (if mutated then next else record))
  end.

(** *** Example inputs *)

Definition zero_cost : ModelCost :=
  mkCost (QArith_base.Qmake 0 1) (QArith_base.Qmake 0 1)
         (QArith_base.Qmake 0 1) (QArith_base.Qmake 0 1).

Definition model_of (id : string) : ProviderModel :=
  mkModel id id false ["text"] zero_cost 200000 8192.

Definition google_provider : ProviderConfig :=
  mkProvider "https://generativelanguage.googleapis.com" (Some "google-generative-ai")
             (Some "${GEMINI_API_KEY}") None
             [model_of "gemini-3-pro"; model_of "gemini-2.5-flash";
              model_of "gemini-3-flash"].

Definition bedrock_provider : ProviderConfig :=
  mkProvider "https://bedrock-runtime.us-east-1.amazonaws.com"
             (Some "bedrock-converse-stream") None None
             [model_of "anthropic.claude"].

Definition example_auth : AuthEnv :=
  mkAuthEnv ascii_trim
            (fun provider =>
               if (provider =? "openai")%string then Some "env: OPENAI_API_KEY"
               else if (provider =? "minimax")%string then Some "profile: minimax:default"
               else None)
            None
            (fun provider =>
               if (provider =? "minimax")%string
               then ["minimax:missing"; "minimax:oauth"; "minimax:default"; "minimax:b"]
               else [])
            (fun id =>
               if (id =? "minimax:oauth")%string then Some OtherCredential
               else if (id =? "minimax:default")%string
                    then Some (ApiKeyCredential "sk-first")
               else if (id =? "minimax:b")%string
                    then Some (TokenCredential "tok-second")
               else None).

(** [n] slashes. *)
Fixpoint slashes (n : nat) : string :=
  match n with
  | O => EmptyString
  | S k => String slash (slashes k)
  end.

(** A profile whose credential can serve as a key, and one that cannot. *)
Definition usable_credential (a : AuthEnv) (id key : string) : Prop :=
  profiles a id = Some (ApiKeyCredential key)
  \/ profiles a id = Some (TokenCredential key).

Definition unusable_profile (a : AuthEnv) (id : string) : Prop :=
  profiles a id = None \/ profiles a id = Some OtherCredential.

(** The auth mode of lines 282-284 is ["aws-sdk"]. *)
Definition aws_sdk_mode (a : AuthEnv) (key : string) (p : ProviderConfig) : Prop :=
  auth p = Some "aws-sdk"
  \/ (auth p = None /\ auth_trim a key = "amazon-bedrock").

(** The models of a provider with their ids in normal form. *)
Definition with_normal_ids (ms : list ProviderModel) : list ProviderModel :=
  map (fun m => set_model_id m (normalizeGoogleModelId (model_id m))) ms.

(** The providers of [entries], each normalized under its own key. *)
Definition normalized_entries (a : AuthEnv) (entries : list (string * ProviderConfig))
    : list (string * ProviderConfig) :=
  map (fun kp => (fst kp, snd (normalize_provider a (fst kp) (snd kp)))) entries.

(** The record built from [{}] by the assignments [next[key] = provider]
    of [assigned], in order. *)
Definition assign_all (assigned : list (string * ProviderConfig)) : ProviderRecord :=
  fold_left (fun next kq => assign_provider next (fst kq) (snd kq)) assigned
            (mkRecord [] None).

(** What normalization keeps of a provider [p] in its normal form [q]
    under [key]: everything but the key, and the model ids under the key
    ["google"]. *)
Definition same_shape (a : AuthEnv) (key : string) (p q : ProviderConfig) : Prop :=
  baseUrl q = baseUrl p
  /\ api q = api p
  /\ auth q = auth p
  /\ models q
     = (if (auth_trim a key =? "google")%string then with_normal_ids (models p)
        else models p).

(** A configuration with a provider under the key ["__proto__"], as
    [JSON.parse] can produce it. *)
Definition record_with_proto_key : ProviderRecord :=
  mkRecord [("__proto__", bedrock_provider); (" google ", google_provider)] None.

(* ================================================================== *)
(** ** The prune policy *)

Lemma shouldPrune_true_iff cfg now entry :
  shouldPruneSandboxEntry cfg now entry = true <->
  (0 < idleHours (prune cfg) /\
   idleHours (prune cfg) * 3600000 < now - lastUsedAtMs entry) \/
  (0 < maxAgeDays (prune cfg) /\
   maxAgeDays (prune cfg) * 86400000 < now - createdAtMs entry).
Proof.
  unfold shouldPruneSandboxEntry.
  destruct (prune cfg) as [ih md]; cbn [idleHours maxAgeDays].
  destruct (Z.eqb_spec ih 0) as [Hi|Hi], (Z.eqb_spec md 0) as [Hm|Hm];
    cbn [andb]; rewrite ?orb_true_iff, ?andb_true_iff, ?Z.ltb_lt;
    try (split; [discriminate | lia]); split; intros H; lia.
Qed.

Lemma shouldPrune_reference_true_iff cfg now entry :
  shouldPrune_reference cfg now entry = true <->
  (0 < idleHours (prune cfg) /\
   idleHours (prune cfg) * 3600000 < now - lastUsedAtMs entry) \/
  (0 < maxAgeDays (prune cfg) /\
   maxAgeDays (prune cfg) * 86400000 < now - createdAtMs entry).
Proof.
  unfold shouldPrune_reference, idle_rule, age_rule.
  destruct (prune cfg) as [ih md]; cbn [idleHours maxAgeDays].
  rewrite !Z.gtb_ltb.
  destruct (Z.eqb_spec ih 0) as [Hi|Hi], (Z.eqb_spec md 0) as [Hm|Hm];
    cbn [andb]; rewrite ?orb_true_iff, ?andb_true_iff, ?Z.ltb_lt;
    try (split; [discriminate | lia]); split; intros H; lia.
Qed.

Lemma bool_eq_of_iff (a b : bool) : (a = true <-> b = true) -> a = b.
Proof. destruct a, b; intuition congruence. Qed.

(** C1. [shouldPruneSandboxEntry] is the reference predicate of the
    specification: false when both thresholds are zero, otherwise the OR of
    the idle rule ([idleHours > 0] and [now - lastUsedAtMs > idleHours *
    3_600_000]) and the age rule ([maxAgeDays > 0] and [now - createdAtMs >
    maxAgeDays * 86_400_000]). Either rule alone prunes; both comparisons
    are strict: at the thresholds nothing is pruned, one millisecond
    beyond either threshold the entry is pruned. *)
Theorem shouldPruneSandboxEntry_reference :
  forall cfg now entry,
    shouldPruneSandboxEntry cfg now entry = shouldPrune_reference cfg now entry
    /\ (idleHours (prune cfg) = 0 -> maxAgeDays (prune cfg) = 0 ->
        shouldPruneSandboxEntry cfg now entry = false)
    /\ (idle_rule cfg now entry = true ->
        shouldPruneSandboxEntry cfg now entry = true)
    /\ (age_rule cfg now entry = true ->
        shouldPruneSandboxEntry cfg now entry = true)
    /\ (idleHours (prune cfg) <= 0 \/
        now - lastUsedAtMs entry <= idleHours (prune cfg) * 3600000 ->
        maxAgeDays (prune cfg) <= 0 \/
        now - createdAtMs entry <= maxAgeDays (prune cfg) * 86400000 ->
        shouldPruneSandboxEntry cfg now entry = false)
    /\ (0 < idleHours (prune cfg) ->
        now - lastUsedAtMs entry = idleHours (prune cfg) * 3600000 + 1 ->
        shouldPruneSandboxEntry cfg now entry = true)
    /\ (0 < maxAgeDays (prune cfg) ->
        now - createdAtMs entry = maxAgeDays (prune cfg) * 86400000 + 1 ->
        shouldPruneSandboxEntry cfg now entry = true).
Proof.
  intros cfg now entry.
  assert (Href : shouldPruneSandboxEntry cfg now entry
                 = shouldPrune_reference cfg now entry).
  { apply bool_eq_of_iff.
    rewrite shouldPrune_true_iff, shouldPrune_reference_true_iff. tauto. }
  split; [exact Href|].
  repeat split.
  - intros Hi Hm.
    destruct (shouldPruneSandboxEntry cfg now entry) eqn:E; [|reflexivity].
    apply shouldPrune_true_iff in E. lia.
  - unfold idle_rule. rewrite andb_true_iff, !Z.gtb_ltb, !Z.ltb_lt.
    intros H. apply shouldPrune_true_iff. left. lia.
  - unfold age_rule. rewrite andb_true_iff, !Z.gtb_ltb, !Z.ltb_lt.
    intros H. apply shouldPrune_true_iff. right. lia.
  - intros Hi Hm.
    destruct (shouldPruneSandboxEntry cfg now entry) eqn:E; [|reflexivity].
    apply shouldPrune_true_iff in E. lia.
  - intros Hi Hm. apply shouldPrune_true_iff. left. lia.
  - intros Hi Hm. apply shouldPrune_true_iff. right. lia.
Qed.

(** The idle boundary of the specification's scenarios, at a one hour
    threshold: exactly one hour idle is kept, one millisecond more is
    pruned, by the idle rule alone. *)
Lemma shouldPruneSandboxEntry_reference_witness :
  shouldPruneSandboxEntry cfg_idle_1h hour entry_c1 = false
  /\ shouldPruneSandboxEntry cfg_idle_1h (hour + 1) entry_c1 = true.
Proof.
  split.
  - apply (proj1 (proj2 (proj2 (proj2 (proj2
      (shouldPruneSandboxEntry_reference cfg_idle_1h hour entry_c1))))));
      [right | left]; vm_compute; discriminate.
  - apply (proj1 (proj2 (proj2 (proj2 (proj2 (proj2
      (shouldPruneSandboxEntry_reference cfg_idle_1h (hour + 1) entry_c1)))))));
      vm_compute; reflexivity.
Defined.

(* ================================================================== *)
(** ** Lists, traces and worlds *)

Lemma bind_ok {A B} (m : M A) (k : A -> M B) w a w1 :
  m w = (Ok a, w1) -> bind m k w = k a w1.
Proof. unfold bind. now intros ->. Qed.

Lemma bind_throw {A B} (m : M A) (k : A -> M B) w e w1 :
  m w = (Throw e, w1) -> bind m k w = (Throw e, w1).
Proof. unfold bind. now intros ->. Qed.

Lemma drop_names_nil entries : drop_names [] entries = entries.
Proof.
  unfold drop_names. induction entries as [|e l IH]; cbn; [reflexivity|].
  f_equal. exact IH.
Qed.

Lemma drop_names_removed name names entries :
  drop_names names (filter (fun e => negb (containerName e =? name)%string) entries)
  = drop_names (name :: names) entries.
Proof.
  unfold drop_names. induction entries as [|e l IH]; cbn; [reflexivity|].
  destruct (containerName e =? name)%string; cbn; [exact IH|].
  destruct (existsb (String.eqb (containerName e)) names); cbn; now rewrite IH.
Qed.

Lemma in_drop_names x names entries :
  In x (drop_names names entries) <-> In x entries /\ ~ In (containerName x) names.
Proof.
  unfold drop_names. rewrite filter_In, negb_true_iff.
  split; intros [Hin H]; split; try exact Hin.
  - intros Hn. assert (existsb (String.eqb (containerName x)) names = true).
    { apply existsb_exists. exists (containerName x). split; [exact Hn|apply String.eqb_refl]. }
    congruence.
  - destruct (existsb (String.eqb (containerName x)) names) eqn:E; [|reflexivity].
    apply existsb_exists in E. destruct E as [n [Hn He]].
    apply String.eqb_eq in He. subst n. contradiction.
Qed.

Lemma in_eligible_names cfg now entries name :
  In name (eligible_names cfg now entries) <->
  exists e, In e entries /\ shouldPruneSandboxEntry cfg now e = true
            /\ containerName e = name.
Proof.
  unfold eligible_names. rewrite in_map_iff. split.
  - intros [e [Hn Hf]]. apply filter_In in Hf. exists e. tauto.
  - intros [e [Hin [Hs Hn]]]. exists e. split; [exact Hn|]. apply filter_In. tauto.
Qed.

(** In a registry that respects its primary key, the name decides the entry. *)
Lemma unique_name_entry (entries : list SandboxRegistryEntry) a b :
  NoDup (map containerName entries) ->
  In a entries -> In b entries -> containerName a = containerName b -> a = b.
Proof.
  induction entries as [|e l IH]; cbn; [tauto|].
  intros Hnd Ha Hb Hab. inversion Hnd as [|? ? Hnot Hnd']; subst.
  destruct Ha as [Ha|Ha], Hb as [Hb|Hb]; subst.
  - reflexivity.
  - exfalso. apply Hnot. rewrite Hab. now apply in_map.
  - exfalso. apply Hnot. rewrite <- Hab. now apply in_map.
  - now apply IH.
Qed.

Lemma new_events_app w w' evs :
  trace w' = (trace w ++ evs)%list -> new_events w w' = evs.
Proof.
  unfold new_events. intros ->.
  rewrite skipn_app, skipn_all, Nat.sub_diag. reflexivity.
Qed.

(* ================================================================== *)
(** ** The prune pass *)

Lemma prune_entry_skip env cfg now remove onRemoved e w :
  shouldPruneSandboxEntry cfg now e = false ->
  prune_entry env cfg now remove onRemoved e w = (Ok tt, w).
Proof. unfold prune_entry. intros ->. reflexivity. Qed.

(** An eligible entry: the docker removal is attempted, its outcome is
    dropped, and the registry removal follows on every path. *)
Lemma prune_entry_eligible env cfg now e w :
  shouldPruneSandboxEntry cfg now e = true ->
  prune_entry env cfg now (removeRegistryEntry env) None e w =
  match envStoreFault env (trace w ++ [EvExecDocker (rm_args (containerName e))])%list with
  | Some err =>
      (Throw err,
       mkWorld (registry w)
               (trace w ++ attempt_events (containerName e))%list
               (lastPruneAtMs w))
  | None =>
      (Ok tt,
       mkWorld (filter (fun x => negb (containerName x =? containerName e)%string)
                       (registry w))
               (trace w ++ attempt_events (containerName e))%list
               (lastPruneAtMs w))
  end.
Proof.
  intros He. unfold prune_entry, try_catch_finally, try_catch, bind, execDocker,
    removeRegistryEntry, ret, emit, attempt_events.
  rewrite He. cbn [negb orb].
  destruct (envExec env (trace w) (rm_args (containerName e))); cbn;
    destruct (envStoreFault env _); cbn; rewrite <- app_assoc; reflexivity.
Qed.

Lemma prune_loop_spec env cfg now :
  forall entries w r w',
    for_of entries
      (fun _ entry => prune_entry env cfg now (removeRegistryEntry env) None entry) tt w
    = (r, w') ->
    exists attempted removed rest,
      trace w' = (trace w ++ flat_map attempt_events attempted)%list
      /\ registry w' = drop_names removed (registry w)
      /\ lastPruneAtMs w' = lastPruneAtMs w
      /\ incl removed attempted
      /\ eligible_names cfg now entries = (attempted ++ rest)%list
      /\ (r = Ok tt -> removed = attempted /\ rest = [])
      /\ (store_reliable env -> r = Ok tt).
Proof.
  induction entries as [|e l IH]; intros w r w' Hrun.
  - cbn in Hrun. injection Hrun as <- <-.
    exists [], [], []. cbn. rewrite app_nil_r, drop_names_nil.
    repeat split; auto using incl_refl.
  - cbn [for_of] in Hrun. unfold bind in Hrun at 1.
    destruct (shouldPruneSandboxEntry cfg now e) eqn:He.
    + rewrite (prune_entry_eligible _ _ _ _ _ He) in Hrun.
      destruct (envStoreFault env _) as [err|] eqn:Hf.
      * injection Hrun as <- <-.
        exists [containerName e], [], (eligible_names cfg now l).
        cbn [registry trace lastPruneAtMs flat_map]. rewrite app_nil_r, drop_names_nil.
        repeat split; try discriminate.
        -- apply incl_nil_l.
        -- unfold eligible_names. cbn. rewrite He. reflexivity.
        -- intros Hrel. rewrite Hrel in Hf. discriminate.
      * apply IH in Hrun.
        destruct Hrun as (att & rem & rest & Ht & Hr & Hl & Hi & He' & Hok & Hrel).
        cbn [registry trace lastPruneAtMs] in *.
        exists (containerName e :: att), (containerName e :: rem), rest.
        repeat split.
        -- rewrite Ht. cbn [flat_map]. rewrite <- app_assoc. reflexivity.
        -- rewrite Hr. apply drop_names_removed.
        -- exact Hl.
        -- intros x [Hx|Hx]; [left; exact Hx | right; apply Hi; exact Hx].
        -- unfold eligible_names in *. cbn. rewrite He. cbn. now rewrite He'.
        -- f_equal. now apply Hok.
        -- now apply Hok.
        -- exact Hrel.
    + rewrite (prune_entry_skip _ _ _ _ _ _ _ He) in Hrun.
      apply IH in Hrun.
      destruct Hrun as (att & rem & rest & Ht & Hr & Hl & Hi & He' & Hok & Hrel).
      exists att, rem, rest. repeat split; auto; try now apply Hok.
      unfold eligible_names in *. cbn. rewrite He. exact He'.
Qed.

Lemma eligible_names_disabled cfg now entries :
  idleHours (prune cfg) = 0 -> maxAgeDays (prune cfg) = 0 ->
  eligible_names cfg now entries = [].
Proof.
  intros Hi Hm. unfold eligible_names.
  induction entries as [|e l IH]; cbn; [reflexivity|].
  unfold shouldPruneSandboxEntry at 1. rewrite Hi, Hm. cbn. exact IH.
Qed.

Lemma in_attempts_exec name attempted :
  In (EvExecDocker (rm_args name)) (flat_map attempt_events attempted) ->
  In name attempted.
Proof.
  induction attempted as [|n l IH]; cbn; [tauto|].
  intros [H|[H|H]]; try discriminate.
  - injection H as ->. now left.
  - right. now apply IH.
Qed.

Lemma in_attempts_remove name attempted :
  In (EvRegistryRemove name) (flat_map attempt_events attempted) ->
  In name attempted.
Proof.
  induction attempted as [|n l IH]; cbn; [tauto|].
  intros [H|[H|H]]; try discriminate.
  - injection H as ->. now left.
  - right. now apply IH.
Qed.

(** The whole pass: the clock is read, then, unless pruning is disabled,
    the registry, then the eligible entries are worked through in registry
    order, each attempt a docker removal followed by a registry removal. *)
Lemma prune_pass_spec env cfg w r w' :
  pruneSandboxContainers env cfg w = (r, w') ->
  exists pre attempted removed rest,
    trace w' = (trace w ++ EvNow (envNow env (trace w)) :: pre
                ++ flat_map attempt_events attempted)%list
    /\ (pre = [] \/ pre = [EvRegistryRead])
    /\ registry w' = drop_names removed (registry w)
    /\ lastPruneAtMs w' = lastPruneAtMs w
    /\ incl removed attempted
    /\ eligible_names cfg (envNow env (trace w)) (registry w) = (attempted ++ rest)%list
    /\ (store_reliable env -> r = Ok tt /\ removed = attempted /\ rest = []).
Proof.
  unfold pruneSandboxContainers, pruneSandboxRegistryEntries.
  unfold bind at 1. unfold dateNow.
  set (now := envNow env (trace w)).
  destruct ((idleHours (prune cfg) =? 0) && (maxAgeDays (prune cfg) =? 0)) eqn:Hd.
  - intros Hrun. injection Hrun as <- <-.
    apply andb_true_iff in Hd. destruct Hd as [Hi Hm].
    apply Z.eqb_eq in Hi, Hm.
    exists [], [], [], []. cbn. rewrite drop_names_nil.
    rewrite (eligible_names_disabled _ _ _ Hi Hm).
    repeat split; auto using incl_refl.
  - unfold bind at 1. unfold readRegistry.
    cbn [emit trace registry lastPruneAtMs].
    destruct (envStoreFault env _) as [err|] eqn:Hf.
    + intros Hrun. injection Hrun as <- <-.
      exists [EvRegistryRead], [],  [], (eligible_names cfg now (registry w)).
      cbn. rewrite drop_names_nil, <- (app_assoc (trace w)).
      repeat split; auto using incl_refl;
        match goal with
        | Hrel : store_reliable _ |- _ => rewrite Hrel in Hf; discriminate
        end.
    + intros Hrun. apply prune_loop_spec in Hrun.
      destruct Hrun as (att & rem & rest & Ht & Hr & Hl & Hi & He' & Hok & Hrel).
      unfold emit in *. cbn [registry trace lastPruneAtMs] in *.
      exists [EvRegistryRead], att, rem, rest.
      repeat split; auto.
      * rewrite Ht, <- !app_assoc. reflexivity.
      * now apply Hok, Hrel.
      * now apply Hok, Hrel.
Qed.

(** C2. During a prune pass the registry entry of every eligible entry is
    removed whatever the docker removal does. For every behaviour of the
    runtime, the removals of a pass are attempts made of a docker removal
    immediately followed by the registry removal of the same name. With a
    working registry store the pass completes, every eligible entry gets
    its attempt, and no eligible entry remains in the registry afterwards. *)
Theorem prune_removes_every_eligible_entry :
  forall env cfg w r w',
    pruneSandboxContainers env cfg w = (r, w') ->
    (exists reads attempted,
        new_events w w'
        = (EvNow (envNow env (trace w)) :: reads
           ++ flat_map attempt_events attempted)%list
        /\ (reads = [] \/ reads = [EvRegistryRead]))
    /\ (store_reliable env ->
        r = Ok tt
        /\ (forall e, In e (registry w') ->
              shouldPruneSandboxEntry cfg (envNow env (trace w)) e = false)
        /\ (forall e, In e (registry w) ->
              shouldPruneSandboxEntry cfg (envNow env (trace w)) e = true ->
              exists before after,
                new_events w w'
                = (before ++ attempt_events (containerName e) ++ after)%list)).
Proof.
  intros env cfg w r w' Hrun.
  destruct (prune_pass_spec _ _ _ _ _ Hrun)
    as (pre & att & rem & rest & Ht & Hpre & Hr & Hl & Hi & He & Hok).
  split.
  { exists pre, att. split; [now apply new_events_app | exact Hpre]. }
  intros Hrel.
  destruct (Hok Hrel) as (-> & -> & ->). rewrite app_nil_r in He.
  split; [reflexivity|]. split.
  - intros e Hin. rewrite Hr in Hin. apply in_drop_names in Hin.
    destruct Hin as [Hin Hnot].
    destruct (shouldPruneSandboxEntry cfg _ e) eqn:E; [|reflexivity].
    exfalso. apply Hnot. rewrite <- He. apply in_eligible_names.
    exists e. auto.
  - intros e Hin Hs.
    assert (Hn : In (containerName e) att).
    { rewrite <- He. apply in_eligible_names. exists e. auto. }
    apply in_split in Hn. destruct Hn as (l1 & l2 & ->).
    rewrite (new_events_app _ _ _ Ht).
    exists (EvNow (envNow env (trace w)) :: pre ++ flat_map attempt_events l1)%list,
           (flat_map attempt_events l2).
    rewrite flat_map_app. cbn [flat_map app]. rewrite <- !app_assoc. reflexivity.
Qed.

Lemma filter_filter_absorb {A} (p q : A -> bool) (l : list A) :
  (forall x, In x l -> p x = true -> q x = true) ->
  filter p (filter q l) = filter p l.
Proof.
  induction l as [|a l IH]; cbn; [reflexivity|]. intros H.
  assert (IH' : filter p (filter q l) = filter p l) by (apply IH; auto).
  destruct (q a) eqn:Q; cbn.
  - now rewrite IH'.
  - destruct (p a) eqn:P; [|exact IH'].
    rewrite (H a (or_introl eq_refl) P) in Q. discriminate.
Qed.

(** C9. A prune pass touches only eligible entries: in a registry keyed by
    container name, an entry the policy does not select at the pass's
    [now] is still in the registry afterwards, the ineligible entries are
    exactly as they were and in the same order, and neither a docker
    removal nor a registry removal was issued for it. *)
Theorem prune_keeps_ineligible_entries :
  forall env cfg w r w',
    NoDup (map containerName (registry w)) ->
    pruneSandboxContainers env cfg w = (r, w') ->
    let now := envNow env (trace w) in
    filter (fun e => negb (shouldPruneSandboxEntry cfg now e)) (registry w')
    = filter (fun e => negb (shouldPruneSandboxEntry cfg now e)) (registry w)
    /\ forall e, In e (registry w) ->
         shouldPruneSandboxEntry cfg now e = false ->
         In e (registry w')
         /\ ~ In (EvExecDocker (rm_args (containerName e))) (new_events w w')
         /\ ~ In (EvRegistryRemove (containerName e)) (new_events w w').
Proof.
  intros env cfg w r w' Hnd Hrun now.
  destruct (prune_pass_spec _ _ _ _ _ Hrun)
    as (pre & att & rem & rest & Ht & Hpre & Hr & Hl & Hi & He & Hok).
  fold now in He, Ht.
  assert (Hkeep : forall e, In e (registry w) ->
            shouldPruneSandboxEntry cfg now e = false ->
            ~ In (containerName e) att).
  { intros e Hin Hs Hn.
    assert (Hel : In (containerName e) (eligible_names cfg now (registry w))).
    { rewrite He. apply in_or_app. now left. }
    apply in_eligible_names in Hel. destruct Hel as (e' & Hin' & Hs' & Hn').
    assert (e' = e) by (eapply unique_name_entry; eauto).
    subst e'. congruence. }
  split.
  - rewrite Hr. unfold drop_names. apply filter_filter_absorb.
    intros x Hin Hs. apply negb_true_iff in Hs. apply negb_true_iff.
    destruct (existsb (String.eqb (containerName x)) rem) eqn:E; [|reflexivity].
    exfalso. apply existsb_exists in E. destruct E as (n & Hn & Heq).
    apply String.eqb_eq in Heq. subst n.
    apply (Hkeep x Hin Hs). now apply Hi.
  - intros e Hin Hs. specialize (Hkeep e Hin Hs).
    rewrite (new_events_app _ _ _ Ht). repeat split.
    + rewrite Hr. apply in_drop_names. split; [exact Hin|].
      intros Hn. apply Hkeep. now apply Hi.
    + intros [H|H]; [discriminate|]. apply in_app_or in H.
      destruct H as [H|H].
      * destruct Hpre as [-> | ->]; cbn in H; intuition discriminate.
      * now apply Hkeep, in_attempts_exec.
    + intros [H|H]; [discriminate|]. apply in_app_or in H.
      destruct H as [H|H].
      * destruct Hpre as [-> | ->]; cbn in H; intuition discriminate.
      * now apply Hkeep, in_attempts_remove.
Qed.

(* ================================================================== *)
(** ** Reconciliation *)

Lemma set_image_same e : set_image e (image e) = e.
Proof. destruct e; reflexivity. Qed.

(** One entry: the loop body always produces an item, and the item
    follows the runtime's answers. *)
Lemma reconcile_entry_spec env configured e w :
  let name := containerName e in
  let q := envContainerState env (trace w) name in
  exists item w',
    reconcile_entry env configured e w = (Ok item, w')
    /\ registry w' = registry w
    /\ lastPruneAtMs w' = lastPruneAtMs w
    /\ (exists evs, trace w' = (trace w ++ EvContainerState name :: evs)%list
                    /\ Forall silent evs)
    /\ set_image (info_entry item) (image e) = e
    /\ (running item = true <-> q = Reported Running)
    /\ (q = Reported Missing \/ q = QueryFailed ->
        running item = false /\ info_entry item = e
        /\ trace w' = (trace w ++ [EvContainerState name])%list)
    /\ (inspect_failed
          (envExec env (trace w ++ [EvContainerState name])%list (inspect_args name)) ->
        info_entry item = e)
    /\ imageMatch item
       = (image (info_entry item)
          =? configured (resolveSandboxAgentId env (sessionKey e)))%string.
Proof.
  intros name q. subst name q.
  unfold reconcile_entry, reconcile_entry_with, bind, dockerContainerState, try_catch,
    execDocker, ret, emit.
  cbn [trace registry lastPruneAtMs].
  destruct (envContainerState env (trace w) (containerName e)) as [[| |]|];
    cbn [state_exists state_running trace registry lastPruneAtMs orb].
  1, 2: destruct (envExec env _ (inspect_args (containerName e))) as [c out|msg];
    cbn [code stdout inspect_failed]; [destruct (Z.eqb_spec c 0)|].
  all: eexists; eexists; split; [reflexivity|];
    cbn [trace registry lastPruneAtMs info_entry running imageMatch];
    rewrite ?set_image_same, <- ?app_assoc; cbn [app].
  all: split; [reflexivity|]; split; [reflexivity|].
  all: split; [eexists; split; [reflexivity | repeat constructor]|].
  all: repeat split; try discriminate; try tauto; try (destruct e; reflexivity).
  all: try match goal with
           | H : _ \/ _ |- _ => destruct H; discriminate
           | H : ?c <> 0, H0 : ?c = 0 |- _ => contradiction
           end.
Qed.

Lemma entry_turn_later env configured w w1 w' e item a b evs :
  trace w1 = (trace w ++ evs)%list ->
  entry_turn env configured w1 w' e item a b ->
  entry_turn env configured w w' e item a b.
Proof.
  intros Ht (Hrun & (before & Hb) & Ha). repeat split; try assumption.
  exists (evs ++ before)%list. rewrite Hb, Ht, app_assoc. reflexivity.
Qed.

(** The loop: one item per entry, in registry order, each produced by
    the body in the world its predecessor left. Nothing raises. *)
Lemma list_loop_spec env configured :
  forall entries results w,
  exists items w',
    for_of entries
      (fun results entry =>
         item <- reconcile_entry env configured entry ;;
         ret (results ++ [item])%list) results w
    = (Ok (results ++ items)%list, w')
    /\ registry w' = registry w
    /\ lastPruneAtMs w' = lastPruneAtMs w
    /\ (exists evs, trace w' = trace w ++ evs /\ Forall silent evs)%list
    /\ Forall2 (fun e item => exists w0 w1, entry_turn env configured w w' e item w0 w1)
               entries items.
Proof.
  induction entries as [|e l IH]; intros results w.
  - exists [], w. cbn. rewrite app_nil_r. repeat split; auto.
    exists []. now rewrite app_nil_r.
  - destruct (reconcile_entry_spec env configured e w)
      as (item & w1 & Hrun & Hreg & Hlast & (evs & Ht & Hs) & _).
    destruct (IH (results ++ [item])%list w1)
      as (items & w' & Hloop & Hreg' & Hlast' & (evs' & Ht' & Hs') & Hall).
    exists (item :: items), w'.
    cbn [for_of]. unfold bind at 1. unfold bind at 1. rewrite Hrun.
    unfold ret at 1. rewrite Hloop, <- app_assoc. cbn [app].
    repeat split; try congruence.
    + exists (EvContainerState (containerName e) :: evs ++ evs')%list. split.
      * rewrite Ht', Ht, <- app_assoc. reflexivity.
      * constructor; [exact I|]. apply Forall_app. now split.
    + constructor.
      * exists w, w1. split; [exact Hrun|]. split.
        -- exists []. now rewrite app_nil_r.
        -- exists evs'. exact Ht'.
      * eapply Forall2_impl; [|exact Hall].
        intros a b (w0 & w2 & Hturn). exists w0, w2.
        eapply entry_turn_later; eauto.
Qed.

Lemma list_items_spec env configured w :
  match envStoreFault env (trace w) with
  | Some err =>
      listSandboxRegistryItems env (readRegistry env) configured w
      = (Throw err, emit EvRegistryRead w)
  | None =>
      exists items w',
        listSandboxRegistryItems env (readRegistry env) configured w = (Ok items, w')
        /\ registry w' = registry w
        /\ lastPruneAtMs w' = lastPruneAtMs w
        /\ (exists evs, trace w' = trace w ++ EvRegistryRead :: evs
                        /\ Forall silent evs)%list
        /\ Forall2 (fun e item => exists w0 w1, entry_turn env configured w w' e item w0 w1)
                   (registry w) items
  end.
Proof.
  unfold listSandboxRegistryItems, listSandboxRegistryItems_with.
  destruct (envStoreFault env (trace w)) as [err|] eqn:Hf.
  - apply bind_throw. unfold readRegistry. now rewrite Hf.
  - destruct (list_loop_spec env configured (registry w) [] (emit EvRegistryRead w))
      as (items & w' & Hloop & Hreg & Hlast & (evs & Ht & Hs) & Hall).
    exists items, w'. cbn [app] in Hloop. split.
    { erewrite bind_ok; [exact Hloop|]. unfold readRegistry. now rewrite Hf. }
    unfold emit in *. cbn [registry trace lastPruneAtMs] in *.
    repeat split; try assumption.
    + exists evs. split; [|exact Hs]. rewrite Ht, <- app_assoc. reflexivity.
    + eapply Forall2_impl; [|exact Hall].
      intros a b (w0 & w1 & Hturn). exists w0, w1.
      eapply entry_turn_later; [|exact Hturn]. reflexivity.
Qed.





(** C5. An entry whose container the runtime reports as missing is listed
    with [running = false] and its recorded image, and its turn consists of
    the state query alone, so no inspection is attempted for it. For every
    entry, [running] is true exactly when the runtime reports the container
    as existing and running. *)
Theorem listSandboxRegistryItems_follows_runtime :
  forall env configured w items w',
    listSandboxRegistryItems env (readRegistry env) configured w = (Ok items, w') ->
    Forall2
      (fun e item => exists w0 w1,
         entry_turn env configured w w' e item w0 w1
         /\ (running item = true <->
             envContainerState env (trace w0) (containerName e) = Reported Running)
         /\ (envContainerState env (trace w0) (containerName e) = Reported Missing ->
             running item = false
             /\ image (info_entry item) = image e
             /\ new_events w0 w1 = [EvContainerState (containerName e)]))
      (registry w) items.
Proof.
  intros env configured w items w' Hrun.
  pose proof (list_items_spec env configured w) as H.
  destruct (envStoreFault env (trace w)) as [err|]; [congruence|].
  destruct H as (items' & w'' & Hrun' & _ & _ & _ & Hall).
  rewrite Hrun in Hrun'. injection Hrun' as <- <-.
  eapply Forall2_impl; [|exact Hall].
  intros e item (w0 & w1 & Hturn).
  destruct (reconcile_entry_spec env configured e w0)
    as (item' & w1' & Hbody' & _ & _ & _ & _ & Hrunning & Hmiss & _).
  pose proof Hturn as (Hbody & _).
  rewrite Hbody in Hbody'. injection Hbody' as <- <-.
  exists w0, w1. split; [exact Hturn|]. split; [exact Hrunning|].
  intros Hq. destruct (Hmiss (or_introl Hq)) as (Hr & He & Ht).
  repeat split; [exact Hr | now rewrite He | now apply new_events_app].
Qed.

(* ================================================================== *)
(** ** The rate limit of the background prune *)

Lemma guarded_prune_spec env cfg w :
  exists w',
    try_catch (pruneSandboxContainers env cfg) prune_failed_handler w = (Ok tt, w')
    /\ lastPruneAtMs w' = lastPruneAtMs w.
Proof.
  unfold try_catch.
  destruct (pruneSandboxContainers env cfg w) as [r w1] eqn:Hrun.
  destruct (prune_pass_spec _ _ _ _ _ Hrun) as (_ & _ & _ & _ & _ & _ & _ & Hl & _).
  destruct r as [[]|err].
  - exists w1. split; [reflexivity | exact Hl].
  - eexists. split; [reflexivity | exact Hl].
Qed.

Lemma maybePrune_skip env cfg w :
  envNow env (trace w) - lastPruneAtMs w < 5 * 60 * 1000 ->
  maybePruneSandboxes env cfg w = (Ok tt, emit (EvNow (envNow env (trace w))) w).
Proof.
  intros H. unfold maybePruneSandboxes, bind, dateNow, getLastPruneAtMs.
  cbn [emit lastPruneAtMs].
  destruct (Z.ltb_spec (envNow env (trace w) - lastPruneAtMs w) (5 * 60 * 1000));
    [reflexivity | lia].
Qed.

Lemma maybePrune_run env cfg w :
  5 * 60 * 1000 <= envNow env (trace w) - lastPruneAtMs w ->
  maybePruneSandboxes env cfg w
  = try_catch (pruneSandboxContainers env cfg) prune_failed_handler
      (mkWorld (registry w)
               (trace w ++ [EvNow (envNow env (trace w));
                            EvLastPruneAt (envNow env (trace w))])
               (envNow env (trace w))).
Proof.
  intros H. unfold maybePruneSandboxes, bind, dateNow, getLastPruneAtMs, setLastPruneAtMs.
  cbn [emit lastPruneAtMs registry trace].
  destruct (Z.ltb_spec (envNow env (trace w) - lastPruneAtMs w) (5 * 60 * 1000));
    [lia|]. unfold emit. cbn [trace registry]. rewrite <- app_assoc. reflexivity.
Qed.

Lemma guarded_prune_events env cfg w r w' :
  try_catch (pruneSandboxContainers env cfg) prune_failed_handler w = (r, w') ->
  exists work, trace w' = (trace w ++ work)%list.
Proof.
  unfold try_catch.
  destruct (pruneSandboxContainers env cfg w) as [r0 w1] eqn:Hrun.
  destruct (prune_pass_spec _ _ _ _ _ Hrun) as (pre & att & _ & _ & Ht & _).
  destruct r0 as [[]|err]; intros [= <- <-].
  - eexists. exact Ht.
  - unfold prune_failed_handler, runtime_error, effect, emit. cbn [trace].
    rewrite Ht, <- app_assoc. eexists. reflexivity.
Qed.

(** C4. An invocation of [maybePruneSandboxes] that is not skipped assigns
    the current time to [lastPruneAtMs] before the prune pass starts: the
    assignment directly follows the reading of the clock, the whole pass
    (its registry read and every removal) comes after it and runs in a
    world that already holds the new timestamp, and the timestamp stays
    whether the pass succeeds or fails. A later invocation less than
    300_000 ms after that timestamp returns at once: it only reads the
    clock, so there is no registry read and no removal. *)
Theorem maybePruneSandboxes_rate_limit :
  forall env cfg w r1 w1,
    5 * 60 * 1000 <= envNow env (trace w) - lastPruneAtMs w ->
    maybePruneSandboxes env cfg w = (r1, w1) ->
    let t1 := envNow env (trace w) in
    r1 = Ok tt
    /\ lastPruneAtMs w1 = t1
    /\ (exists work,
          new_events w w1 = EvNow t1 :: EvLastPruneAt t1 :: work
          /\ (r1, w1)
             = try_catch (pruneSandboxContainers env cfg) prune_failed_handler
                 (mkWorld (registry w) (trace w ++ [EvNow t1; EvLastPruneAt t1]) t1)
          /\ trace w1 = (trace w ++ [EvNow t1; EvLastPruneAt t1] ++ work)%list)
    /\ forall w2,
         lastPruneAtMs w2 = lastPruneAtMs w1 ->
         envNow env (trace w2) - t1 < 300000 ->
         exists w2',
           maybePruneSandboxes env cfg w2 = (Ok tt, w2')
           /\ registry w2' = registry w2
           /\ lastPruneAtMs w2' = t1
           /\ new_events w2 w2' = [EvNow (envNow env (trace w2))].
Proof.
  intros env cfg w r1 w1 Hdue Hrun t1.
  rewrite (maybePrune_run _ _ _ Hdue) in Hrun. fold t1 in Hrun.
  destruct (guarded_prune_spec env cfg
              (mkWorld (registry w) (trace w ++ [EvNow t1; EvLastPruneAt t1]) t1))
    as (w' & Hg & Hl).
  destruct (guarded_prune_events _ _ _ _ _ Hg) as (work & Hwork).
  rewrite Hg in Hrun. injection Hrun as <- <-.
  cbn [lastPruneAtMs trace] in Hl, Hwork.
  split; [reflexivity|]. split; [exact Hl|]. split.
  - exists work. split; [|split].
    + apply new_events_app. rewrite Hwork, <- app_assoc. reflexivity.
    + now rewrite Hg.
    + rewrite Hwork, <- app_assoc. reflexivity.
  - intros w2 Hlast Hsoon.
    exists (emit (EvNow (envNow env (trace w2))) w2).
    repeat split.
    + apply maybePrune_skip. rewrite Hlast, Hl. exact Hsoon.
    + cbn. congruence.
    + now apply new_events_app.
Qed.

(* ================================================================== *)
(** ** The recreate command: validation *)

Lemma validate_spec opts w :
  validateRecreateOptions opts w =
  match selector_count opts with
  | O => (Ok false,
          mkWorld (registry w) (trace w ++ [EvError usage_none; EvExit 1])
                  (lastPruneAtMs w))
  | S O => (Ok true, w)
  | _ => (Ok false,
          mkWorld (registry w) (trace w ++ [EvError usage_many; EvExit 1])
                  (lastPruneAtMs w))
  end.
Proof.
  unfold validateRecreateOptions, selector_count, count_truthy.
  destruct (all opts), (truthy (session opts)), (truthy (agent opts)); cbn;
    unfold bind, runtime_error, runtime_exit, effect, emit, ret; cbn;
    rewrite <- ?app_assoc; reflexivity.
Qed.

(** C6. When the number of selectors given among [--all], [--session] and
    [--agent] is not exactly one, the recreate command reports a usage
    error, exits with status 1 and does nothing else: the registry is not
    read, nothing is reconciled, previewed or asked, and nothing is
    removed. A selector counts as given when it is set to a non-empty
    value. *)
Theorem sandboxRecreateCommand_usage_error :
  forall env opts w,
    selector_count opts <> 1%nat ->
    exists message,
      (message = usage_none \/ message = usage_many)
      /\ sandboxRecreateCommand env opts w
         = (Ok tt,
            mkWorld (registry w) (trace w ++ [EvError message; EvExit 1])
                    (lastPruneAtMs w)).
Proof.
  intros env opts w Hcount.
  unfold sandboxRecreateCommand.
  pose proof (validate_spec opts w) as Hv.
  destruct (selector_count opts) as [|[|n]]; [| congruence |].
  - exists usage_none. split; [now left|].
    erewrite bind_ok by exact Hv. reflexivity.
  - exists usage_many. split; [now right|].
    erewrite bind_ok by exact Hv. reflexivity.
Qed.

(** C10. An empty-string selector is an absent selector: replacing every
    empty [--session] or [--agent] value by no value changes neither the
    validation nor the filter nor any step of the command. So an empty
    [--session] alone is the usage error of an invocation without selector,
    and [--all] with an empty [--session] is accepted and filters nothing. *)
Theorem sandboxRecreateCommand_empty_selector :
  forall env opts w,
    sandboxRecreateCommand env opts w
    = sandboxRecreateCommand env (without_empty_selectors opts) w
    /\ validateRecreateOptions opts w
       = validateRecreateOptions (without_empty_selectors opts) w
    /\ (forall containers,
          filterContainers opts containers
          = filterContainers (without_empty_selectors opts) containers)
    /\ (forall f,
          sandboxRecreateCommand env (mkOpts false (Some EmptyString) None f) w
          = (Ok tt,
             mkWorld (registry w) (trace w ++ [EvError usage_none; EvExit 1])
                     (lastPruneAtMs w)))
    /\ (forall f containers,
          validateRecreateOptions (mkOpts true (Some EmptyString) None f) w
          = (Ok true, w)
          /\ filterContainers (mkOpts true (Some EmptyString) None f) containers
             = containers).
Proof.
  intros env opts w.
  destruct opts as [a [[|c s]|] [[|c' g]|] f];
    repeat split; try reflexivity.
  all: cbn; unfold bind, runtime_error, runtime_exit, effect, emit, ret; cbn;
    rewrite <- ?app_assoc; reflexivity.
Qed.

(* ================================================================== *)
(** ** The recreate command: selection *)

Lemma string_append_assoc (a b c : string) : ((a ++ b) ++ c = a ++ (b ++ c))%string.
Proof. induction a as [|x a IH]; cbn; [reflexivity | now rewrite IH]. Qed.

Lemma prefix_starts_with p s : String.prefix p s = true <-> starts_with p s.
Proof.
  unfold starts_with. revert s. induction p as [|a p IH]; intros s.
  - destruct s; cbn; (split; [intros _; eexists; reflexivity | reflexivity]).
  - destruct s as [|b s]; cbn.
    + split; [discriminate | intros [x H]; discriminate].
    + destruct (Ascii.ascii_dec a b) as [->|Hab].
      * rewrite IH. split; intros [x H]; exists x; [now rewrite H | now injection H].
      * split; [discriminate | intros [x H]; congruence].
Qed.

Lemma truthy_some o : truthy o = true <-> exists s, o = Some s /\ s <> EmptyString.
Proof.
  destruct o as [s|]; cbn.
  - rewrite negb_true_iff, String.eqb_neq. split.
    + intros H. exists s. auto.
    + intros (s' & [= <-] & H). exact H.
  - split; [discriminate | intros (s & H & _); discriminate].
Qed.

Lemma selector_count_one opts :
  selector_count opts = 1%nat ->
  (all opts = true /\ truthy (session opts) = false /\ truthy (agent opts) = false)
  \/ (all opts = false /\ truthy (session opts) = true /\ truthy (agent opts) = false)
  \/ (all opts = false /\ truthy (session opts) = false /\ truthy (agent opts) = true).
Proof.
  unfold selector_count, count_truthy.
  destruct (all opts), (truthy (session opts)), (truthy (agent opts)); cbn;
    intros H; try discriminate; tauto.
Qed.

(** The listing the command works on: the reconciled registry, or nothing
    when listing raised. No step of it ends the process. *)
Lemma listing_spec env w :
  exists listed w',
    try_catch (listSandboxContainers env) (fun _ => ret []) w = (Ok listed, w')
    /\ registry w' = registry w
    /\ lastPruneAtMs w' = lastPruneAtMs w
    /\ exists evs, trace w' = (trace w ++ evs)%list /\ Forall silent evs.
Proof.
  unfold try_catch, listSandboxContainers. unfold bind at 1. unfold loadConfig.
  destruct (envLoadConfig env (trace w)) as [config|err].
  - pose proof (list_items_spec env (fun agentId => config agentId)
                  (emit EvLoadConfig w)) as H.
    destruct (envStoreFault env (trace (emit EvLoadConfig w))) as [err|].
    + rewrite H. eexists; eexists. split; [reflexivity|]. repeat split.
      exists [EvLoadConfig; EvRegistryRead]. cbn. rewrite <- app_assoc.
      split; [reflexivity | repeat constructor].
    + destruct H as (items & w' & -> & Hreg & Hlast & (evs & Ht & Hs) & _).
      exists items, w'. repeat split; try assumption.
      exists (EvLoadConfig :: EvRegistryRead :: evs). split.
      * rewrite Ht. cbn. rewrite <- app_assoc. reflexivity.
      * now repeat constructor.
  - exists [], (emit EvLoadConfig w). repeat split.
    exists [EvLoadConfig]. split; [reflexivity | repeat constructor].
Qed.

(** C7. Recreate filtering selects exactly the intended entries. The
    command filters the listing with [filterContainers]. With a session
    key, an entry is selected iff its [sessionKey] is that key. With valid
    options naming an agent [id], it is selected iff its [sessionKey] is
    ["agent:id"] or starts with ["agent:id:"]. With valid options and
    [--all], every entry is selected. *)
Theorem filterContainers_selects :
  forall opts containers,
    (forall env w, exists listed w',
        try_catch (listSandboxContainers env) (fun _ => ret []) w = (Ok listed, w')
        /\ fetchAndFilterContainers env opts w
           = (Ok (filterContainers opts listed), w'))
    /\ (forall key c,
          session opts = Some key -> key <> EmptyString ->
          (In c (filterContainers opts containers) <->
           In c containers /\ sessionKey (info_entry c) = key))
    /\ (forall id c,
          selector_count opts = 1%nat -> agent opts = Some id -> id <> EmptyString ->
          (In c (filterContainers opts containers) <->
           In c containers
           /\ (sessionKey (info_entry c) = "agent:" ++ id
               \/ starts_with ("agent:" ++ id ++ ":") (sessionKey (info_entry c)))))
    /\ (selector_count opts = 1%nat -> all opts = true ->
        filterContainers opts containers = containers).
Proof.
  intros opts containers. split; [|split; [|split]].
  - intros env w. destruct (listing_spec env w) as (listed & w' & Hl & _).
    exists listed, w'. split; [exact Hl|].
    unfold fetchAndFilterContainers. erewrite bind_ok by exact Hl. reflexivity.
  - intros key c Hs Hk. unfold filterContainers.
    assert (Ht : truthy (session opts) = true).
    { apply truthy_some. exists key. auto. }
    rewrite Ht, filter_In, Hs. cbn [strict_eq]. now rewrite String.eqb_eq.
  - intros id c Hone Ha Hid. unfold filterContainers.
    assert (Ht : truthy (agent opts) = true).
    { apply truthy_some. exists id. auto. }
    destruct (selector_count_one _ Hone) as [(_ & _ & H)|[(_ & _ & H)|(_ & Hs & _)]];
      try congruence.
    rewrite Hs, Ht, filter_In, Ha. cbn [template].
    rewrite orb_true_iff, String.eqb_eq, prefix_starts_with.
    rewrite (string_append_assoc "agent:" id ":"). reflexivity.
  - intros Hone Hall. unfold filterContainers.
    destruct (selector_count_one _ Hone) as [(_ & Hs & Ha)|[(H & _)|(H & _)]];
      try congruence.
    now rewrite Hs, Ha.
Qed.

(* ================================================================== *)
(** ** The recreate command: removal *)

(** One removal: the docker outcome is dropped; the removal fails exactly
    when the registry removal raises, and then nothing was removed from
    the registry. *)
Lemma count_removal_spec env counts c w :
  let name := containerName (info_entry c) in
  count_removal env counts c w =
  match envStoreFault env (trace w ++ [EvExecDocker (rm_args name)])%list with
  | Some err =>
      (Ok (mkResult (successCount counts) (S (failCount counts))),
       mkWorld (registry w) (trace w ++ removal_events (name, Some err))%list
               (lastPruneAtMs w))
  | None =>
      (Ok (mkResult (S (successCount counts)) (failCount counts)),
       mkWorld (filter (fun x => negb (containerName x =? name)%string) (registry w))
               (trace w ++ removal_events (name, None))%list
               (lastPruneAtMs w))
  end.
Proof.
  intros name. subst name.
  unfold count_removal, removeContainer, removeSandboxContainer, try_catch, bind,
    execDocker, removeRegistryEntry, runtime_log, runtime_error, effect, ret, emit,
    removal_events.
  cbn [trace registry lastPruneAtMs orb].
  destruct (envExec env (trace w) _); cbn [trace registry lastPruneAtMs];
    destruct (envStoreFault env _); cbn [trace registry lastPruneAtMs];
    rewrite <- !app_assoc; reflexivity.
Qed.

Lemma outcomes_partition outcomes :
  (List.length (succeeded outcomes) + List.length (failures outcomes)
   = List.length outcomes)%nat.
Proof.
  unfold succeeded, failures. rewrite !length_map.
  induction outcomes as [|o l IH]; cbn; [reflexivity|].
  destruct (has_failed o); cbn; lia.
Qed.

Lemma removal_events_silent outcomes :
  Forall silent (flat_map removal_events outcomes).
Proof.
  induction outcomes as [|[name [err|]] l IH]; cbn; repeat constructor; exact IH.
Qed.

Lemma exit_status_silent evs rest :
  Forall silent evs -> exit_status (evs ++ rest) = exit_status rest.
Proof.
  induction 1 as [|ev l Hev _ IH]; cbn; [reflexivity|].
  destruct ev; cbn in Hev; try contradiction; exact IH.
Qed.

Lemma result_in_silent evs rest s f :
  Forall silent evs ->
  In (EvRecreateResult s f) (evs ++ rest) -> In (EvRecreateResult s f) rest.
Proof.
  intros Hs Hin. apply in_app_or in Hin. destruct Hin as [Hin|Hin]; [|exact Hin].
  rewrite Forall_forall in Hs. apply Hs in Hin. contradiction.
Qed.

(* ================================================================== *)
(** ** The theorems at work on concrete hosts *)

(** The specification's scenario, with bystanders: at [now = 2h] and a one
    hour idle threshold, [c1] (idle for two hours) is pruned although
    docker is down, [c2] (just used) and [c3] (idle for exactly one hour)
    are kept. *)
Lemma prune_removes_every_eligible_entry_witness :
  store_reliable (env_docker_down (2 * hour))
  /\ pruneSandboxContainers (env_docker_down (2 * hour)) cfg_idle_1h
       (world_of [entry_c1; entry_c2; entry_c3])
     = (Ok tt,
        mkWorld [entry_c2; entry_c3]
                [EvNow (2 * hour); EvRegistryRead;
                 EvExecDocker (rm_args "c1"); EvRegistryRemove "c1"] 0)
  /\ (forall e, In e [entry_c2; entry_c3] ->
        shouldPruneSandboxEntry cfg_idle_1h (2 * hour) e = false).
Proof.
  split; [intros tr; reflexivity|]. split; [vm_compute; reflexivity|].
  exact (proj1 (proj2
    (proj2
       (prune_removes_every_eligible_entry
          (env_docker_down (2 * hour)) cfg_idle_1h
          (world_of [entry_c1; entry_c2; entry_c3])
          (Ok tt)
          (mkWorld [entry_c2; entry_c3]
                   [EvNow (2 * hour); EvRegistryRead;
                    EvExecDocker (rm_args "c1"); EvRegistryRemove "c1"] 0)
          eq_refl)
       (fun tr => eq_refl)))).
Defined.

Lemma prune_keeps_ineligible_entries_witness :
  NoDup (map containerName (registry (world_of [entry_c1; entry_c2; entry_c3])))
  /\ shouldPruneSandboxEntry cfg_idle_1h (2 * hour) entry_c3 = false
  /\ In entry_c3
        (registry (snd (pruneSandboxContainers (env_docker_down (2 * hour)) cfg_idle_1h
                          (world_of [entry_c1; entry_c2; entry_c3])))).
Proof.
  assert (Hnd : NoDup (map containerName
                         (registry (world_of [entry_c1; entry_c2; entry_c3])))).
  { cbn. repeat constructor; cbn; intuition discriminate. }
  split; [exact Hnd|]. split; [reflexivity|].
  refine (proj1 (proj2
    (prune_keeps_ineligible_entries
       (env_docker_down (2 * hour)) cfg_idle_1h
       (world_of [entry_c1; entry_c2; entry_c3])
       (fst (pruneSandboxContainers (env_docker_down (2 * hour)) cfg_idle_1h
               (world_of [entry_c1; entry_c2; entry_c3])))
       (snd (pruneSandboxContainers (env_docker_down (2 * hour)) cfg_idle_1h
               (world_of [entry_c1; entry_c2; entry_c3])))
       Hnd (surjective_pairing _))
    entry_c3 _ eq_refl)).
  cbn. tauto.
Defined.



(** A prune at [t = 2h] on a ticking clock, and a second trigger five
    effects (five seconds) later. *)
Lemma maybePruneSandboxes_rate_limit_witness :
  5 * 60 * 1000
  <= envNow (env_ticking (2 * hour)) (trace (world_of [entry_c1]))
     - lastPruneAtMs (world_of [entry_c1])
  /\ exists w2',
       maybePruneSandboxes (env_ticking (2 * hour)) cfg_idle_1h
         (snd (maybePruneSandboxes (env_ticking (2 * hour)) cfg_idle_1h
                 (world_of [entry_c1])))
       = (Ok tt, w2')
       /\ registry w2' = [].
Proof.
  assert (Hdue : 5 * 60 * 1000
                 <= envNow (env_ticking (2 * hour)) (trace (world_of [entry_c1]))
                    - lastPruneAtMs (world_of [entry_c1])).
  { vm_compute. discriminate. }
  split; [exact Hdue|].
  destruct (maybePruneSandboxes_rate_limit (env_ticking (2 * hour)) cfg_idle_1h
              (world_of [entry_c1]) _ _ Hdue (surjective_pairing _))
    as (_ & _ & _ & Hsecond).
  destruct (Hsecond (snd (maybePruneSandboxes (env_ticking (2 * hour)) cfg_idle_1h
                            (world_of [entry_c1]))) eq_refl)
    as (w2' & Hrun & Hreg & _).
  { vm_compute. reflexivity. }
  exists w2'. split; [exact Hrun|]. rewrite Hreg. vm_compute. reflexivity.
Defined.

Lemma listSandboxRegistryItems_follows_runtime_witness :
  listSandboxRegistryItems (env_all_missing 0) (readRegistry (env_all_missing 0))
    (fun _ => "sandbox:latest") (world_of [entry_c2])
  = (Ok [mkInfo entry_c2 false false],
     mkWorld [entry_c2] [EvRegistryRead; EvContainerState "c2"] 0)
  /\ Forall2 (fun e item => running item = false /\ image (info_entry item) = image e)
             [entry_c2] [mkInfo entry_c2 false false].
Proof.
  assert (Hrun : listSandboxRegistryItems (env_all_missing 0)
                   (readRegistry (env_all_missing 0))
                   (fun _ => "sandbox:latest") (world_of [entry_c2])
                 = (Ok [mkInfo entry_c2 false false],
                    mkWorld [entry_c2] [EvRegistryRead; EvContainerState "c2"] 0)).
  { vm_compute. reflexivity. }
  split; [exact Hrun|].
  eapply Forall2_impl;
    [|exact (listSandboxRegistryItems_follows_runtime _ _ _ _ _ Hrun)].
  intros e item (w0 & w1 & _ & _ & Hmissing).
  destruct (Hmissing eq_refl) as (Hr & Hi & _). split; assumption.
Defined.

(** Two selectors at once. *)
Lemma sandboxRecreateCommand_usage_error_witness :
  selector_count (mkOpts true (Some "agent:foo:bar") None true) <> 1%nat
  /\ exists message,
       sandboxRecreateCommand (env_healthy 0 "sandbox:latest")
         (mkOpts true (Some "agent:foo:bar") None true)
         (world_of [entry_c1; entry_c2])
       = (Ok tt,
          mkWorld [entry_c1; entry_c2] [EvError message; EvExit 1] 0).
Proof.
  assert (Hcount : selector_count (mkOpts true (Some "agent:foo:bar") None true)
                   <> 1%nat) by (vm_compute; discriminate).
  split; [exact Hcount|].
  destruct (sandboxRecreateCommand_usage_error (env_healthy 0 "sandbox:latest")
              (mkOpts true (Some "agent:foo:bar") None true)
              (world_of [entry_c1; entry_c2]) Hcount)
    as (message & _ & Hrun).
  exists message. exact Hrun.
Defined.

(** [--agent foo] selects ["agent:foo"] and ["agent:foo:bar"], never
    ["agent:foobar"]. *)
Lemma filterContainers_selects_witness :
  selector_count (mkOpts false None (Some "foo") false) = 1%nat
  /\ In (info_of entry_c2)
        (filterContainers (mkOpts false None (Some "foo") false)
           [info_of entry_c2; info_of entry_c3; info_of entry_c4])
  /\ In (info_of entry_c4)
        (filterContainers (mkOpts false None (Some "foo") false)
           [info_of entry_c2; info_of entry_c3; info_of entry_c4])
  /\ ~ In (info_of entry_c3)
          (filterContainers (mkOpts false None (Some "foo") false)
             [info_of entry_c2; info_of entry_c3; info_of entry_c4]).
Proof.
  assert (Hid : "foo" <> EmptyString) by discriminate.
  pose proof (fun c =>
    proj1 (proj2 (proj2
      (filterContainers_selects (mkOpts false None (Some "foo") false)
         [info_of entry_c2; info_of entry_c3; info_of entry_c4])))
      "foo" c eq_refl eq_refl Hid) as Hsel.
  split; [reflexivity|]. split; [|split].
  - apply Hsel. split; [cbn; tauto | left; reflexivity].
  - apply Hsel. split; [cbn; tauto|]. right. exists "bar". reflexivity.
  - intros Hin. apply Hsel in Hin. destruct Hin as [_ [Heq | [suffix Hp]]];
      discriminate.
Defined.

(* ================================================================== *)
(** ** Scenarios of the specification, computed *)

(** Section 8: one entry idle for two hours under a one hour threshold is
    removed from the runtime and from the registry. *)
Example prune_scenario :
  pruneSandboxContainers (env_healthy (2 * hour) "sandbox:latest") cfg_idle_1h
    (world_of [entry_c1])
  = (Ok tt,
     mkWorld [] [EvNow (2 * hour); EvRegistryRead;
                 EvExecDocker (rm_args "c1"); EvRegistryRemove "c1"] 0).
Proof. vm_compute. reflexivity. Qed.

(** Pruning disabled: the clock is read and nothing else happens. *)
Example prune_disabled_scenario :
  pruneSandboxContainers (env_healthy (2 * hour) "sandbox:latest")
    (mkConfig (mkPrune 0 0)) (world_of [entry_c1])
  = (Ok tt, mkWorld [entry_c1] [EvNow (2 * hour)] 0).
Proof. vm_compute. reflexivity. Qed.

(** Two triggers in a row: the second only reads the clock. *)
Example prune_twice_scenario :
  (maybePruneSandboxes (env_ticking (2 * hour)) cfg_idle_1h ;;;
   maybePruneSandboxes (env_ticking (2 * hour)) cfg_idle_1h) (world_of [entry_c1])
  = (Ok tt,
     mkWorld [] [EvNow (2 * hour); EvLastPruneAt (2 * hour);
                 EvNow (2 * hour + 2000); EvRegistryRead;
                 EvExecDocker (rm_args "c1"); EvRegistryRemove "c1";
                 EvNow (2 * hour + 6000)]
             (2 * hour)).
Proof. vm_compute. reflexivity. Qed.

(** Image match: the observed image is compared with the configured one;
    for a missing container the recorded image is. *)
Example image_match_scenario :
  fst (listSandboxContainers (env_all_missing 0) (world_of [entry_c1; entry_c2]))
  = Ok [mkInfo entry_c1 false true; mkInfo entry_c2 false false]
  /\ fst (listSandboxContainers (env_healthy 0 "sandbox:latest") (world_of [entry_c2]))
     = Ok [mkInfo (set_image entry_c2 "sandbox:latest") true true].
Proof. split; vm_compute; reflexivity. Qed.

(** A stopped container is started, a missing one is left alone. *)
Example ensure_running_scenario :
  snd (ensureDockerContainerIsRunning (env_all_missing 0) "c1" (world_of []))
  = mkWorld [] [EvContainerState "c1"] 0
  /\ snd (ensureDockerContainerIsRunning
            (mkEnv (fun _ => 0) (fun _ => None) (fun _ => Throw "no config")
                   (fun _ _ => Reported Stopped) (fun _ _ => Exited 0 EmptyString)
                   (fun _ => ConfirmNo) (fun _ => None) ascii_trim)
            "c1" (world_of []))
     = mkWorld [] [EvContainerState "c1"; EvExecDocker ["start"; "c1"]] 0.
Proof. split; vm_compute; reflexivity. Qed.

(** [--session "agent:foo:bar"] selects that session only. *)
Example session_filter_scenario :
  filterContainers (mkOpts false (Some "agent:foo:bar") None false)
    [info_of entry_c1; info_of entry_c2; info_of entry_c3; info_of entry_c4]
  = [info_of entry_c4].
Proof. vm_compute. reflexivity. Qed.

(** A declined confirmation removes nothing. *)
Example recreate_declined_scenario :
  sandboxRecreateCommand
    (mkEnv (fun _ => 0) (fun _ => None) (fun _ => Ok (fun _ => "sandbox:latest"))
           (fun _ _ => Reported Missing) (fun _ _ => Exited 1 EmptyString)
           (fun _ => ConfirmNo) (fun _ => None) ascii_trim)
    (mkOpts true None None false) (world_of [entry_c1])
  = (Ok tt,
     mkWorld [entry_c1]
             [EvLoadConfig; EvRegistryRead; EvContainerState "c1";
              EvPreview ["c1"]; EvConfirm; EvLog "Cancelled."] 0).
Proof. vm_compute. reflexivity. Qed.

(* ================================================================== *)
(** ** Further properties of the prune policy *)

(** X1. The policy is monotone in time: an entry that is eligible at
    [now] is eligible at every later time. *)
Theorem shouldPrune_monotone_in_time :
  forall cfg now later entry,
    now <= later ->
    shouldPruneSandboxEntry cfg now entry = true ->
    shouldPruneSandboxEntry cfg later entry = true.
Proof.
  intros cfg now later entry Hle H.
  apply shouldPrune_true_iff in H. apply shouldPrune_true_iff. lia.
Qed.

Lemma shouldPrune_monotone_in_time_witness :
  hour + 1 <= 2 * hour
  /\ shouldPruneSandboxEntry cfg_idle_1h (hour + 1) entry_c1 = true
  /\ shouldPruneSandboxEntry cfg_idle_1h (2 * hour) entry_c1 = true.
Proof.
  assert (Hle : hour + 1 <= 2 * hour) by (vm_compute; discriminate).
  split; [exact Hle|]. split; [reflexivity|].
  exact (shouldPrune_monotone_in_time cfg_idle_1h (hour + 1) (2 * hour) entry_c1
           Hle eq_refl).
Defined.

(** X2. An entry whose timestamps are not in the past is never pruned,
    whatever the thresholds: using an entry now protects it from the idle
    rule, creating it now from the age rule. *)
Theorem shouldPrune_fresh_entry_kept :
  forall cfg now entry,
    now <= lastUsedAtMs entry ->
    now <= createdAtMs entry ->
    shouldPruneSandboxEntry cfg now entry = false.
Proof.
  intros cfg now entry Hu Hc.
  destruct (shouldPruneSandboxEntry cfg now entry) eqn:E; [|reflexivity].
  apply shouldPrune_true_iff in E. lia.
Qed.

Lemma shouldPrune_fresh_entry_kept_witness :
  hour <= lastUsedAtMs entry_c3
  /\ hour <= createdAtMs entry_c3
  /\ shouldPruneSandboxEntry (mkConfig (mkPrune 1 1)) hour entry_c3 = false.
Proof.
  assert (Hu : hour <= lastUsedAtMs entry_c3) by (vm_compute; discriminate).
  assert (Hc : hour <= createdAtMs entry_c3) by (vm_compute; discriminate).
  split; [exact Hu|]. split; [exact Hc|].
  exact (shouldPrune_fresh_entry_kept (mkConfig (mkPrune 1 1)) hour entry_c3 Hu Hc).
Defined.

(** X3. A threshold that is zero or negative switches its rule off: with
    [idleHours <= 0] the decision does not depend on [lastUsedAtMs], with
    [maxAgeDays <= 0] it does not depend on [createdAtMs], and with both
    nothing is ever pruned. *)
Theorem shouldPrune_nonpositive_threshold :
  forall cfg now entry,
    (idleHours (prune cfg) <= 0 ->
     forall used,
       shouldPruneSandboxEntry cfg now
         (mkEntry (containerName entry) (image entry) (sessionKey entry)
                  (createdAtMs entry) used)
       = shouldPruneSandboxEntry cfg now entry)
    /\ (maxAgeDays (prune cfg) <= 0 ->
        forall created,
          shouldPruneSandboxEntry cfg now
            (mkEntry (containerName entry) (image entry) (sessionKey entry)
                     created (lastUsedAtMs entry))
          = shouldPruneSandboxEntry cfg now entry)
    /\ (idleHours (prune cfg) <= 0 -> maxAgeDays (prune cfg) <= 0 ->
        shouldPruneSandboxEntry cfg now entry = false).
Proof.
  intros cfg now entry. split; [|split].
  - intros Hi used. apply bool_eq_of_iff.
    rewrite !shouldPrune_true_iff. cbn [lastUsedAtMs createdAtMs]. lia.
  - intros Hm created. apply bool_eq_of_iff.
    rewrite !shouldPrune_true_iff. cbn [lastUsedAtMs createdAtMs]. lia.
  - intros Hi Hm.
    destruct (shouldPruneSandboxEntry cfg now entry) eqn:E; [|reflexivity].
    apply shouldPrune_true_iff in E. lia.
Qed.

Lemma shouldPrune_nonpositive_threshold_witness :
  idleHours (prune (mkConfig (mkPrune (-1) (-7)))) <= 0
  /\ maxAgeDays (prune (mkConfig (mkPrune (-1) (-7)))) <= 0
  /\ shouldPruneSandboxEntry (mkConfig (mkPrune (-1) (-7))) (1000 * hour) entry_c1
     = false.
Proof.
  assert (Hi : idleHours (prune (mkConfig (mkPrune (-1) (-7)))) <= 0)
    by (vm_compute; discriminate).
  assert (Hm : maxAgeDays (prune (mkConfig (mkPrune (-1) (-7)))) <= 0)
    by (vm_compute; discriminate).
  split; [exact Hi|]. split; [exact Hm|].
  exact (proj2 (proj2 (shouldPrune_nonpositive_threshold
                         (mkConfig (mkPrune (-1) (-7))) (1000 * hour) entry_c1))
           Hi Hm).
Defined.

(* ================================================================== *)
(** ** Further properties of the prune pass *)

Lemma eligible_names_cons cfg now e l :
  eligible_names cfg now (e :: l)
  = if shouldPruneSandboxEntry cfg now e
    then containerName e :: eligible_names cfg now l
    else eligible_names cfg now l.
Proof.
  unfold eligible_names. cbn.
  destruct (shouldPruneSandboxEntry cfg now e); reflexivity.
Qed.

(** The loop, exactly: either every eligible entry was worked through, or
    the registry removal of one of them raised and the loop stopped there,
    after the docker removal of that entry. *)
Lemma prune_loop_exact env cfg now :
  forall entries w r w',
    for_of entries
      (fun _ entry => prune_entry env cfg now (removeRegistryEntry env) None entry) tt w
    = (r, w') ->
    lastPruneAtMs w' = lastPruneAtMs w
    /\ ((r = Ok tt
         /\ trace w'
            = (trace w ++ flat_map attempt_events (eligible_names cfg now entries))%list
         /\ registry w' = drop_names (eligible_names cfg now entries) (registry w))
        \/ (exists err done failed rest,
              r = Throw err
              /\ eligible_names cfg now entries = (done ++ failed :: rest)%list
              /\ trace w'
                 = (trace w ++ flat_map attempt_events (done ++ [failed]))%list
              /\ registry w' = drop_names done (registry w)
              /\ envStoreFault env
                   (trace w ++ flat_map attempt_events done
                    ++ [EvExecDocker (rm_args failed)])%list
                 = Some err)).
Proof.
  induction entries as [|e l IH]; intros w r w' Hrun.
  - cbn in Hrun. injection Hrun as <- <-. split; [reflexivity|]. left.
    cbn. rewrite app_nil_r, drop_names_nil. auto.
  - cbn [for_of] in Hrun. unfold bind in Hrun at 1.
    rewrite eligible_names_cons.
    destruct (shouldPruneSandboxEntry cfg now e) eqn:He.
    + rewrite (prune_entry_eligible _ _ _ _ _ He) in Hrun.
      destruct (envStoreFault env _) as [err|] eqn:Hf.
      * injection Hrun as <- <-. split; [reflexivity|]. right.
        exists err, [], (containerName e), (eligible_names cfg now l).
        cbn [app flat_map registry trace]. rewrite app_nil_r, drop_names_nil.
        repeat split. exact Hf.
      * apply IH in Hrun. cbn [registry trace lastPruneAtMs] in Hrun.
        destruct Hrun as [Hl [(-> & Ht & Hr) | (err & done & failed & rest
                                               & -> & He' & Ht & Hr & Hf')]].
        -- split; [exact Hl|]. left. repeat split.
           ++ rewrite Ht. cbn [flat_map]. rewrite <- app_assoc. reflexivity.
           ++ rewrite Hr. apply drop_names_removed.
        -- split; [exact Hl|]. right.
           exists err, (containerName e :: done), failed, rest.
           repeat split.
           ++ rewrite He'. reflexivity.
           ++ rewrite Ht. cbn [flat_map app]. rewrite <- !app_assoc. reflexivity.
           ++ rewrite Hr. apply drop_names_removed.
           ++ rewrite <- Hf'. cbn [flat_map app]. rewrite <- !app_assoc. reflexivity.
    + rewrite (prune_entry_skip _ _ _ _ _ _ _ He) in Hrun.
      now apply IH in Hrun.
Qed.

(** The pass, exactly. *)
Lemma prune_pass_exact env cfg w r w' :
  pruneSandboxContainers env cfg w = (r, w') ->
  let now := envNow env (trace w) in
  lastPruneAtMs w' = lastPruneAtMs w
  /\ ((idleHours (prune cfg) = 0 /\ maxAgeDays (prune cfg) = 0
       /\ r = Ok tt /\ new_events w w' = [EvNow now] /\ registry w' = registry w)
      \/ (exists err, r = Throw err
            /\ envStoreFault env (trace w ++ [EvNow now])%list = Some err
            /\ new_events w w' = [EvNow now; EvRegistryRead]
            /\ registry w' = registry w)
      \/ (r = Ok tt
          /\ new_events w w'
             = EvNow now :: EvRegistryRead
               :: flat_map attempt_events (eligible_names cfg now (registry w))
          /\ registry w' = drop_names (eligible_names cfg now (registry w)) (registry w))
      \/ (exists err done failed rest,
            r = Throw err
            /\ eligible_names cfg now (registry w) = (done ++ failed :: rest)%list
            /\ new_events w w'
               = EvNow now :: EvRegistryRead
                 :: flat_map attempt_events (done ++ [failed])
            /\ registry w' = drop_names done (registry w)
            /\ envStoreFault env
                 (trace w ++ EvNow now :: EvRegistryRead
                  :: flat_map attempt_events done
                  ++ [EvExecDocker (rm_args failed)])%list
               = Some err)).
Proof.
  intros Hrun now. revert Hrun.
  unfold pruneSandboxContainers, pruneSandboxRegistryEntries.
  unfold bind at 1. unfold dateNow. fold now.
  destruct ((idleHours (prune cfg) =? 0) && (maxAgeDays (prune cfg) =? 0)) eqn:Hd.
  - intros Hrun. injection Hrun as <- <-.
    apply andb_true_iff in Hd. destruct Hd as [Hi Hm].
    apply Z.eqb_eq in Hi, Hm.
    split; [reflexivity|]. left. repeat split; try assumption.
    now apply new_events_app.
  - unfold bind at 1. unfold readRegistry.
    cbn [emit trace registry lastPruneAtMs].
    destruct (envStoreFault env _) as [err|] eqn:Hf.
    + intros Hrun. injection Hrun as <- <-.
      split; [reflexivity|]. right. left. exists err. repeat split; try assumption.
      apply new_events_app. cbn. now rewrite <- app_assoc.
    + intros Hrun. apply prune_loop_exact in Hrun.
      unfold emit in Hrun. cbn [registry trace lastPruneAtMs] in Hrun.
      destruct Hrun as [Hl [(-> & Ht & Hr) | (err & done & failed & rest
                                             & -> & He' & Ht & Hr & Hf')]].
      * split; [exact Hl|]. right. right. left. repeat split; try assumption.
        apply new_events_app. rewrite Ht, <- !app_assoc. reflexivity.
      * split; [exact Hl|]. right. right. right.
        exists err, done, failed, rest. repeat split; try assumption.
        -- apply new_events_app. rewrite Ht, <- !app_assoc. reflexivity.
        -- rewrite <- Hf', <- !app_assoc. reflexivity.
Qed.

(** X5. A prune pass that raises stops where it raised. Either the
    registry could not be read and nothing happened, or the registry
    removal of one eligible entry failed: the entries before it were
    removed, its own docker removal was issued but its registry entry is
    kept, and the eligible entries after it were not touched. *)
Theorem prune_pass_stops_at_failure :
  forall env cfg w err w',
    pruneSandboxContainers env cfg w = (Throw err, w') ->
    let now := envNow env (trace w) in
    (new_events w w' = [EvNow now; EvRegistryRead] /\ registry w' = registry w)
    \/ exists done failed rest,
         eligible_names cfg now (registry w) = (done ++ failed :: rest)%list
         /\ new_events w w'
            = EvNow now :: EvRegistryRead :: flat_map attempt_events (done ++ [failed])
         /\ registry w' = drop_names done (registry w).
Proof.
  intros env cfg w err w' Hrun now.
  destruct (prune_pass_exact _ _ _ _ _ Hrun)
    as [_ [(_ & _ & H & _) | [(e & _ & _ & Hev & Hr)
                             | [(H & _) | (e & done & failed & rest
                                           & _ & He & Hev & Hr & _)]]]];
    try discriminate.
  - left. split; assumption.
  - right. exists done, failed, rest. repeat split; assumption.
Qed.

Lemma prune_pass_stops_at_failure_witness :
  pruneSandboxContainers (env_first_removal_fails (2 * hour)) cfg_idle_1h
    (world_of [entry_c1; entry_c2; entry_c4])
  = (Throw "EBUSY",
     mkWorld [entry_c1; entry_c2; entry_c4]
             [EvNow (2 * hour); EvRegistryRead;
              EvExecDocker (rm_args "c1"); EvRegistryRemove "c1"] 0)
  /\ eligible_names cfg_idle_1h (2 * hour) [entry_c1; entry_c2; entry_c4]
     = ["c1"; "c4"].
Proof.
  assert (Hrun : pruneSandboxContainers (env_first_removal_fails (2 * hour))
                   cfg_idle_1h (world_of [entry_c1; entry_c2; entry_c4])
                 = (Throw "EBUSY",
                    mkWorld [entry_c1; entry_c2; entry_c4]
                            [EvNow (2 * hour); EvRegistryRead;
                             EvExecDocker (rm_args "c1"); EvRegistryRemove "c1"] 0))
    by (vm_compute; reflexivity).
  split; [exact Hrun|].
  destruct (prune_pass_stops_at_failure _ _ _ _ _ Hrun)
    as [[Hev _] | (done & failed & rest & He & _)].
  - vm_compute in Hev. discriminate.
  - vm_compute. reflexivity.
Defined.

Lemma incl_nil_eq {A} (l : list A) : incl l [] -> l = [].
Proof. destruct l as [|a l]; [reflexivity|]. intros H. destruct (H a). now left. Qed.

Lemma eligible_names_none cfg now entries :
  (forall e, In e entries -> shouldPruneSandboxEntry cfg now e = false) ->
  eligible_names cfg now entries = [].
Proof.
  induction entries as [|e l IH]; intros H; [reflexivity|].
  rewrite eligible_names_cons, (H e (or_introl eq_refl)).
  apply IH. intros x Hx. apply H. now right.
Qed.

Lemma no_eligible_after_drop cfg now entries :
  eligible_names cfg now (drop_names (eligible_names cfg now entries) entries) = [].
Proof.
  apply eligible_names_none. intros e Hin.
  apply in_drop_names in Hin. destruct Hin as [Hin Hnot].
  destruct (shouldPruneSandboxEntry cfg now e) eqn:E; [|reflexivity].
  exfalso. apply Hnot. apply in_eligible_names. exists e. auto.
Qed.

(** X6. With a working registry store, a second prune pass at the same
    clock reading finds nothing to do: it reads the clock and possibly the
    registry, removes nothing and leaves the registry as the first pass
    left it. *)
Theorem prune_pass_twice :
  forall env cfg w r w' r2 w2,
    store_reliable env ->
    pruneSandboxContainers env cfg w = (r, w') ->
    envNow env (trace w') = envNow env (trace w) ->
    pruneSandboxContainers env cfg w' = (r2, w2) ->
    r2 = Ok tt
    /\ registry w2 = registry w'
    /\ (new_events w' w2 = [EvNow (envNow env (trace w))]
        \/ new_events w' w2 = [EvNow (envNow env (trace w)); EvRegistryRead]).
Proof.
  intros env cfg w r w' r2 w2 Hrel Hrun Hnow Hrun2.
  assert (Hnone : eligible_names cfg (envNow env (trace w)) (registry w') = []).
  { destruct (prune_pass_exact _ _ _ _ _ Hrun)
      as [_ [(Hi & Hm & _ & _ & Hr) | [(e & _ & Hf & _)
                               | [(_ & _ & Hr) | (e & d & f & rs & _ & _ & _ & _ & Hf)]]]].
    - now apply eligible_names_disabled.
    - rewrite Hrel in Hf. discriminate.
    - rewrite Hr. apply no_eligible_after_drop.
    - rewrite Hrel in Hf. discriminate. }
  destruct (prune_pass_exact _ _ _ _ _ Hrun2)
    as [_ [(_ & _ & -> & Hev & Hr) | [(e & _ & Hf & _)
                             | [(-> & Hev & Hr) | (e & d & f & rs & _ & _ & _ & _ & Hf)]]]].
  - rewrite Hnow in Hev. auto.
  - rewrite Hrel in Hf. discriminate.
  - rewrite Hnow in Hev, Hr. rewrite Hnone in Hev, Hr.
    rewrite drop_names_nil in Hr. cbn in Hev. auto.
  - rewrite Hrel in Hf. discriminate.
Qed.

Lemma prune_pass_twice_witness :
  store_reliable (env_docker_down (2 * hour))
  /\ registry
       (snd (pruneSandboxContainers (env_docker_down (2 * hour)) cfg_idle_1h
               (snd (pruneSandboxContainers (env_docker_down (2 * hour)) cfg_idle_1h
                       (world_of [entry_c1; entry_c2; entry_c3])))))
     = [entry_c2; entry_c3].
Proof.
  assert (Hrel : store_reliable (env_docker_down (2 * hour)))
    by (intros tr; reflexivity).
  split; [exact Hrel|].
  destruct (prune_pass_twice (env_docker_down (2 * hour)) cfg_idle_1h
              (world_of [entry_c1; entry_c2; entry_c3]) _ _ _ _
              Hrel (surjective_pairing _) eq_refl (surjective_pairing _))
    as (_ & Hreg & _).
  rewrite Hreg. vm_compute. reflexivity.
Defined.

Lemma pass_events_no_error names pre :
  Forall (fun ev => ~ is_error_event ev) pre ->
  Forall (fun ev => ~ is_error_event ev) (pre ++ flat_map attempt_events names).
Proof.
  intros Hpre. apply Forall_app. split; [exact Hpre|].
  induction names as [|n l IH]; cbn; repeat constructor; auto.
Qed.

(** X4. The background trigger never raises, whatever the registry store
    and docker do. It can only remove entries from the registry, and the
    only error it reports is a failed prune pass, with the message of the
    registry failure that stopped the pass. *)
Theorem maybePruneSandboxes_never_raises :
  forall env cfg w,
  exists w',
    maybePruneSandboxes env cfg w = (Ok tt, w')
    /\ (exists removed, registry w' = drop_names removed (registry w))
    /\ (forall message,
          In (EvError message) (new_events w w') ->
          exists err tr,
            message = "Sandbox prune failed: " ++ err
            /\ envStoreFault env tr = Some err).
Proof.
  intros env cfg w.
  destruct (Z.lt_ge_cases (envNow env (trace w) - lastPruneAtMs w) (5 * 60 * 1000))
    as [Hsoon|Hdue].
  - exists (emit (EvNow (envNow env (trace w))) w).
    split; [now apply maybePrune_skip|]. split.
    + exists []. cbn. now rewrite drop_names_nil.
    + intros message Hin.
      rewrite (new_events_app _ _ [EvNow (envNow env (trace w))]) in Hin
        by reflexivity.
      destruct Hin as [H|[]]. discriminate.
  - rewrite (maybePrune_run _ _ _ Hdue).
    set (t := envNow env (trace w)).
    set (w1 := mkWorld (registry w) (trace w ++ [EvNow t; EvLastPruneAt t]) t).
    unfold try_catch.
    destruct (pruneSandboxContainers env cfg w1) as [r w2] eqn:Hrun.
    pose proof (prune_pass_exact _ _ _ _ _ Hrun) as [_ Hcases].
    cbn [trace registry] in Hcases.
    assert (Hev : forall evs, new_events w1 w2 = evs ->
                  trace w2 = (trace w ++ EvNow t :: EvLastPruneAt t :: evs)%list).
    { intros evs <-. unfold new_events.
      destruct (prune_pass_spec _ _ _ _ _ Hrun) as (pre & att & _ & _ & Ht & _).
      rewrite Ht, skipn_app, skipn_all, Nat.sub_diag. cbn [skipn app].
      subst w1. cbn [trace]. rewrite <- app_assoc. reflexivity. }
    destruct Hcases as [(_ & _ & -> & Hn & Hr) | [(e & -> & Hf & Hn & Hr)
                        | [(-> & Hn & Hr) | (e & d & f & rs & -> & _ & Hn & Hr & Hf)]]].
    + exists w2. split; [reflexivity|]. split.
      * exists []. rewrite drop_names_nil. exact Hr.
      * intros message Hin. rewrite (new_events_app _ _ _ (Hev _ Hn)) in Hin.
        cbn in Hin. destruct Hin as [H|[H|[H|[]]]]; discriminate.
    + eexists. split; [reflexivity|]. split.
      * exists []. cbn. rewrite drop_names_nil. exact Hr.
      * intros message Hin.
        rewrite (new_events_app _ _
                   (EvNow t :: EvLastPruneAt t
                    :: [EvNow (envNow env (trace w1)); EvRegistryRead]
                    ++ [EvError ("Sandbox prune failed: " ++ e)])) in Hin.
        2:{ cbn. rewrite (Hev _ Hn), <- app_assoc. reflexivity. }
        cbn in Hin. destruct Hin as [H|[H|[H|[H|[H|[]]]]]]; try discriminate.
        injection H as <-. exists e. eexists. split; [reflexivity | exact Hf].
    + exists w2. split; [reflexivity|]. split.
      * eexists. exact Hr.
      * intros message Hin. rewrite (new_events_app _ _ _ (Hev _ Hn)) in Hin.
        destruct Hin as [H|[H|[H|[H|Hin]]]]; try discriminate.
        pose proof (pass_events_no_error
                      (eligible_names cfg (envNow env (trace w1)) (registry w)) []
                      (Forall_nil _)) as Hno.
        rewrite Forall_forall in Hno. exfalso. exact (Hno _ Hin I).
    + eexists. split; [reflexivity|]. split.
      * exists d. exact Hr.
      * intros message Hin.
        rewrite (new_events_app _ _
                   ((EvNow t :: EvLastPruneAt t
                     :: EvNow (envNow env (trace w1)) :: EvRegistryRead
                     :: flat_map attempt_events (d ++ [f]))
                    ++ [EvError ("Sandbox prune failed: " ++ e)])) in Hin.
        2:{ cbn. rewrite (Hev _ Hn), <- !app_assoc. reflexivity. }
        apply in_app_or in Hin. destruct Hin as [Hin|[H|[]]].
        -- destruct Hin as [H|[H|[H|[H|Hin]]]]; try discriminate.
           pose proof (pass_events_no_error (d ++ [f]) [] (Forall_nil _)) as Hno.
           rewrite Forall_forall in Hno. exfalso. exact (Hno _ Hin I).
        -- injection H as <-. exists e. eexists. split; [reflexivity | exact Hf].
Qed.

(** X7. [onRemoved] is called once for every eligible entry, in registry
    order, right after the registry removal of that entry: with a working
    store and a callback that only leaves [observe entry] in the trace, the
    pass leaves, for each eligible entry in turn, its docker removal, its
    registry removal and then the callback's trace. *)
Theorem prune_onRemoved_order :
  forall env cfg observe w,
    store_reliable env ->
    (idleHours (prune cfg) =? 0) && (maxAgeDays (prune cfg) =? 0) = false ->
    let now := envNow env (trace w) in
    pruneSandboxRegistryEntries env cfg (readRegistry env) (removeRegistryEntry env)
      (Some (observing_callback observe)) w
    = (Ok tt,
       mkWorld (drop_names (eligible_names cfg now (registry w)) (registry w))
               (trace w ++ EvNow now :: EvRegistryRead
                :: flat_map (callback_events observe)
                     (filter (shouldPruneSandboxEntry cfg now) (registry w)))
               (lastPruneAtMs w)).
Proof.
  intros env cfg observe w Hrel Hen now.
  unfold pruneSandboxRegistryEntries.
  erewrite bind_ok by reflexivity. fold now. rewrite Hen.
  erewrite bind_ok.
  2:{ unfold readRegistry. rewrite Hrel. reflexivity. }
  cbn [registry emit trace lastPruneAtMs].
  assert (Hloop : forall entries w0,
    for_of entries
      (fun _ entry =>
         prune_entry env cfg now (removeRegistryEntry env)
           (Some (observing_callback observe)) entry) tt w0
    = (Ok tt,
       mkWorld (drop_names (eligible_names cfg now entries) (registry w0))
               (trace w0 ++ flat_map (callback_events observe)
                              (filter (shouldPruneSandboxEntry cfg now) entries))
               (lastPruneAtMs w0))).
  { induction entries as [|e l IH]; intros w0.
    - cbn. rewrite app_nil_r, drop_names_nil. destruct w0; reflexivity.
    - cbn [for_of filter]. rewrite eligible_names_cons.
      destruct (shouldPruneSandboxEntry cfg now e) eqn:He.
      + erewrite bind_ok.
        2:{ unfold prune_entry, try_catch_finally, try_catch, bind, execDocker,
              removeRegistryEntry, observing_callback, ret, emit.
            rewrite He. cbn [negb orb trace registry lastPruneAtMs].
            destruct (envExec env (trace w0) _); rewrite Hrel; reflexivity. }
        rewrite IH. cbn [registry trace lastPruneAtMs flat_map].
        rewrite drop_names_removed. unfold callback_events, attempt_events.
        rewrite <- !app_assoc. reflexivity.
      + erewrite bind_ok by (unfold prune_entry; rewrite He; reflexivity).
        apply IH. }
  rewrite Hloop. unfold emit. cbn [registry trace lastPruneAtMs].
  rewrite <- !app_assoc. reflexivity.
Qed.

Lemma prune_onRemoved_order_witness :
  store_reliable (env_healthy (2 * hour) "sandbox:latest")
  /\ pruneSandboxRegistryEntries (env_healthy (2 * hour) "sandbox:latest")
       cfg_idle_1h
       (readRegistry (env_healthy (2 * hour) "sandbox:latest"))
       (removeRegistryEntry (env_healthy (2 * hour) "sandbox:latest"))
       (Some (observing_callback (fun e => [EvLog (containerName e)])))
       (world_of [entry_c1; entry_c2; entry_c4])
     = (Ok tt,
        mkWorld [entry_c2]
                [EvNow (2 * hour); EvRegistryRead;
                 EvExecDocker (rm_args "c1"); EvRegistryRemove "c1"; EvLog "c1";
                 EvExecDocker (rm_args "c4"); EvRegistryRemove "c4"; EvLog "c4"]
                0).
Proof.
  assert (Hrel : store_reliable (env_healthy (2 * hour) "sandbox:latest"))
    by (intros tr; reflexivity).
  split; [exact Hrel|].
  exact (prune_onRemoved_order (env_healthy (2 * hour) "sandbox:latest")
           cfg_idle_1h (fun e => [EvLog (containerName e)])
           (world_of [entry_c1; entry_c2; entry_c4]) Hrel eq_refl).
Defined.

(* ================================================================== *)
(** ** Further properties of the runtime operations *)

(** X8. [ensureDockerContainerIsRunning] starts a container exactly when
    the runtime reports it as existing and stopped. A running or missing
    container, or one whose state cannot be queried, is left alone and the
    call returns; for a stopped one the call returns iff [docker start]
    exits with code 0. The registry is never touched. *)
Theorem ensureDockerContainerIsRunning_starts_stopped :
  forall env name w r w',
    ensureDockerContainerIsRunning env name w = (r, w') ->
    let report := envContainerState env (trace w) name in
    registry w' = registry w
    /\ (report = Reported Stopped ->
        new_events w w' = [EvContainerState name; EvExecDocker (start_args name)]
        /\ (r = Ok tt <->
            exists out,
              envExec env (trace w ++ [EvContainerState name])%list (start_args name)
              = Exited 0 out))
    /\ (report <> Reported Stopped ->
        new_events w w' = [EvContainerState name] /\ r = Ok tt).
Proof.
  intros env name w r w'.
  unfold ensureDockerContainerIsRunning, bind, dockerContainerState, execDocker,
    ret, emit, start_args.
  cbn [trace registry lastPruneAtMs].
  destruct (envContainerState env (trace w) name) as [[| |]|];
    cbn [state_exists state_running andb negb trace registry lastPruneAtMs orb].
  2: destruct (envExec env _ _) as [c out|msg];
       [destruct (Z.eqb_spec c 0) as [->|Hc]|].
  all: intros Hrun; injection Hrun as <- <-; cbn [registry]; split; [reflexivity|].
  all: split; intros Hq; try congruence; try (exfalso; apply Hq; reflexivity).
  all: try (split; [now apply new_events_app | reflexivity]).
  all: split; [apply new_events_app; cbn; now rewrite <- app_assoc|].
  - split; [eauto | reflexivity].
  - split; [discriminate|]. intros (o & [= H _]). contradiction.
  - split; [discriminate|]. intros (o & H). discriminate.
Qed.

Lemma ensureDockerContainerIsRunning_starts_stopped_witness :
  ensureDockerContainerIsRunning (env_stopped 0) "c1" (world_of [entry_c1])
  = (Ok tt,
     mkWorld [entry_c1] [EvContainerState "c1"; EvExecDocker (start_args "c1")] 0)
  /\ new_events (world_of [entry_c1])
       (mkWorld [entry_c1]
                [EvContainerState "c1"; EvExecDocker (start_args "c1")] 0)
     = [EvContainerState "c1"; EvExecDocker (start_args "c1")].
Proof.
  assert (Hrun : ensureDockerContainerIsRunning (env_stopped 0) "c1"
                   (world_of [entry_c1])
                 = (Ok tt,
                    mkWorld [entry_c1]
                            [EvContainerState "c1"; EvExecDocker (start_args "c1")] 0))
    by (vm_compute; reflexivity).
  split; [exact Hrun|].
  exact (proj1 (proj1 (proj2
    (ensureDockerContainerIsRunning_starts_stopped _ _ _ _ _ Hrun)) eq_refl)).
Defined.

Lemma filter_keep_all {A} (p : A -> bool) (l : list A) :
  (forall x, In x l -> p x = true) -> filter p l = l.
Proof.
  induction l as [|a l IH]; cbn; [reflexivity|]. intros H.
  rewrite (H a (or_introl eq_refl)). f_equal. apply IH. auto.
Qed.

(** X9. [removeSandboxContainer] issues the docker removal and then the
    registry removal, whatever docker answers. It raises exactly when the
    registry removal raises, and then the registry is unchanged; otherwise
    no entry of that name remains, every other entry is kept in place, and
    removing a name the registry does not hold changes nothing. *)
Theorem removeSandboxContainer_effect :
  forall env name w r w',
    removeSandboxContainer env name w = (r, w') ->
    let fault := envStoreFault env (trace w ++ [EvExecDocker (rm_args name)])%list in
    new_events w w' = [EvExecDocker (rm_args name); EvRegistryRemove name]
    /\ (r = Ok tt <-> fault = None)
    /\ (fault <> None -> registry w' = registry w)
    /\ (fault = None ->
        registry w'
        = filter (fun e => negb (containerName e =? name)%string) (registry w)
        /\ (forall e, In e (registry w') <->
                      In e (registry w) /\ containerName e <> name)
        /\ ((forall e, In e (registry w) -> containerName e <> name) ->
            registry w' = registry w)).
Proof.
  intros env name w r w'.
  unfold removeSandboxContainer, try_catch, bind, execDocker, removeRegistryEntry,
    ret, emit.
  cbn [trace registry lastPruneAtMs orb].
  destruct (envExec env (trace w) (rm_args name)); cbn [trace registry lastPruneAtMs];
    destruct (envStoreFault env _) as [err|]; cbn [trace registry lastPruneAtMs];
    intros Hrun; injection Hrun as <- <-; cbn [registry].
  all: split; [apply new_events_app; cbn; now rewrite <- app_assoc|].
  all: split; [split; congruence|].
  all: split; [intros H; congruence|].
  all: intros H; try discriminate.
  all: split; [reflexivity|]; split.
  all: try (intros e; rewrite filter_In, negb_true_iff, String.eqb_neq; reflexivity).
  all: intros Hno; apply filter_keep_all; intros x Hx;
    apply negb_true_iff, String.eqb_neq; auto.
Qed.

Lemma removeSandboxContainer_effect_witness :
  removeSandboxContainer (env_docker_down 0) "c2"
    (world_of [entry_c1; entry_c2; entry_c3])
  = (Ok tt,
     mkWorld [entry_c1; entry_c3]
             [EvExecDocker (rm_args "c2"); EvRegistryRemove "c2"] 0)
  /\ (Ok tt = Ok tt <->
      envStoreFault (env_docker_down 0)
        (trace (world_of [entry_c1; entry_c2; entry_c3])
         ++ [EvExecDocker (rm_args "c2")])%list = None).
Proof.
  assert (Hrun : removeSandboxContainer (env_docker_down 0) "c2"
                   (world_of [entry_c1; entry_c2; entry_c3])
                 = (Ok tt,
                    mkWorld [entry_c1; entry_c3]
                            [EvExecDocker (rm_args "c2"); EvRegistryRemove "c2"] 0))
    by (vm_compute; reflexivity).
  split; [exact Hrun|].
  exact (proj1 (proj2 (removeSandboxContainer_effect _ _ _ _ _ Hrun))).
Defined.

(* ================================================================== *)
(** ** Further properties of the listing *)

(** One entry: what the body leaves in the trace, and where the image of
    the item comes from when the container exists. *)
Lemma reconcile_entry_events env configured e w :
  let name := containerName e in
  exists item w',
    reconcile_entry env configured e w = (Ok item, w')
    /\ registry w' = registry w
    /\ lastPruneAtMs w' = lastPruneAtMs w
    /\ (trace w' = (trace w ++ [EvContainerState name])%list
        \/ trace w'
           = (trace w ++ [EvContainerState name; EvExecDocker (inspect_args name)])%list)
    /\ (forall out,
          (envContainerState env (trace w) name = Reported Running
           \/ envContainerState env (trace w) name = Reported Stopped) ->
          envExec env (trace w ++ [EvContainerState name])%list (inspect_args name)
          = Exited 0 out ->
          image (info_entry item) = jsTrim env out).
Proof.
  intros name. subst name.
  unfold reconcile_entry, reconcile_entry_with, bind, dockerContainerState, try_catch,
    execDocker, ret, emit.
  cbn [trace registry lastPruneAtMs].
  destruct (envContainerState env (trace w) (containerName e)) as [[| |]|];
    cbn [state_exists state_running trace registry lastPruneAtMs orb].
  1, 2: destruct (envExec env _ (inspect_args (containerName e))) as [c out|msg];
    cbn [code stdout]; [destruct (Z.eqb_spec c 0)|].
  all: eexists; eexists; split; [reflexivity|];
    cbn [trace registry lastPruneAtMs info_entry running imageMatch];
    rewrite <- ?app_assoc; cbn [app].
  all: split; [reflexivity|]; split; [reflexivity|].
  all: split; [auto|].
  all: intros out' Hq Hx; try (destruct Hq; discriminate); try discriminate.
  all: try (injection Hx as -> ->); try contradiction; try reflexivity.
Qed.

Lemma list_loop_events env configured :
  forall entries results w,
  exists items w' evs,
    for_of entries
      (fun results entry =>
         item <- reconcile_entry env configured entry ;;
         ret (results ++ [item])%list) results w
    = (Ok items, w')
    /\ registry w' = registry w
    /\ lastPruneAtMs w' = lastPruneAtMs w
    /\ trace w' = (trace w ++ evs)%list
    /\ Forall listing_event evs
    /\ (List.length evs <= 2 * List.length entries)%nat.
Proof.
  induction entries as [|e l IH]; intros results w.
  - exists results, w, []. cbn. rewrite app_nil_r. repeat split; auto.
  - destruct (reconcile_entry_events env configured e w)
      as (item & w1 & Hrun & Hreg & Hlast & Ht & _).
    destruct (IH (results ++ [item])%list w1)
      as (items & w' & evs & Hloop & Hreg' & Hlast' & Ht' & Hall & Hlen).
    cbn [for_of]. erewrite bind_ok.
    2:{ erewrite bind_ok by exact Hrun. reflexivity. }
    rewrite Hloop.
    destruct Ht as [Ht|Ht].
    + exists items, w', (EvContainerState (containerName e) :: evs).
      repeat split; try congruence.
      * rewrite Ht', Ht, <- app_assoc. reflexivity.
      * constructor; [exact I | exact Hall].
      * cbn [List.length]. lia.
    + exists items, w',
        (EvContainerState (containerName e)
         :: EvExecDocker (inspect_args (containerName e)) :: evs).
      repeat split; try congruence.
      * rewrite Ht', Ht, <- app_assoc. reflexivity.
      * constructor; [exact I|]. constructor; [|exact Hall].
        exists (containerName e). reflexivity.
      * cbn [List.length]. lia.
Qed.

(** X10. Listing is read-only. [listSandboxContainers] never changes the
    registry or the prune timestamp; it loads the configuration, reads the
    registry, queries container states and inspects images, and does nothing
    else (no removal, no start), with at most two runtime calls per entry. *)
Theorem listSandboxContainers_read_only :
  forall env w r w',
    listSandboxContainers env w = (r, w') ->
    registry w' = registry w
    /\ lastPruneAtMs w' = lastPruneAtMs w
    /\ Forall listing_event (new_events w w')
    /\ (List.length (new_events w w') <= 2 + 2 * List.length (registry w))%nat.
Proof.
  intros env w r w'.
  unfold listSandboxContainers. unfold bind at 1. unfold loadConfig.
  destruct (envLoadConfig env (trace w)) as [config|err].
  - unfold listSandboxRegistryItems, listSandboxRegistryItems_with.
    unfold bind at 1. unfold readRegistry.
    destruct (envStoreFault env (trace (emit EvLoadConfig w))) as [err|].
    + intros Hrun. injection Hrun as <- <-. cbn [emit registry lastPruneAtMs].
      repeat split.
      * rewrite (new_events_app _ _ [EvLoadConfig; EvRegistryRead]).
        -- repeat constructor.
        -- cbn. now rewrite <- app_assoc.
      * rewrite (new_events_app _ _ [EvLoadConfig; EvRegistryRead]).
        -- cbn. lia.
        -- cbn. now rewrite <- app_assoc.
    + destruct (list_loop_events env (fun agentId => config agentId)
                  (registry (emit EvLoadConfig w)) []
                  (emit EvRegistryRead (emit EvLoadConfig w)))
        as (items & w2 & evs & Hloop & Hreg & Hlast & Ht & Hall & Hlen).
      unfold reconcile_entry in Hloop. rewrite Hloop. intros Hrun. injection Hrun as <- <-.
      unfold emit in *. cbn [registry trace lastPruneAtMs] in *.
      assert (Hev : new_events w w2 = EvLoadConfig :: EvRegistryRead :: evs).
      { apply new_events_app. rewrite Ht, <- !app_assoc. reflexivity. }
      rewrite Hev. repeat split; try assumption.
      * repeat constructor. exact Hall.
      * cbn [List.length]. lia.
  - intros Hrun. injection Hrun as <- <-. cbn [emit registry lastPruneAtMs].
    rewrite (new_events_app _ _ [EvLoadConfig]) by reflexivity.
    repeat split; [repeat constructor | cbn; lia].
Qed.

Lemma listSandboxContainers_read_only_witness :
  listSandboxContainers (env_healthy 0 "sandbox:latest") (world_of [entry_c1])
  = (Ok [mkInfo entry_c1 true true],
     mkWorld [entry_c1]
             [EvLoadConfig; EvRegistryRead; EvContainerState "c1";
              EvExecDocker (inspect_args "c1")] 0)
  /\ registry
       (mkWorld [entry_c1]
                [EvLoadConfig; EvRegistryRead; EvContainerState "c1";
                 EvExecDocker (inspect_args "c1")] 0)
     = registry (world_of [entry_c1]).
Proof.
  assert (Hrun : listSandboxContainers (env_healthy 0 "sandbox:latest")
                   (world_of [entry_c1])
                 = (Ok [mkInfo entry_c1 true true],
                    mkWorld [entry_c1]
                            [EvLoadConfig; EvRegistryRead; EvContainerState "c1";
                             EvExecDocker (inspect_args "c1")] 0))
    by (vm_compute; reflexivity).
  split; [exact Hrun|].
  exact (proj1 (listSandboxContainers_read_only _ _ _ _ Hrun)).
Defined.

(** X11. Every listed item is its registry entry with at most the image
    replaced: name, session key and timestamps are the recorded ones. When
    the container exists and its inspection exits with code 0, the image is
    the trimmed output of the inspection. [imageMatch] is true exactly when
    the item's image is the image configured for the agent resolved from
    the entry's session key. *)
Theorem listSandboxRegistryItems_image_match :
  forall env configured w items w',
    listSandboxRegistryItems env (readRegistry env) configured w = (Ok items, w') ->
    Forall2
      (fun e item =>
         set_image (info_entry item) (image e) = e
         /\ (imageMatch item = true <->
             image (info_entry item)
             = configured (resolveSandboxAgentId env (sessionKey e)))
         /\ exists w0 w1,
              entry_turn env configured w w' e item w0 w1
              /\ forall out,
                   (envContainerState env (trace w0) (containerName e)
                    = Reported Running
                    \/ envContainerState env (trace w0) (containerName e)
                       = Reported Stopped) ->
                   envExec env (trace w0 ++ [EvContainerState (containerName e)])%list
                     (inspect_args (containerName e))
                   = Exited 0 out ->
                   image (info_entry item) = jsTrim env out)
      (registry w) items.
Proof.
  intros env configured w items w' Hrun.
  pose proof (list_items_spec env configured w) as H.
  destruct (envStoreFault env (trace w)) as [err|]; [congruence|].
  destruct H as (items' & w'' & Hrun' & _ & _ & _ & Hall).
  rewrite Hrun in Hrun'. injection Hrun' as <- <-.
  eapply Forall2_impl; [|exact Hall].
  intros e item (w0 & w1 & Hturn).
  pose proof Hturn as (Hbody & _).
  destruct (reconcile_entry_spec env configured e w0)
    as (item1 & w1' & Hbody1 & _ & _ & _ & Hfields & _ & _ & _ & Hmatch).
  rewrite Hbody in Hbody1. injection Hbody1 as <- <-.
  destruct (reconcile_entry_events env configured e w0)
    as (item2 & w2' & Hbody2 & _ & _ & _ & Himage).
  rewrite Hbody in Hbody2. injection Hbody2 as <- <-.
  split; [exact Hfields|]. split.
  - rewrite Hmatch. apply String.eqb_eq.
  - exists w0, w1. split; [exact Hturn | exact Himage].
Qed.

Lemma listSandboxRegistryItems_image_match_witness :
  listSandboxRegistryItems (env_healthy 0 "sandbox:latest")
    (readRegistry (env_healthy 0 "sandbox:latest"))
    (fun _ => "sandbox:latest") (world_of [entry_c2])
  = (Ok [mkInfo (set_image entry_c2 "sandbox:latest") true true],
     mkWorld [entry_c2]
             [EvRegistryRead; EvContainerState "c2";
              EvExecDocker (inspect_args "c2")] 0)
  /\ Forall2 (fun e item => set_image (info_entry item) (image e) = e)
             [entry_c2] [mkInfo (set_image entry_c2 "sandbox:latest") true true].
Proof.
  assert (Hrun : listSandboxRegistryItems (env_healthy 0 "sandbox:latest")
                   (readRegistry (env_healthy 0 "sandbox:latest"))
                   (fun _ => "sandbox:latest") (world_of [entry_c2])
                 = (Ok [mkInfo (set_image entry_c2 "sandbox:latest") true true],
                    mkWorld [entry_c2]
                            [EvRegistryRead; EvContainerState "c2";
                             EvExecDocker (inspect_args "c2")] 0))
    by (vm_compute; reflexivity).
  split; [exact Hrun|].
  eapply Forall2_impl;
    [|exact (listSandboxRegistryItems_image_match _ _ _ _ _ Hrun)].
  intros e item (Hfields & _). exact Hfields.
Defined.

(* ================================================================== *)
(** ** Further properties of the commands *)

Lemma listing_not_removing ev : listing_event ev -> ~ removing_event ev.
Proof.
  destruct ev; cbn; try tauto.
  intros [n ->] [n' H]. discriminate.
Qed.

Lemma listing_is_silent ev : listing_event ev -> silent ev.
Proof. destruct ev; cbn; tauto. Qed.

Lemma list_items_unfold env configured w :
  envStoreFault env (trace w) = None ->
  listSandboxRegistryItems env (readRegistry env) configured w
  = for_of (registry w)
      (fun results entry =>
         item <- reconcile_entry env configured entry ;;
         ret (results ++ [item])%list) [] (emit EvRegistryRead w).
Proof.
  intros Hf. unfold listSandboxRegistryItems, listSandboxRegistryItems_with.
  erewrite bind_ok; [reflexivity|]. unfold readRegistry. now rewrite Hf.
Qed.

(** The listing behind both commands: it cannot raise past the [catch],
    gives nothing when configuration or registry cannot be read, and
    otherwise one item per entry with the recorded fields. *)
Lemma guarded_listing_spec env w :
  exists listed w1 evs,
    try_catch (listSandboxContainers env) (fun _ => ret []) w = (Ok listed, w1)
    /\ registry w1 = registry w
    /\ lastPruneAtMs w1 = lastPruneAtMs w
    /\ trace w1 = (trace w ++ evs)%list
    /\ Forall listing_event evs
    /\ (~ listing_works env w -> listed = [])
    /\ (listing_works env w ->
        Forall2 (fun e item => set_image (info_entry item) (image e) = e)
                (registry w) listed).
Proof.
  unfold try_catch, listSandboxContainers, listing_works.
  unfold bind at 1. unfold loadConfig.
  destruct (envLoadConfig env (trace w)) as [config|err].
  - set (w0 := emit EvLoadConfig w).
    change (trace w ++ [EvLoadConfig])%list with (trace w0).
    pose proof (list_items_spec env (fun agentId => config agentId) w0) as H.
    destruct (envStoreFault env (trace w0)) as [err|] eqn:Hf.
    + rewrite H. exists [], (emit EvRegistryRead w0), [EvLoadConfig; EvRegistryRead].
      cbn. rewrite <- app_assoc.
      repeat split; try (repeat constructor; fail).
      intros (_ & H'). discriminate.
    + destruct H as (items & w' & Hrun & Hreg & Hlast & _ & Hall).
      rewrite Hrun.
      rewrite (list_items_unfold _ _ _ Hf) in Hrun.
      destruct (list_loop_events env (fun agentId => config agentId) (registry w0) []
                  (emit EvRegistryRead w0))
        as (items2 & w2 & evs & Hloop & _ & _ & Ht & Hev & _).
      rewrite Hrun in Hloop. injection Hloop as <- <-.
      exists items, w', (EvLoadConfig :: EvRegistryRead :: evs).
      repeat split; try assumption.
      * rewrite Ht. cbn [trace emit w0]. rewrite <- !app_assoc. reflexivity.
      * repeat constructor. exact Hev.
      * intros Hno. exfalso. apply Hno. split; eauto.
      * intros _. eapply Forall2_impl; [|exact Hall].
        intros e item (w3 & w4 & Hbody & _).
        destruct (reconcile_entry_spec env (fun agentId => config agentId) e w3)
          as (item1 & w1' & Hbody1 & _ & _ & _ & Hfields & _).
        rewrite Hbody in Hbody1. injection Hbody1 as <- <-. exact Hfields.
  - exists [], (emit EvLoadConfig w), [EvLoadConfig].
    repeat split; try (repeat constructor; fail).
    intros ((c & H') & _). discriminate.
Qed.

(** X12. The list command never raises and never changes the registry.
    It prints the listing once as JSON, or as a table followed by a
    summary; when the configuration or the registry cannot be read it
    prints an empty listing instead of failing. *)
Theorem sandboxListCommand_best_effort :
  forall env p json w,
  exists listed w1,
    try_catch (listSandboxContainers env) (fun _ => ret []) w = (Ok listed, w1)
    /\ (~ listing_works env w -> listed = [])
    /\ sandboxListCommand env p json w
       = (Ok tt,
          mkWorld (registry w)
                  (trace w1
                   ++ (if json then [EvLog (renderJson p listed)]
                       else [EvLog (renderTable p listed);
                             EvLog (renderSummary p listed)]))
                  (lastPruneAtMs w)).
Proof.
  intros env p json w.
  destruct (guarded_listing_spec env w)
    as (listed & w1 & evs & Hl & Hreg & Hlast & _ & _ & Hfail & _).
  exists listed, w1. split; [exact Hl|]. split; [exact Hfail|].
  unfold sandboxListCommand. erewrite bind_ok by exact Hl.
  destruct json; unfold displayContainers, displaySummary, runtime_log, effect, bind,
    emit; cbn [trace registry lastPruneAtMs]; rewrite Hreg, Hlast, <- ?app_assoc;
    reflexivity.
Qed.

(** The command with valid options, step by step. *)
Lemma recreate_exact env opts w :
  selector_count opts = 1%nat ->
  exists listed w1 evs,
    try_catch (listSandboxContainers env) (fun _ => ret []) w = (Ok listed, w1)
    /\ registry w1 = registry w
    /\ lastPruneAtMs w1 = lastPruneAtMs w
    /\ trace w1 = (trace w ++ evs)%list
    /\ Forall listing_event evs
    /\ (~ listing_works env w -> listed = [])
    /\ (listing_works env w ->
        Forall2 (fun e item => set_image (info_entry item) (image e) = e)
                (registry w) listed)
    /\ sandboxRecreateCommand env opts w
       = match filterContainers opts listed with
         | [] => (Ok tt, emit (EvLog nothing_found) w1)
         | c :: cs =>
             let w2 := emit (EvPreview (map info_name (c :: cs))) w1 in
             if force opts then recreate_finish env (c :: cs) w2
             else
               if confirms (envConfirm env (trace w2))
               then recreate_finish env (c :: cs) (emit EvConfirm w2)
               else (Ok tt, emit (EvLog "Cancelled.") (emit EvConfirm w2))
         end.
Proof.
  intros Hone.
  destruct (guarded_listing_spec env w)
    as (listed & w1 & evs & Hl & Hreg & Hlast & Ht & Hev & Hfail & Hok).
  exists listed, w1, evs. repeat split; try assumption.
  unfold sandboxRecreateCommand.
  pose proof (validate_spec opts w) as Hv. rewrite Hone in Hv.
  erewrite bind_ok by exact Hv. cbn [negb].
  erewrite bind_ok.
  2:{ unfold fetchAndFilterContainers. erewrite bind_ok by exact Hl. reflexivity. }
  destruct (filterContainers opts listed) as [|c cs]; [reflexivity|].
  cbn [List.length Nat.eqb]. erewrite bind_ok by reflexivity.
  cbv zeta. fold (info_name).
  destruct (force opts); cbn [negb].
  - erewrite bind_ok by reflexivity. reflexivity.
  - unfold confirmRecreate at 1. unfold bind at 1. unfold bind at 1.
    cbv zeta. destruct (confirms (envConfirm env _)); unfold ret at 1; cbn [negb];
      reflexivity.
Qed.

Lemma exit_status_listing evs rest :
  Forall listing_event evs -> exit_status (evs ++ rest) = exit_status rest.
Proof.
  intros H. apply exit_status_silent.
  eapply Forall_impl; [|exact H]. exact listing_is_silent.
Qed.

Lemma not_removing_listing evs :
  Forall listing_event evs -> Forall (fun ev => ~ removing_event ev) evs.
Proof. apply Forall_impl. exact listing_not_removing. Qed.

(* ================================================================== *)
(** ** The recreate command: removal *)

Lemma removal_outcomes_names env :
  forall names tr, map fst (removal_outcomes env tr names) = names.
Proof.
  induction names as [|n l IH]; intros tr; cbn; [reflexivity|].
  now rewrite IH.
Qed.

(** The loop: every container gets its removal, in order, whatever
    happened to the earlier ones; a removal fails exactly when its registry
    removal raises. *)
Lemma removal_loop_exact env :
  forall containers counts w,
    let outcomes := removal_outcomes env (trace w) (map info_name containers) in
    for_of containers (count_removal env) counts w
    = (Ok (mkResult (successCount counts + List.length (succeeded outcomes))%nat
                    (failCount counts + List.length (failures outcomes))%nat),
       mkWorld (drop_names (succeeded outcomes) (registry w))
               (trace w ++ flat_map removal_events outcomes)
               (lastPruneAtMs w)).
Proof.
  induction containers as [|c l IH]; intros counts w.
  - cbn. rewrite app_nil_r, drop_names_nil, !Nat.add_0_r.
    destruct counts, w; reflexivity.
  - cbn [for_of]. pose proof (count_removal_spec env counts c w) as Hstep.
    cbn zeta in Hstep. cbn zeta. cbn [map removal_outcomes].
    fold (info_name c) in Hstep.
    destruct (envStoreFault env (trace w ++ [EvExecDocker (rm_args (info_name c))]))
      as [err|].
    + erewrite bind_ok by exact Hstep. rewrite IH.
      cbn [registry trace lastPruneAtMs successCount failCount].
      unfold succeeded, failures.
      cbn [filter has_failed snd negb map fst flat_map List.length].
      rewrite <- app_assoc, Nat.add_succ_r. reflexivity.
    + erewrite bind_ok by exact Hstep. rewrite IH.
      cbn [registry trace lastPruneAtMs successCount failCount].
      unfold succeeded, failures.
      cbn [filter has_failed snd negb map fst flat_map List.length].
      rewrite drop_names_removed, <- app_assoc, Nat.add_succ_r. reflexivity.
Qed.

Lemma removeContainers_exact env containers w :
  let outcomes :=
    removal_outcomes env (trace w ++ [EvLog removing_banner])
      (map info_name containers) in
  removeContainers env containers w
  = (Ok (mkResult (List.length (succeeded outcomes))
                  (List.length (failures outcomes))),
     mkWorld (drop_names (succeeded outcomes) (registry w))
             (trace w ++ EvLog removing_banner :: flat_map removal_events outcomes)
             (lastPruneAtMs w)).
Proof.
  cbv zeta. unfold removeContainers.
  erewrite bind_ok by reflexivity.
  rewrite (removal_loop_exact env containers (mkResult 0 0)
             (emit (EvLog removing_banner) w)).
  unfold emit. cbn [trace registry lastPruneAtMs successCount failCount Nat.add].
  rewrite <- app_assoc. reflexivity.
Qed.

Lemma recreate_finish_exact env containers w :
  let outcomes :=
    removal_outcomes env (trace w ++ [EvLog removing_banner])
      (map info_name containers) in
  let f := List.length (failures outcomes) in
  recreate_finish env containers w
  = (Ok tt,
     mkWorld (drop_names (succeeded outcomes) (registry w))
             (trace w
              ++ EvLog removing_banner :: flat_map removal_events outcomes
              ++ EvRecreateResult (List.length (succeeded outcomes)) f
                 :: (if (0 <? f)%nat then [EvExit 1] else []))
             (lastPruneAtMs w)).
Proof.
  cbv zeta. unfold recreate_finish.
  erewrite bind_ok by apply removeContainers_exact.
  unfold displayRecreateResult, runtime_exit, effect, bind, emit, ret.
  cbn [successCount failCount registry trace lastPruneAtMs].
  destruct (0 <? _)%nat; cbn [registry trace lastPruneAtMs];
    repeat (rewrite <- app_assoc; cbn [app]); reflexivity.
Qed.

Lemma failures_reliable env :
  store_reliable env ->
  forall names tr, failures (removal_outcomes env tr names) = [].
Proof.
  intros Hrel. induction names as [|n l IH]; intros tr; [reflexivity|].
  cbn [removal_outcomes]. rewrite Hrel. unfold failures in *.
  cbn [filter has_failed snd]. apply IH.
Qed.

Lemma exit_status_result evs s f :
  Forall silent evs ->
  exit_status (evs ++ EvRecreateResult s f :: (if (0 <? f)%nat then [EvExit 1] else []))
  = (if (0 <? f)%nat then 1 else 0).
Proof.
  intros Hs. rewrite (exit_status_silent _ _ Hs).
  destruct (0 <? f)%nat; reflexivity.
Qed.

(** A run of the command with valid options: silent events, then either
    nothing, or the reported result followed by [exit(1)] exactly when a
    removal failed. *)
Lemma recreate_tail_spec env opts w :
  selector_count opts = 1%nat ->
  exists evs tail w',
    sandboxRecreateCommand env opts w = (Ok tt, w')
    /\ new_events w w' = (evs ++ tail)%list
    /\ Forall silent evs
    /\ (tail = []
        \/ exists s f,
             tail = EvRecreateResult s f
                    :: (if (0 <? f)%nat then [EvExit 1] else [])).
Proof.
  intros Hone.
  destruct (recreate_exact env opts w Hone)
    as (listed & w1 & evs & _ & _ & _ & Ht & Hev & _ & _ & Hrun).
  rewrite Hrun.
  assert (Hsil : Forall silent evs).
  { eapply Forall_impl; [|exact Hev]. exact listing_is_silent. }
  destruct (filterContainers opts listed) as [|c cs].
  - exists (evs ++ [EvLog nothing_found])%list, []; eexists.
    split; [reflexivity|]. split; [|split; [|now left]].
    + apply new_events_app. cbn. rewrite Ht, app_nil_r, <- app_assoc. reflexivity.
    + apply Forall_app. split; [exact Hsil | repeat constructor].
  - cbv zeta.
    assert (Hfin : forall pre w2,
              trace w2 = (trace w ++ evs ++ pre)%list -> Forall silent pre ->
              exists evs' tail w',
                recreate_finish env (c :: cs) w2 = (Ok tt, w')
                /\ new_events w w' = (evs' ++ tail)%list
                /\ Forall silent evs'
                /\ (tail = []
                    \/ exists s f,
                         tail = EvRecreateResult s f
                                :: (if (0 <? f)%nat then [EvExit 1] else []))).
    { intros pre w2 Ht2 Hpre. rewrite recreate_finish_exact.
      set (os := removal_outcomes env _ _).
      exists (evs ++ pre ++ EvLog removing_banner :: flat_map removal_events os)%list.
      eexists. eexists. split; [reflexivity|]. split; [|split].
      - apply new_events_app. cbn [trace]. rewrite Ht2.
        repeat (rewrite <- app_assoc; cbn [app]). reflexivity.
      - apply Forall_app. split; [exact Hsil|].
        apply Forall_app. split; [exact Hpre|].
        constructor; [exact I | apply removal_events_silent].
      - right. eexists. eexists. reflexivity. }
    destruct (force opts).
    + apply (Hfin [EvPreview (map info_name (c :: cs))]).
      * cbn. rewrite Ht, <- app_assoc. reflexivity.
      * repeat constructor.
    + destruct (confirms _).
      * apply (Hfin [EvPreview (map info_name (c :: cs)); EvConfirm]).
        -- cbn. rewrite Ht, <- !app_assoc. reflexivity.
        -- repeat constructor.
      * exists (evs ++ [EvPreview (map info_name (c :: cs)); EvConfirm;
                        EvLog "Cancelled."])%list, []; eexists.
        split; [reflexivity|]. split; [|split; [|now left]].
        -- apply new_events_app. cbn. rewrite Ht, app_nil_r, <- !app_assoc.
           reflexivity.
        -- apply Forall_app. split; [exact Hsil | repeat constructor].
Qed.

(** C8. Recreate removal is a best-effort batch. [removeContainers] never
    raises and gives every selected container its removal, in order,
    whatever happened to the earlier ones. A removal counts as failed
    exactly when the registry removal of [removeSandboxContainer] raises;
    what docker answers to the removal is ignored, so with a working
    registry store every removal counts as a success. [successCount] and
    [failCount] count these outcomes and sum to the number selected; the
    registry ends without the entries whose removal succeeded, so a later
    failure undoes nothing. The end of the command (lines 69-74) reports
    exactly these counts and exits with status 1 exactly when [failCount]
    is positive; a run of the command with valid options either stops
    before removing (nothing selected, or the prompt did not confirm) or
    ends in this way on the selected containers. *)
Theorem removeContainers_best_effort :
  forall env containers w,
    let outcomes :=
      removal_outcomes env (trace w ++ [EvLog removing_banner])
        (map info_name containers) in
    let s := List.length (succeeded outcomes) in
    let f := List.length (failures outcomes) in
    let kept := drop_names (succeeded outcomes) (registry w) in
    removeContainers env containers w
    = (Ok (mkResult s f),
       mkWorld kept
               (trace w ++ EvLog removing_banner :: flat_map removal_events outcomes)
               (lastPruneAtMs w))
    /\ map fst outcomes = map info_name containers
    /\ (s + f = List.length containers)%nat
    /\ (forall name e, In name (succeeded outcomes) -> In e kept ->
        containerName e <> name)
    /\ (store_reliable env -> s = List.length containers /\ f = 0%nat)
    /\ (exists w',
          recreate_finish env containers w = (Ok tt, w')
          /\ registry w' = kept
          /\ new_events w w'
             = EvLog removing_banner :: flat_map removal_events outcomes
               ++ EvRecreateResult s f :: (if (0 <? f)%nat then [EvExit 1] else [])
          /\ (exit_status (new_events w w') <> 0 <-> (0 < f)%nat))
    /\ (forall opts,
          selector_count opts = 1%nat ->
          exists listed w1,
            try_catch (listSandboxContainers env) (fun _ => ret []) w = (Ok listed, w1)
            /\ exit_status (new_events w w1) = 0
            /\ sandboxRecreateCommand env opts w
               = match filterContainers opts listed with
                 | [] => (Ok tt, emit (EvLog nothing_found) w1)
                 | c :: cs =>
                     let w2 := emit (EvPreview (map info_name (c :: cs))) w1 in
                     if force opts then recreate_finish env (c :: cs) w2
                     else if confirms (envConfirm env (trace w2))
                          then recreate_finish env (c :: cs) (emit EvConfirm w2)
                          else (Ok tt, emit (EvLog "Cancelled.") (emit EvConfirm w2))
                 end
            /\ forall r w',
                 sandboxRecreateCommand env opts w = (r, w') ->
                 r = Ok tt
                 /\ (exit_status (new_events w w') <> 0 <->
                     exists s' f',
                       In (EvRecreateResult s' f') (new_events w w') /\ (0 < f')%nat)).
Proof.
  intros env containers w outcomes s f kept.
  assert (Hnames : map fst outcomes = map info_name containers)
    by apply removal_outcomes_names.
  assert (Hsum : (s + f = List.length containers)%nat).
  { subst s f. rewrite outcomes_partition.
    rewrite <- (length_map fst outcomes), Hnames. apply length_map. }
  split; [apply removeContainers_exact|]. split; [exact Hnames|].
  split; [exact Hsum|]. split; [|split; [|split]].
  - intros name e Hin He Heq. apply in_drop_names in He.
    destruct He as [_ He]. apply He. now rewrite Heq.
  - intros Hrel. assert (Hf : f = 0%nat).
    { subst f outcomes. now rewrite (failures_reliable env Hrel). }
    split; [lia | exact Hf].
  - eexists. split; [apply recreate_finish_exact|]. fold outcomes f s kept.
    cbn [registry trace]. split; [reflexivity|].
    assert (Hev : new_events w
                    (mkWorld kept
                       (trace w
                        ++ EvLog removing_banner :: flat_map removal_events outcomes
                        ++ EvRecreateResult s f
                           :: (if (0 <? f)%nat then [EvExit 1] else []))
                       (lastPruneAtMs w))
                  = EvLog removing_banner :: flat_map removal_events outcomes
                    ++ EvRecreateResult s f
                       :: (if (0 <? f)%nat then [EvExit 1] else []))
      by (now apply new_events_app).
    rewrite Hev. split; [reflexivity|].
    assert (Hexit := exit_status_result
                       (EvLog removing_banner :: flat_map removal_events outcomes)
                       s f).
    cbn [app] in Hexit. rewrite Hexit.
    2:{ constructor; [exact I | apply removal_events_silent]. }
    destruct (Nat.ltb_spec 0 f); split; intros; try lia; congruence.
  - intros opts Hone.
    destruct (recreate_exact env opts w Hone)
      as (listed & w1 & evs & Hl & _ & _ & Ht & Hev & _ & _ & Hrun).
    exists listed, w1. split; [exact Hl|]. split; [|split; [exact Hrun|]].
    { rewrite (new_events_app _ _ evs Ht), <- (app_nil_r evs).
      now rewrite exit_status_listing. }
    intros r w' Hcmd.
    destruct (recreate_tail_spec env opts w Hone)
      as (evs' & tail & w'' & Hrun' & Hev' & Hsil & Htail).
    rewrite Hcmd in Hrun'. injection Hrun' as -> <-.
    split; [reflexivity|]. rewrite Hev', (exit_status_silent _ _ Hsil).
    destruct Htail as [-> | (s' & f' & ->)].
    + cbn. split; [congruence|]. intros (s' & f' & Hin & _).
      apply (result_in_silent _ _ _ _ Hsil) in Hin. contradiction.
    + cbn [exit_status]. destruct (Nat.ltb_spec 0 f') as [Hf|Hf]; cbn [exit_status].
      * split; [|discriminate]. intros _. exists s', f'. split; [|exact Hf].
        apply in_or_app. right. now left.
      * split; [congruence|]. intros (s2 & f2 & Hin & Hpos).
        apply (result_in_silent _ _ _ _ Hsil) in Hin.
        destruct Hin as [[= <- <-]|[]]. lia.
Qed.

(** Three containers, the registry removal of the second fails: all three
    are attempted, two succeed, one fails, and the command exits with
    status 1. *)
Lemma removeContainers_best_effort_witness :
  selector_count (mkOpts true None None true) = 1%nat
  /\ new_events (world_of [entry_c1; entry_c2; entry_c3])
       (snd (sandboxRecreateCommand (env_second_removal_fails 0)
               (mkOpts true None None true)
               (world_of [entry_c1; entry_c2; entry_c3])))
     = [EvLoadConfig; EvRegistryRead;
        EvContainerState "c1"; EvExecDocker (inspect_args "c1");
        EvContainerState "c2"; EvExecDocker (inspect_args "c2");
        EvContainerState "c3"; EvExecDocker (inspect_args "c3");
        EvPreview ["c1"; "c2"; "c3"];
        EvLog removing_banner;
        EvExecDocker (rm_args "c1"); EvRegistryRemove "c1"; EvLog "✓ Removed c1";
        EvExecDocker (rm_args "c2"); EvRegistryRemove "c2";
        EvError "✗ Failed to remove c2: EBUSY";
        EvExecDocker (rm_args "c3"); EvRegistryRemove "c3"; EvLog "✓ Removed c3";
        EvRecreateResult 2 1;
        EvExit 1]
  /\ registry (snd (sandboxRecreateCommand (env_second_removal_fails 0)
                      (mkOpts true None None true)
                      (world_of [entry_c1; entry_c2; entry_c3])))
     = [entry_c2].
Proof.
  split; [reflexivity|].
  destruct (proj2 (proj2 (proj2 (proj2 (proj2 (proj2
              (removeContainers_best_effort (env_second_removal_fails 0) []
                 (world_of [entry_c1; entry_c2; entry_c3])))))))
              (mkOpts true None None true) eq_refl)
    as (listed & w1 & Hl & _ & Hrun & _).
  rewrite Hrun. vm_compute in Hl. injection Hl as <- <-.
  split; vm_compute; reflexivity.
Defined.

(** The scenario of the specification: [recreate --all --force] on three
    containers where the runtime removal of the second fails. All three
    are attempted, the failure of docker is ignored, and the command
    reports three successes and exits with status 0. *)
Lemma removeContainers_runtime_failure_ignored :
  envExec (env_second_docker_removal_fails 0) [] (rm_args "c2")
  = SpawnError "docker rm timed out"
  /\ new_events (world_of [entry_c1; entry_c2; entry_c3])
       (snd (sandboxRecreateCommand (env_second_docker_removal_fails 0)
               (mkOpts true None None true)
               (world_of [entry_c1; entry_c2; entry_c3])))
     = [EvLoadConfig; EvRegistryRead;
        EvContainerState "c1"; EvExecDocker (inspect_args "c1");
        EvContainerState "c2"; EvExecDocker (inspect_args "c2");
        EvContainerState "c3"; EvExecDocker (inspect_args "c3");
        EvPreview ["c1"; "c2"; "c3"];
        EvLog removing_banner;
        EvExecDocker (rm_args "c1"); EvRegistryRemove "c1"; EvLog "✓ Removed c1";
        EvExecDocker (rm_args "c2"); EvRegistryRemove "c2"; EvLog "✓ Removed c2";
        EvExecDocker (rm_args "c3"); EvRegistryRemove "c3"; EvLog "✓ Removed c3";
        EvRecreateResult 3 0]
  /\ exit_status
       (new_events (world_of [entry_c1; entry_c2; entry_c3])
          (snd (sandboxRecreateCommand (env_second_docker_removal_fails 0)
                  (mkOpts true None None true)
                  (world_of [entry_c1; entry_c2; entry_c3])))) = 0.
Proof. repeat split; vm_compute; reflexivity. Qed.

(** X13. Without [--force], a prompt that is declined (it resolves to
    [false]) or that resolves to the registered symbol
    [Symbol.for("clack:cancel")] stops the recreate command before anything
    is removed: the registry is unchanged, no removal is issued to docker
    or to the registry, and the exit status is 0. *)
Theorem sandboxRecreateCommand_declined :
  forall env opts w,
    selector_count opts = 1%nat ->
    force opts = false ->
    (forall tr, declines (envConfirm env tr)) ->
    exists w',
      sandboxRecreateCommand env opts w = (Ok tt, w')
      /\ registry w' = registry w
      /\ Forall (fun ev => ~ removing_event ev) (new_events w w')
      /\ exit_status (new_events w w') = 0.
Proof.
  intros env opts w Hone Hforce Hno.
  destruct (recreate_exact env opts w Hone)
    as (listed & w1 & evs & _ & Hreg & _ & Ht & Hev & _ & _ & Hrun).
  rewrite Hrun, Hforce.
  destruct (filterContainers opts listed) as [|c cs].
  - eexists. split; [reflexivity|]. split; [exact Hreg|].
    rewrite (new_events_app _ _ (evs ++ [EvLog nothing_found])).
    2:{ cbn. rewrite Ht, <- app_assoc. reflexivity. }
    split.
    + apply Forall_app. split; [now apply not_removing_listing|].
      repeat constructor. cbn. tauto.
    + now rewrite exit_status_listing.
  - cbv zeta.
    assert (Hc : confirms (envConfirm env
                   (trace (emit (EvPreview (map info_name (c :: cs))) w1))) = false).
    { destruct (Hno (trace (emit (EvPreview (map info_name (c :: cs))) w1)))
        as [-> | ->]; reflexivity. }
    rewrite Hc. eexists. split; [reflexivity|]. split; [exact Hreg|].
    rewrite (new_events_app _ _
               (evs ++ [EvPreview (map info_name (c :: cs)); EvConfirm;
                        EvLog "Cancelled."])).
    2:{ cbn. rewrite Ht, <- !app_assoc. reflexivity. }
    split.
    + apply Forall_app. split; [now apply not_removing_listing|].
      repeat constructor; cbn; tauto.
    + now rewrite exit_status_listing.
Qed.

Lemma sandboxRecreateCommand_declined_witness :
  selector_count (mkOpts true None None false) = 1%nat
  /\ (forall tr, declines (envConfirm (env_declining 0) tr))
  /\ exists w',
       sandboxRecreateCommand (env_declining 0) (mkOpts true None None false)
         (world_of [entry_c1; entry_c2])
       = (Ok tt, w')
       /\ registry w' = [entry_c1; entry_c2].
Proof.
  assert (Hno : forall tr, declines (envConfirm (env_declining 0) tr))
    by (intros tr; left; reflexivity).
  split; [reflexivity|]. split; [exact Hno|].
  destruct (sandboxRecreateCommand_declined (env_declining 0)
              (mkOpts true None None false) (world_of [entry_c1; entry_c2])
              eq_refl eq_refl Hno)
    as (w' & Hrun & Hreg & _).
  exists w'. split; [exact Hrun | exact Hreg].
Defined.

Lemma confirmRecreate_other_symbol env w :
  other_symbol (envConfirm env (trace w)) ->
  confirmRecreate env w = confirmRecreate (confirming env) w.
Proof.
  intros (s & Hs & Hne). unfold confirmRecreate. cbn [envConfirm confirming].
  rewrite Hs. destruct s as [k|d]; [|reflexivity].
  cbn [confirms is_not_false is_not_symbol_for andb].
  destruct (String.eqb_spec k "clack:cancel") as [->|_]; [|reflexivity].
  now contradiction Hne.
Qed.

(** X26. The cancel value of the prompt library is not recognised. A
    prompt that resolves to a symbol other than the registered
    [Symbol.for("clack:cancel")], as the library's own cancel value is,
    counts as a confirmation: the command does exactly what it does when
    the operator confirms, removals included. *)
Theorem sandboxRecreateCommand_cancel_not_recognised :
  forall env opts w,
    (forall tr, other_symbol (envConfirm env tr)) ->
    sandboxRecreateCommand env opts w
    = sandboxRecreateCommand (confirming env) opts w.
Proof.
  intros env opts w Hsym. unfold sandboxRecreateCommand, bind.
  destruct (validateRecreateOptions opts w) as [[valid|e] w0]; [|reflexivity].
  destruct valid; cbn [negb]; [|reflexivity].
  change (fetchAndFilterContainers (confirming env) opts w0)
    with (fetchAndFilterContainers env opts w0).
  destruct (fetchAndFilterContainers env opts w0) as [[cs|e] w1]; [|reflexivity].
  destruct (List.length cs =? 0)%nat; [reflexivity|].
  destruct (displayRecreatePreview cs w1) as [[[]|e] w2]; [|reflexivity].
  destruct (force opts); cbn [negb]; [reflexivity|].
  rewrite (confirmRecreate_other_symbol env w2 (Hsym _)).
  reflexivity.
Qed.

(** The operator cancels the prompt of [recreate --all]; the container is
    removed all the same. *)
Lemma sandboxRecreateCommand_cancel_not_recognised_witness :
  (forall tr, other_symbol (envConfirm (env_cancelling 0) tr))
  /\ sandboxRecreateCommand (env_cancelling 0) (mkOpts true None None false)
       (world_of [entry_c1])
     = (Ok tt,
        mkWorld []
                [EvLoadConfig; EvRegistryRead;
                 EvContainerState "c1"; EvExecDocker (inspect_args "c1");
                 EvPreview ["c1"]; EvConfirm;
                 EvLog removing_banner;
                 EvExecDocker (rm_args "c1"); EvRegistryRemove "c1";
                 EvLog "✓ Removed c1";
                 EvRecreateResult 1 0] 0).
Proof.
  assert (Hsym : forall tr, other_symbol (envConfirm (env_cancelling 0) tr)).
  { intros tr. exists (FreshSymbol "clack:cancel"). split; [reflexivity | discriminate]. }
  split; [exact Hsym|].
  rewrite (sandboxRecreateCommand_cancel_not_recognised (env_cancelling 0)
             (mkOpts true None None false) (world_of [entry_c1]) Hsym).
  vm_compute. reflexivity.
Defined.

(** X14. When the configuration cannot be loaded or the registry cannot
    be read, the recreate command with valid options does not report the
    failure: it says that no containers match, asks nothing, removes
    nothing and exits with status 0, also under [--all --force]. *)
Theorem sandboxRecreateCommand_listing_failure :
  forall env opts w,
    selector_count opts = 1%nat ->
    ~ listing_works env w ->
    exists evs,
      Forall listing_event evs
      /\ sandboxRecreateCommand env opts w
         = (Ok tt,
            mkWorld (registry w) (trace w ++ evs ++ [EvLog nothing_found])
                    (lastPruneAtMs w))
      /\ exit_status (evs ++ [EvLog nothing_found]) = 0.
Proof.
  intros env opts w Hone Hfail.
  destruct (recreate_exact env opts w Hone)
    as (listed & w1 & evs & _ & Hreg & Hlast & Ht & Hev & Hnil & _ & Hrun).
  rewrite (Hnil Hfail) in Hrun.
  assert (Hsel : filterContainers opts [] = []).
  { unfold filterContainers.
    destruct (truthy (session opts)), (truthy (agent opts)); reflexivity. }
  rewrite Hsel in Hrun.
  exists evs. split; [exact Hev|]. split.
  - rewrite Hrun. unfold emit. rewrite Hreg, Hlast, Ht, <- app_assoc. reflexivity.
  - now rewrite exit_status_listing.
Qed.

Lemma sandboxRecreateCommand_listing_failure_witness :
  selector_count (mkOpts true None None true) = 1%nat
  /\ ~ listing_works (env_no_config 0) (world_of [entry_c1])
  /\ sandboxRecreateCommand (env_no_config 0) (mkOpts true None None true)
       (world_of [entry_c1])
     = (Ok tt, mkWorld [entry_c1] [EvLoadConfig; EvLog nothing_found] 0).
Proof.
  assert (Hfail : ~ listing_works (env_no_config 0) (world_of [entry_c1])).
  { intros ((c & H) & _). discriminate. }
  split; [reflexivity|]. split; [exact Hfail|].
  destruct (sandboxRecreateCommand_listing_failure (env_no_config 0)
              (mkOpts true None None true) (world_of [entry_c1]) eq_refl Hfail)
    as (evs & _ & _ & _).
  vm_compute. reflexivity.
Defined.

(** With a working store every removal succeeds. *)
Lemma removal_loop_reliable env :
  store_reliable env ->
  forall containers counts w,
    for_of containers (count_removal env) counts w
    = (Ok (mkResult (successCount counts + List.length containers)%nat
                    (failCount counts)),
       mkWorld (drop_names (map info_name containers) (registry w))
               (trace w
                ++ flat_map removal_events
                     (map (fun c => (info_name c, None)) containers))
               (lastPruneAtMs w)).
Proof.
  intros Hrel. induction containers as [|c l IH]; intros counts w.
  - cbn. rewrite app_nil_r, drop_names_nil, Nat.add_0_r.
    destruct counts, w; reflexivity.
  - cbn [for_of]. pose proof (count_removal_spec env counts c w) as Hstep.
    cbn zeta in Hstep. rewrite Hrel in Hstep.
    erewrite bind_ok by exact Hstep. rewrite IH.
    cbn [successCount failCount registry trace lastPruneAtMs map flat_map List.length].
    unfold info_name at 3. rewrite drop_names_removed.
    rewrite <- app_assoc, Nat.add_succ_r. reflexivity.
Qed.

Lemma recreate_finish_reliable env cs w :
  store_reliable env ->
  recreate_finish env cs w
  = (Ok tt,
     mkWorld (drop_names (map info_name cs) (registry w))
             (trace w
              ++ EvLog removing_banner
                 :: flat_map removal_events (map (fun c => (info_name c, None)) cs)
              ++ [EvRecreateResult (List.length cs) 0])
             (lastPruneAtMs w)).
Proof.
  intros Hrel. unfold recreate_finish, removeContainers.
  erewrite bind_ok.
  2:{ erewrite bind_ok by reflexivity. apply (removal_loop_reliable env Hrel). }
  unfold displayRecreateResult, effect, bind, emit, ret.
  cbn [successCount failCount registry trace lastPruneAtMs Nat.ltb Nat.leb Nat.add].
  rewrite <- !app_assoc. reflexivity.
Qed.

Lemma removal_events_silent_all (cs : list SandboxContainerInfo) :
  Forall silent
    (flat_map removal_events (map (fun c => (info_name c, @None string)) cs)).
Proof. apply removal_events_silent. Qed.

(** A run that proceeds on a host where configuration and store work. *)
Lemma recreate_reliable_spec env opts w :
  selector_count opts = 1%nat ->
  store_reliable env ->
  listing_works env w ->
  proceeds env opts ->
  exists listed w',
    Forall2 (fun e item => set_image (info_entry item) (image e) = e)
            (registry w) listed
    /\ sandboxRecreateCommand env opts w = (Ok tt, w')
    /\ registry w'
       = drop_names (map info_name (filterContainers opts listed)) (registry w)
    /\ exit_status (new_events w w') = 0
    /\ (filterContainers opts listed <> [] ->
        In (EvRecreateResult (List.length (filterContainers opts listed)) 0)
           (new_events w w')).
Proof.
  intros Hone Hrel Hworks Hgo.
  destruct (recreate_exact env opts w Hone)
    as (listed & w1 & evs & _ & Hreg & Hlast & Ht & Hev & _ & Hfields & Hrun).
  exists listed. rewrite Hrun.
  destruct (filterContainers opts listed) as [|c cs].
  - eexists. split; [now apply Hfields|]. split; [reflexivity|].
    cbn [map]. rewrite drop_names_nil. split; [exact Hreg|]. split; [|congruence].
    rewrite (new_events_app _ _ (evs ++ [EvLog nothing_found])).
    2:{ cbn. rewrite Ht, <- app_assoc. reflexivity. }
    now rewrite exit_status_listing.
  - cbv zeta.
    assert (Hfin : forall pre w2,
              trace w2 = (trace w ++ evs ++ pre)%list -> Forall silent pre ->
              registry w2 = registry w ->
              exists w',
                recreate_finish env (c :: cs) w2 = (Ok tt, w')
                /\ registry w' = drop_names (map info_name (c :: cs)) (registry w)
                /\ exit_status (new_events w w') = 0
                /\ (c :: cs <> [] ->
                    In (EvRecreateResult (List.length (c :: cs)) 0)
                       (new_events w w'))).
    { intros pre w2 Ht2 Hpre Hreg2.
      rewrite (recreate_finish_reliable _ _ _ Hrel).
      eexists. split; [reflexivity|]. cbn [registry]. rewrite Hreg2.
      split; [reflexivity|].
      rewrite (new_events_app _ _
                 (evs ++ (pre ++ EvLog removing_banner
                          :: flat_map removal_events
                               (map (fun c => (info_name c, None)) (c :: cs)))
                  ++ [EvRecreateResult (List.length (c :: cs)) 0])).
      2:{ cbn [trace]. rewrite Ht2, <- !app_assoc. reflexivity. }
      split.
      - rewrite exit_status_listing by exact Hev.
        rewrite exit_status_silent; [reflexivity|].
        apply Forall_app. split; [exact Hpre|]. constructor; [exact I|].
        apply removal_events_silent_all.
      - intros _. apply in_or_app. right. apply in_or_app. right. now left. }
    destruct Hgo as [Hforce | Hyes].
    + rewrite Hforce.
      destruct (Hfin [EvPreview (map info_name (c :: cs))]
                  (emit (EvPreview (map info_name (c :: cs))) w1))
        as (w' & Hr & Hrest); [cbn; now rewrite Ht, <- app_assoc
                              | repeat constructor | exact Hreg |].
      exists w'. split; [now apply Hfields|]. split; [exact Hr | exact Hrest].
    + destruct (force opts).
      * destruct (Hfin [EvPreview (map info_name (c :: cs))]
                    (emit (EvPreview (map info_name (c :: cs))) w1))
          as (w' & Hr & Hrest); [cbn; now rewrite Ht, <- app_assoc
                                | repeat constructor | exact Hreg |].
        exists w'. split; [now apply Hfields|]. split; [exact Hr | exact Hrest].
      * rewrite Hyes.
        destruct (Hfin [EvPreview (map info_name (c :: cs)); EvConfirm]
                    (emit EvConfirm (emit (EvPreview (map info_name (c :: cs))) w1)))
          as (w' & Hr & Hrest); [cbn; now rewrite Ht, <- !app_assoc
                                | repeat constructor | exact Hreg |].
        exists w'. split; [now apply Hfields|]. split; [exact Hr | exact Hrest].
Qed.

Lemma listed_names entries listed :
  Forall2 (fun e item => set_image (info_entry item) (image e) = e) entries listed ->
  map info_name listed = map containerName entries.
Proof.
  induction 1 as [|e item l l' H _ IH]; cbn; [reflexivity|].
  rewrite IH. f_equal. unfold info_name. rewrite <- H. reflexivity.
Qed.

Lemma drop_names_all entries :
  drop_names (map containerName entries) entries = [].
Proof.
  destruct (drop_names (map containerName entries) entries) as [|x l] eqn:E;
    [reflexivity|].
  assert (Hin : In x (drop_names (map containerName entries) entries))
    by (rewrite E; now left).
  apply in_drop_names in Hin. destruct Hin as [Hin Hnot].
  exfalso. apply Hnot. now apply in_map.
Qed.

(** X15. [recreate --all] that proceeds ([--force] or a confirmed prompt)
    on a host where configuration and registry store work empties the
    registry and exits with status 0, whatever docker answers to the state
    queries, inspections and removals. *)
Theorem sandboxRecreateCommand_all_empties_registry :
  forall env opts w,
    selector_count opts = 1%nat ->
    all opts = true ->
    store_reliable env ->
    listing_works env w ->
    proceeds env opts ->
    exists w',
      sandboxRecreateCommand env opts w = (Ok tt, w')
      /\ registry w' = []
      /\ exit_status (new_events w w') = 0.
Proof.
  intros env opts w Hone Hall Hrel Hworks Hgo.
  destruct (recreate_reliable_spec env opts w Hone Hrel Hworks Hgo)
    as (listed & w' & Hfields & Hrun & Hreg & Hexit & _).
  exists w'. split; [exact Hrun|]. split; [|exact Hexit].
  assert (Hsel : filterContainers opts listed = listed).
  { unfold filterContainers.
    destruct (selector_count_one _ Hone) as [(_ & Hs & Ha)|[(H & _)|(H & _)]];
      try congruence.
    now rewrite Hs, Ha. }
  rewrite Hreg, Hsel, (listed_names _ _ Hfields). apply drop_names_all.
Qed.

Lemma sandboxRecreateCommand_all_empties_registry_witness :
  store_reliable (env_docker_down 0)
  /\ listing_works (env_docker_down 0) (world_of [entry_c1; entry_c2; entry_c3])
  /\ proceeds (env_docker_down 0) (mkOpts true None None true)
  /\ exists w',
       sandboxRecreateCommand (env_docker_down 0) (mkOpts true None None true)
         (world_of [entry_c1; entry_c2; entry_c3])
       = (Ok tt, w')
       /\ registry w' = [].
Proof.
  assert (Hrel : store_reliable (env_docker_down 0)) by (intros tr; reflexivity).
  assert (Hworks : listing_works (env_docker_down 0)
                     (world_of [entry_c1; entry_c2; entry_c3])).
  { split; [eexists; reflexivity | reflexivity]. }
  assert (Hgo : proceeds (env_docker_down 0) (mkOpts true None None true))
    by (left; reflexivity).
  split; [exact Hrel|]. split; [exact Hworks|]. split; [exact Hgo|].
  destruct (sandboxRecreateCommand_all_empties_registry (env_docker_down 0)
              (mkOpts true None None true)
              (world_of [entry_c1; entry_c2; entry_c3])
              eq_refl eq_refl Hrel Hworks Hgo)
    as (w' & Hrun & Hreg & _).
  exists w'. split; [exact Hrun | exact Hreg].
Defined.

Lemma Forall2_in_left {A B} (R : A -> B -> Prop) l l' a :
  Forall2 R l l' -> In a l -> exists b, In b l' /\ R a b.
Proof.
  induction 1 as [|x y l l' H _ IH]; cbn; [tauto|].
  intros [<-|Hin].
  - exists y. auto.
  - destruct (IH Hin) as (b & Hb & Hr). exists b. auto.
Qed.

Lemma Forall2_in_right {A B} (R : A -> B -> Prop) l l' b :
  Forall2 R l l' -> In b l' -> exists a, In a l /\ R a b.
Proof.
  induction 1 as [|x y l l' H _ IH]; cbn; [tauto|].
  intros [<-|Hin].
  - exists x. auto.
  - destruct (IH Hin) as (a & Ha & Hr). exists a. auto.
Qed.

(** X16. [recreate --session key] that proceeds on a host where
    configuration and registry store work removes the registry entries of
    that session: afterwards no entry with that session key remains, and in
    a registry keyed by container name every entry of another session is
    still there. *)
Theorem sandboxRecreateCommand_session_removed :
  forall env opts key w,
    session opts = Some key -> key <> EmptyString ->
    selector_count opts = 1%nat ->
    store_reliable env ->
    listing_works env w ->
    proceeds env opts ->
    exists w',
      sandboxRecreateCommand env opts w = (Ok tt, w')
      /\ (forall e, In e (registry w') -> sessionKey e <> key)
      /\ (NoDup (map containerName (registry w)) ->
          forall e, In e (registry w) -> sessionKey e <> key -> In e (registry w')).
Proof.
  intros env opts key w Hs Hk Hone Hrel Hworks Hgo.
  destruct (recreate_reliable_spec env opts w Hone Hrel Hworks Hgo)
    as (listed & w' & Hfields & Hrun & Hreg & _ & _).
  exists w'. split; [exact Hrun|].
  assert (Hsel : forall c, In c (filterContainers opts listed) <->
                           In c listed /\ sessionKey (info_entry c) = key).
  { intros c. unfold filterContainers.
    assert (Ht : truthy (session opts) = true).
    { apply truthy_some. exists key. auto. }
    rewrite Ht, filter_In, Hs. cbn [strict_eq]. now rewrite String.eqb_eq. }
  split.
  - intros e Hin Hkey. rewrite Hreg in Hin. apply in_drop_names in Hin.
    destruct Hin as [Hin Hnot]. apply Hnot.
    destruct (Forall2_in_left _ _ _ _ Hfields Hin) as (item & Hitem & Hf).
    apply in_map_iff. exists item. split.
    + unfold info_name. rewrite <- Hf. reflexivity.
    + apply Hsel. split; [exact Hitem|]. rewrite <- Hkey, <- Hf. reflexivity.
  - intros Hnd e Hin Hkey. rewrite Hreg. apply in_drop_names.
    split; [exact Hin|]. intros Hname.
    apply in_map_iff in Hname. destruct Hname as (item & Hn & Hitem).
    apply Hsel in Hitem. destruct Hitem as [Hitem Hk'].
    destruct (Forall2_in_right _ _ _ _ Hfields Hitem) as (e' & He' & Hf).
    assert (e' = e).
    { eapply unique_name_entry; eauto.
      rewrite <- Hn. unfold info_name. rewrite <- Hf. reflexivity. }
    subst e'. apply Hkey. rewrite <- Hk', <- Hf. reflexivity.
Qed.

Lemma sandboxRecreateCommand_session_removed_witness :
  store_reliable (env_healthy 0 "sandbox:latest")
  /\ listing_works (env_healthy 0 "sandbox:latest")
       (world_of [entry_c1; entry_c2; entry_c4])
  /\ proceeds (env_healthy 0 "sandbox:latest")
       (mkOpts false (Some "agent:foo:bar") None false)
  /\ exists w',
       sandboxRecreateCommand (env_healthy 0 "sandbox:latest")
         (mkOpts false (Some "agent:foo:bar") None false)
         (world_of [entry_c1; entry_c2; entry_c4])
       = (Ok tt, w')
       /\ (forall e, In e (registry w') -> sessionKey e <> "agent:foo:bar").
Proof.
  assert (Hrel : store_reliable (env_healthy 0 "sandbox:latest"))
    by (intros tr; reflexivity).
  assert (Hworks : listing_works (env_healthy 0 "sandbox:latest")
                     (world_of [entry_c1; entry_c2; entry_c4])).
  { split; [eexists; reflexivity | reflexivity]. }
  assert (Hgo : proceeds (env_healthy 0 "sandbox:latest")
                  (mkOpts false (Some "agent:foo:bar") None false))
    by (right; intros tr; reflexivity).
  assert (Hk : "agent:foo:bar" <> EmptyString) by discriminate.
  split; [exact Hrel|]. split; [exact Hworks|]. split; [exact Hgo|].
  destruct (sandboxRecreateCommand_session_removed (env_healthy 0 "sandbox:latest")
              (mkOpts false (Some "agent:foo:bar") None false) "agent:foo:bar"
              (world_of [entry_c1; entry_c2; entry_c4])
              eq_refl Hk eq_refl Hrel Hworks Hgo)
    as (w' & Hrun & Hgone & _).
  exists w'. split; [exact Hrun | exact Hgone].
Defined.

(* ================================================================== *)
(** ** Model providers: identifiers and URLs *)

Lemma normalizeGoogleModelId_idem_lemma id :
  normalizeGoogleModelId (normalizeGoogleModelId id) = normalizeGoogleModelId id
  /\ normalizeGoogleModelId id <> "gemini-3-pro"
  /\ normalizeGoogleModelId id <> "gemini-3-flash".
Proof.
  unfold normalizeGoogleModelId.
  destruct (String.eqb_spec id "gemini-3-pro") as [->|Hp].
  - cbn. repeat split; discriminate.
  - destruct (String.eqb_spec id "gemini-3-flash") as [->|Hf].
    + cbn. repeat split; discriminate.
    + apply String.eqb_neq in Hp as Hp', Hf as Hf'. rewrite Hp', Hf'.
      repeat split; assumption.
Qed.

(** X17. [normalizeGoogleModelId] is idempotent, its result is never one
    of the two bare aliases, and every other id is left as it is. *)
Theorem normalizeGoogleModelId_idempotent :
  forall id,
    normalizeGoogleModelId (normalizeGoogleModelId id) = normalizeGoogleModelId id
    /\ normalizeGoogleModelId id <> "gemini-3-pro"
    /\ normalizeGoogleModelId id <> "gemini-3-flash"
    /\ (normalizeGoogleModelId id = id <->
        id <> "gemini-3-pro" /\ id <> "gemini-3-flash").
Proof.
  intros id. unfold normalizeGoogleModelId.
  destruct (String.eqb_spec id "gemini-3-pro") as [->|Hp].
  - cbn. repeat split; try discriminate. intros [H _]. exfalso. now apply H.
  - destruct (String.eqb_spec id "gemini-3-flash") as [->|Hf].
    + cbn. repeat split; try discriminate. intros [_ H]. exfalso. now apply H.
    + apply String.eqb_neq in Hp as Hp', Hf as Hf'. rewrite Hp', Hf'.
      repeat split; assumption.
Qed.

Lemma normalize_google_model_spec m :
  snd (normalize_google_model m)
  = set_model_id m (normalizeGoogleModelId (model_id m))
  /\ (fst (normalize_google_model m) = false <->
      normalizeGoogleModelId (model_id m) = model_id m).
Proof.
  unfold normalize_google_model.
  destruct (String.eqb_spec (normalizeGoogleModelId (model_id m)) (model_id m))
    as [E|E]; cbn.
  - rewrite E. split; [destruct m; reflexivity | tauto].
  - split; [reflexivity|]. split; [discriminate | contradiction].
Qed.

Lemma google_models_unchanged ms :
  existsb fst (map normalize_google_model ms) = false <->
  forall m, In m ms -> normalizeGoogleModelId (model_id m) = model_id m.
Proof.
  induction ms as [|m l IH]; cbn; [tauto|].
  rewrite orb_false_iff, IH, (proj2 (normalize_google_model_spec m)).
  split.
  - intros [Hm Hl] x [<-|Hx]; auto.
  - intros H. split; [apply H; now left | intros x Hx; apply H; now right].
Qed.

Lemma google_models_value ms :
  map snd (map normalize_google_model ms)
  = map (fun m => set_model_id m (normalizeGoogleModelId (model_id m))) ms.
Proof.
  rewrite map_map. apply map_ext. intros m.
  apply (proj1 (normalize_google_model_spec m)).
Qed.

Lemma set_model_id_same m : set_model_id m (model_id m) = m.
Proof. destruct m; reflexivity. Qed.

Lemma google_models_fixed ms :
  (forall m, In m ms -> normalizeGoogleModelId (model_id m) = model_id m) ->
  map (fun m => set_model_id m (normalizeGoogleModelId (model_id m))) ms = ms.
Proof.
  induction ms as [|m l IH]; cbn; [reflexivity|]. intros H.
  rewrite (H m (or_introl eq_refl)), set_model_id_same. f_equal.
  apply IH. auto.
Qed.

(** The provider after [normalizeGoogleProvider], as a value. *)
Lemma normalizeGoogleProvider_value p :
  snd (normalizeGoogleProvider p)
  = set_models p
      (map (fun m => set_model_id m (normalizeGoogleModelId (model_id m))) (models p))
  /\ (fst (normalizeGoogleProvider p) = false <->
      forall m, In m (models p) -> normalizeGoogleModelId (model_id m) = model_id m).
Proof.
  unfold normalizeGoogleProvider.
  destruct (existsb fst (map normalize_google_model (models p))) eqn:E; cbn.
  - rewrite google_models_value. split; [reflexivity|].
    split; [discriminate|]. intros H.
    apply (proj2 (google_models_unchanged _)) in H. congruence.
  - pose proof (proj1 (google_models_unchanged _) E) as E'.
    rewrite (google_models_fixed _ E').
    split; [destruct p; reflexivity | tauto].
Qed.

(** X18. [normalizeGoogleProvider] changes nothing but model ids: the
    provider's own members and the number, order and other members of its
    models are kept, and every id becomes its normal form. It returns the
    provider object itself exactly when no model id is an alias, and a
    second pass over its result changes nothing. *)
Theorem normalizeGoogleProvider_only_ids :
  forall p,
    let q := snd (normalizeGoogleProvider p) in
    baseUrl q = baseUrl p /\ api q = api p /\ apiKey q = apiKey p /\ auth q = auth p
    /\ models q
       = map (fun m => set_model_id m (normalizeGoogleModelId (model_id m))) (models p)
    /\ (fst (normalizeGoogleProvider p) = false <->
        forall m, In m (models p) -> normalizeGoogleModelId (model_id m) = model_id m)
    /\ (fst (normalizeGoogleProvider p) = false -> q = p)
    /\ normalizeGoogleProvider q = (false, q).
Proof.
  intros p q. subst q.
  destruct (normalizeGoogleProvider_value p) as [Hv Hf].
  rewrite Hv. cbn [set_models baseUrl api apiKey auth models].
  split; [reflexivity|]. split; [reflexivity|]. split; [reflexivity|].
  split; [reflexivity|]. split; [reflexivity|]. split; [exact Hf|]. split.
  - intros H. rewrite (google_models_fixed _ (proj1 Hf H)).
    destruct p; reflexivity.
  - set (q := set_models p _).
    assert (Hq : forall m, In m (models q) ->
                 normalizeGoogleModelId (model_id m) = model_id m).
    { intros m Hin. subst q. cbn [set_models models] in Hin.
      apply in_map_iff in Hin. destruct Hin as (m0 & <- & _).
      cbn [set_model_id model_id].
      apply (proj1 (normalizeGoogleModelId_idem_lemma (model_id m0))). }
    unfold normalizeGoogleProvider.
    rewrite (proj2 (google_models_unchanged (models q)) Hq). reflexivity.
Qed.

Lemma string_app_nil_r (s : string) : (s ++ EmptyString)%string = s.
Proof. induction s as [|c s IH]; cbn; [reflexivity | now rewrite IH]. Qed.

Lemma string_length_app (a b : string) :
  String.length (a ++ b) = (String.length a + String.length b)%nat.
Proof. induction a as [|c a IH]; cbn; [reflexivity | now rewrite IH]. Qed.

Lemma strip_trailing_slashes_only n : strip_trailing_slashes (slashes n) = EmptyString.
Proof. induction n as [|n IH]; cbn; [reflexivity | now rewrite IH]. Qed.

Lemma strip_trailing_slashes_app s n :
  strip_trailing_slashes (s ++ slashes n) = strip_trailing_slashes s.
Proof.
  induction s as [|c s IH]; cbn.
  - apply strip_trailing_slashes_only.
  - now rewrite IH.
Qed.

Lemma strip_trailing_slashes_keeps pre c :
  c <> slash ->
  strip_trailing_slashes (pre ++ String c EmptyString) = (pre ++ String c EmptyString)%string.
Proof.
  intros Hc. induction pre as [|a pre IH]; cbn.
  - apply Ascii.eqb_neq in Hc. now rewrite Hc.
  - rewrite IH. destruct (pre ++ String c EmptyString)%string eqn:E; [|reflexivity].
    destruct pre; discriminate.
Qed.

Lemma strip_v1_suffix_app base v :
  v = "v1" \/ v = "V1" ->
  strip_v1_suffix (base ++ String slash v) = base.
Proof.
  intros Hv. induction base as [|a base IH]; cbn.
  - destruct Hv as [-> | ->]; reflexivity.
  - rewrite IH.
    assert (Hne : ((base ++ String slash v =? "v1") || (base ++ String slash v =? "V1"))%string
                  = false).
    { apply orb_false_iff. split; apply String.eqb_neq; intros H;
        apply (f_equal String.length) in H; rewrite string_length_app in H;
        destruct Hv as [-> | ->]; cbn in H; lia. }
    rewrite Hne, andb_false_r. reflexivity.
Qed.

Lemma app_nonempty_truthy (a b : string) :
  b <> EmptyString -> truthy (Some (a ++ b)) = true.
Proof.
  intros Hb. cbn. apply negb_true_iff, String.eqb_neq.
  destruct a; cbn; [exact Hb | discriminate].
Qed.

(** X19. [resolveOllamaApiBase] undoes the OpenAI-compatible suffix: a
    base URL followed by ["/v1"], in either case, and by any number of
    trailing slashes resolves to that base URL, exactly. *)
Theorem resolveOllamaApiBase_strips_v1 :
  forall defaultBase base n,
    resolveOllamaApiBase defaultBase (Some (base ++ "/v1" ++ slashes n)) = base
    /\ resolveOllamaApiBase defaultBase (Some (base ++ "/V1" ++ slashes n)) = base.
Proof.
  intros defaultBase base n.
  assert (H : forall v, v = "v1" \/ v = "V1" ->
            resolveOllamaApiBase defaultBase (Some (base ++ String slash v ++ slashes n))
            = base).
  { intros v Hv. unfold resolveOllamaApiBase.
    rewrite app_nonempty_truthy by discriminate. cbn [negb template].
    rewrite <- string_append_assoc, strip_trailing_slashes_app.
    assert (Hend : (base ++ String slash v
                    = (base ++ String slash (String (match v with
                                                     | String c _ => c
                                                     | EmptyString => slash
                                                     end) EmptyString))
                      ++ String "1"%char EmptyString)%string).
    { destruct Hv as [-> | ->]; rewrite string_append_assoc; reflexivity. }
    rewrite Hend, strip_trailing_slashes_keeps by discriminate.
    rewrite <- Hend. now apply strip_v1_suffix_app. }
  split; [apply (H "v1") | apply (H "V1")]; auto.
Qed.

Lemma strip_trailing_slashes_cases s :
  strip_trailing_slashes s = s \/ exists pre, s = (pre ++ "/")%string.
Proof.
  induction s as [|c s IH]; [now left|]. cbn.
  destruct IH as [IH | (pre & ->)].
  - rewrite IH. destruct s as [|b s].
    + destruct (Ascii.eqb_spec c slash) as [->|Hc]; [right; now exists EmptyString | now left].
    + now left.
  - right. exists (String c pre). reflexivity.
Qed.

Lemma strip_v1_suffix_cases s :
  strip_v1_suffix s = s
  \/ exists pre, s = (pre ++ "/v1")%string \/ s = (pre ++ "/V1")%string.
Proof.
  induction s as [|c s IH]; [now left|]. cbn.
  destruct (Ascii.eqb_spec c slash) as [->|Hc]; cbn [andb].
  - destruct (String.eqb_spec s "v1") as [->|H1]; cbn [orb].
    + right. exists EmptyString. now left.
    + destruct (String.eqb_spec s "V1") as [->|H2].
      * right. exists EmptyString. now right.
      * destruct IH as [-> | (pre & [-> | ->])]; [now left | |];
          right; exists (String slash pre); [now left | now right].
  - destruct IH as [-> | (pre & [-> | ->])]; [now left | |];
      right; exists (String c pre); [now left | now right].
Qed.

Lemma strip_trailing_slashes_prefix s :
  exists rest, s = (strip_trailing_slashes s ++ rest)%string.
Proof.
  induction s as [|c s (rest & IH)]; [now exists EmptyString|]. cbn.
  destruct (strip_trailing_slashes s) as [|b kept] eqn:E.
  - destruct (Ascii.eqb c slash).
    + exists (String c s). reflexivity.
    + exists s. reflexivity.
  - exists rest. cbn. f_equal. exact IH.
Qed.

Lemma strip_v1_suffix_prefix s :
  exists rest, s = (strip_v1_suffix s ++ rest)%string.
Proof.
  induction s as [|c s (rest & IH)]; [now exists EmptyString|]. cbn.
  destruct (Ascii.eqb c slash && ((s =? "v1") || (s =? "V1"))%string).
  - exists (String c s). reflexivity.
  - exists rest. cbn. f_equal. exact IH.
Qed.

(** X20. For a configured, non-empty base URL, [resolveOllamaApiBase]
    only cuts at the end: its result is a prefix of the URL, one more
    trailing slash does not change it, and a URL that ends neither in a
    slash nor in ["/v1"] or ["/V1"] is returned as it is. Without a
    configured URL the default is returned. *)
Theorem resolveOllamaApiBase_cuts_suffix :
  forall defaultBase url,
    url <> EmptyString ->
    (exists rest, url = resolveOllamaApiBase defaultBase (Some url) ++ rest)
    /\ resolveOllamaApiBase defaultBase (Some (url ++ "/"))
       = resolveOllamaApiBase defaultBase (Some url)
    /\ ((forall pre, url <> pre ++ "/") ->
        (forall pre, url <> pre ++ "/v1") ->
        (forall pre, url <> pre ++ "/V1") ->
        resolveOllamaApiBase defaultBase (Some url) = url)
    /\ resolveOllamaApiBase defaultBase None = defaultBase
    /\ resolveOllamaApiBase defaultBase (Some EmptyString) = defaultBase.
Proof.
  intros defaultBase url Hne.
  assert (Ht : truthy (Some url) = true).
  { cbn. now apply negb_true_iff, String.eqb_neq. }
  assert (Hv : resolveOllamaApiBase defaultBase (Some url)
               = strip_v1_suffix (strip_trailing_slashes url)).
  { unfold resolveOllamaApiBase. rewrite Ht. reflexivity. }
  rewrite Hv.
  split; [|split; [|split; [|split; reflexivity]]].
  - destruct (strip_trailing_slashes_prefix url) as (r1 & H1).
    destruct (strip_v1_suffix_prefix (strip_trailing_slashes url)) as (r2 & H2).
    exists (r2 ++ r1)%string. rewrite <- string_append_assoc, <- H2. exact H1.
  - unfold resolveOllamaApiBase.
    rewrite (app_nonempty_truthy url "/") by discriminate. cbn [negb template].
    change (url ++ "/")%string with (url ++ slashes 1)%string.
    now rewrite strip_trailing_slashes_app.
  - intros Hs H1 H2.
    destruct (strip_trailing_slashes_cases url) as [-> | (pre & H)];
      [|exfalso; exact (Hs _ H)].
    destruct (strip_v1_suffix_cases url) as [-> | (pre & [H | H])];
      [reflexivity | exfalso; exact (H1 _ H) | exfalso; exact (H2 _ H)].
Qed.

Lemma resolveOllamaApiBase_cuts_suffix_witness :
  "http://192.168.20.14:11434/api" <> EmptyString
  /\ resolveOllamaApiBase "http://127.0.0.1:11434"
       (Some ("http://192.168.20.14:11434/api" ++ "/"))
     = "http://192.168.20.14:11434/api".
Proof.
  assert (Hne : "http://192.168.20.14:11434/api" <> EmptyString) by discriminate.
  split; [exact Hne|].
  rewrite (proj1 (proj2 (resolveOllamaApiBase_cuts_suffix "http://127.0.0.1:11434"
                           "http://192.168.20.14:11434/api" Hne))).
  reflexivity.
Defined.

(* ================================================================== *)
(** ** Model providers: keys *)

Lemma strip_prefix_spec p s r : strip_prefix p s = Some r <-> s = (p ++ r)%string.
Proof.
  revert s. induction p as [|a p IH]; intros s; cbn.
  - split; [intros [= ->]; reflexivity | intros ->; reflexivity].
  - destruct s as [|b s]; [split; discriminate|].
    destruct (Ascii.eqb_spec a b) as [->|Hab].
    + rewrite IH. split; [intros ->; reflexivity | intros [= ->]; reflexivity].
    + split; [discriminate | intros [= ? ?]; congruence].
Qed.

Lemma strip_last_spec c s r :
  strip_last c s = Some r <-> s = (r ++ String c EmptyString)%string.
Proof.
  revert r. induction s as [|a s IH]; intros r.
  - cbn. split; [discriminate | destruct r; discriminate].
  - destruct s as [|b s].
    + cbn. destruct (Ascii.eqb_spec a c) as [->|Hac].
      * split; [intros [= <-]; reflexivity|].
        destruct r as [|x [|y r]]; cbn; intros H; try reflexivity; discriminate.
      * split; [discriminate|].
        destruct r as [|x [|y r]]; cbn; intros H; try discriminate.
        injection H as ->. contradiction.
    + change (strip_last c (String a (String b s)))
        with (option_map (String a) (strip_last c (String b s))).
      destruct (strip_last c (String b s)) as [r'|] eqn:E; cbn [option_map].
      * pose proof (proj1 (IH r') eq_refl) as E'. split.
        -- intros [= <-]. cbn. now rewrite <- E'.
        -- destruct r as [|x r]; cbn; intros H.
           ++ discriminate.
           ++ injection H as -> H. f_equal. f_equal.
              pose proof (proj2 (IH r) H). congruence.
      * split; [discriminate|].
        destruct r as [|x r]; cbn; intros H; [discriminate|].
        injection H as -> H. pose proof (proj2 (IH r) H). discriminate.
Qed.

Lemma match_env_reference_spec s name :
  match_env_reference s = Some name <->
  is_env_name name = true /\ s = ("${" ++ name ++ "}")%string.
Proof.
  unfold match_env_reference.
  destruct (strip_prefix "${" s) as [rest|] eqn:Hp.
  - apply strip_prefix_spec in Hp. subst s.
    destruct (strip_last "}" rest) as [n|] eqn:Hl.
    + apply strip_last_spec in Hl. subst rest.
      destruct (is_env_name n) eqn:Hn.
      * split.
        -- intros [= <-]. auto.
        -- intros (_ & H). cbn in H. injection H as H.
           f_equal. apply (proj2 (strip_last_spec "}" _ name)) in H.
           rewrite (proj2 (strip_last_spec "}" _ n) eq_refl) in H. congruence.
      * split; [discriminate|]. intros (Hname & H). cbn in H. injection H as H.
        apply (proj2 (strip_last_spec "}" _ name)) in H.
        rewrite (proj2 (strip_last_spec "}" _ n) eq_refl) in H. congruence.
    + split; [discriminate|]. intros (_ & H). cbn in H. injection H as H.
      apply (proj2 (strip_last_spec "}" _ name)) in H. congruence.
  - split; [discriminate|]. intros (_ & H).
    apply (proj2 (strip_prefix_spec "${" s _)) in H. congruence.
Qed.

Lemma env_name_not_reference name :
  is_env_name name = true -> match_env_reference name = None.
Proof.
  intros Hn. destruct (match_env_reference name) as [n|] eqn:E; [|reflexivity].
  apply match_env_reference_spec in E. destruct E as (_ & ->).
  unfold is_env_name in Hn. cbn in Hn. discriminate.
Qed.

(** X21. [normalizeApiKeyConfig] unwraps an environment reference: when
    the trimmed value is ["${NAME}"] with [NAME] in [[A-Z0-9_]+] the result
    is [NAME], otherwise it is the trimmed value; and the result is never
    itself such a reference, so there is nothing left to unwrap. *)
Theorem normalizeApiKeyConfig_unwraps :
  forall a value,
    (forall name,
        is_env_name name = true ->
        auth_trim a value = "${" ++ name ++ "}" ->
        normalizeApiKeyConfig a value = name)
    /\ ((forall name,
            is_env_name name = true -> auth_trim a value <> "${" ++ name ++ "}") ->
        normalizeApiKeyConfig a value = auth_trim a value)
    /\ (forall name,
          is_env_name name = true ->
          normalizeApiKeyConfig a value <> "${" ++ name ++ "}").
Proof.
  intros a value. unfold normalizeApiKeyConfig.
  destruct (match_env_reference (auth_trim a value)) as [n|] eqn:E.
  - apply match_env_reference_spec in E. destruct E as (Hn & Ht).
    split; [|split].
    + intros name Hname H. rewrite Ht in H. cbn in H. injection H as H.
      apply (proj2 (strip_last_spec "}" _ name)) in H.
      rewrite (proj2 (strip_last_spec "}" _ n) eq_refl) in H. congruence.
    + intros H. exfalso. exact (H n Hn Ht).
    + intros name Hname H.
      pose proof (env_name_not_reference n Hn) as Hno.
      rewrite (proj2 (match_env_reference_spec n name) (conj Hname H)) in Hno.
      discriminate.
  - split; [|split].
    + intros name Hname H.
      rewrite (proj2 (match_env_reference_spec _ name) (conj Hname H)) in E.
      discriminate.
    + reflexivity.
    + intros name Hname H.
      rewrite (proj2 (match_env_reference_spec _ name) (conj Hname H)) in E.
      discriminate.
Qed.

Lemma normalizeApiKeyConfig_unwraps_witness :
  is_env_name "OPENAI_API_KEY" = true
  /\ auth_trim example_auth "  ${OPENAI_API_KEY} " = "${" ++ "OPENAI_API_KEY" ++ "}"
  /\ normalizeApiKeyConfig example_auth "  ${OPENAI_API_KEY} " = "OPENAI_API_KEY".
Proof.
  split; [reflexivity|]. split; [reflexivity|].
  exact (proj1 (normalizeApiKeyConfig_unwraps example_auth "  ${OPENAI_API_KEY} ")
           "OPENAI_API_KEY" eq_refl eq_refl).
Defined.


Lemma first_profile_key_some a ids key :
  first_profile_key a ids = Some key <->
  exists before id after,
    ids = (before ++ id :: after)%list
    /\ usable_credential a id key
    /\ Forall (unusable_profile a) before.
Proof.
  unfold usable_credential, unusable_profile.
  induction ids as [|i l IH]; cbn.
  - split; [discriminate|]. intros (b & id & af & H & _). destruct b; discriminate.
  - destruct (profiles a i) as [[k|t|]|] eqn:Hi.
    + split.
      * intros [= <-]. exists [], i, l. rewrite Hi. repeat split; auto.
      * intros ([|b0 b] & id & af & H & Hu & Hb); cbn in H; injection H as ? ?; subst.
        -- rewrite Hi in Hu. destruct Hu as [[= ->]|[=]]. reflexivity.
        -- inversion Hb as [|? ? Hb0 _]; subst. rewrite Hi in Hb0.
           destruct Hb0; discriminate.
    + split.
      * intros [= <-]. exists [], i, l. rewrite Hi. repeat split; auto.
      * intros ([|b0 b] & id & af & H & Hu & Hb); cbn in H; injection H as ? ?; subst.
        -- rewrite Hi in Hu. destruct Hu as [[=]|[= ->]]. reflexivity.
        -- inversion Hb as [|? ? Hb0 _]; subst. rewrite Hi in Hb0.
           destruct Hb0; discriminate.
    + rewrite IH. split.
      * intros (b & id & af & -> & Hu & Hb). exists (i :: b), id, af.
        repeat split; auto.
      * intros ([|b0 b] & id & af & H & Hu & Hb); cbn in H; injection H as ? ?; subst.
        -- rewrite Hi in Hu. destruct Hu; discriminate.
        -- inversion Hb; subst. exists b, id, af. auto.
    + rewrite IH. split.
      * intros (b & id & af & -> & Hu & Hb). exists (i :: b), id, af.
        repeat split; auto.
      * intros ([|b0 b] & id & af & H & Hu & Hb); cbn in H; injection H as ? ?; subst.
        -- rewrite Hi in Hu. destruct Hu; discriminate.
        -- inversion Hb; subst. exists b, id, af. auto.
Qed.

Lemma first_profile_key_none a ids :
  first_profile_key a ids = None <-> Forall (unusable_profile a) ids.
Proof.
  unfold unusable_profile. induction ids as [|i l IH]; cbn.
  - split; auto.
  - destruct (profiles a i) as [[k|t|]|] eqn:Hi.
    + split; [discriminate|]. intros H. inversion H as [|? ? H0 _]; subst.
      rewrite Hi in H0. destruct H0; discriminate.
    + split; [discriminate|]. intros H. inversion H as [|? ? H0 _]; subst.
      rewrite Hi in H0. destruct H0; discriminate.
    + rewrite IH. split.
      * intros H. constructor; [rewrite Hi; now right | exact H].
      * intros H. now inversion H.
    + rewrite IH. split.
      * intros H. constructor; [rewrite Hi; now left | exact H].
      * intros H. now inversion H.
Qed.

(** X22. [resolveApiKeyFromProfiles] returns the credential of the first
    listed profile that is stored and is an API key or a token: profiles
    that are missing from the store or of another type are skipped, later
    profiles are not looked at, and the result is undefined exactly when
    no listed profile is usable. *)
Theorem resolveApiKeyFromProfiles_first_usable :
  forall a provider,
    (forall key,
        resolveApiKeyFromProfiles a provider = Some key <->
        exists before id after,
          listProfilesForProvider a provider = (before ++ id :: after)%list
          /\ usable_credential a id key
          /\ Forall (unusable_profile a) before)
    /\ (resolveApiKeyFromProfiles a provider = None <->
        Forall (unusable_profile a) (listProfilesForProvider a provider)).
Proof.
  intros a provider. unfold resolveApiKeyFromProfiles. split.
  - intros key. apply first_profile_key_some.
  - apply first_profile_key_none.
Qed.

Lemma match_env_source_spec s name :
  match_env_source s = Some name <->
  is_env_name name = true
  /\ (s = ("env: " ++ name)%string \/ s = ("shell env: " ++ name)%string).
Proof.
  unfold match_env_source.
  destruct (strip_prefix "env: " s) as [n|] eqn:H1.
  - apply strip_prefix_spec in H1. subst s.
    destruct (is_env_name n) eqn:Hn.
    + split.
      * intros [= <-]. auto.
      * intros (_ & [H|H]); [now injection H as -> | discriminate].
    + split; [discriminate|].
      intros (Hname & [H|H]); [injection H as ->; congruence | discriminate].
  - destruct (strip_prefix "shell env: " s) as [n|] eqn:H2.
    + apply strip_prefix_spec in H2. subst s.
      destruct (is_env_name n) eqn:Hn.
      * split.
        -- intros [= <-]. auto.
        -- intros (_ & [H|H]); [discriminate | now injection H as ->].
      * split; [discriminate|].
        intros (Hname & [H|H]); [discriminate | injection H as ->; congruence].
    + split; [discriminate|]. intros (_ & [H|H]).
      * apply (proj2 (strip_prefix_spec _ _ _)) in H. congruence.
      * apply (proj2 (strip_prefix_spec _ _ _)) in H. congruence.
Qed.

(** X23. [resolveEnvApiKeyVarName] names a variable only for a key that
    was resolved from the environment: the result is [NAME] exactly when
    the key's source is ["env: NAME"] or ["shell env: NAME"] with [NAME] in
    [[A-Z0-9_]+]; a key from any other source, or no key, gives undefined. *)
Theorem resolveEnvApiKeyVarName_sources :
  forall a provider name,
    resolveEnvApiKeyVarName a provider = Some name <->
    is_env_name name = true
    /\ (resolveEnvApiKey a provider = Some ("env: " ++ name)
        \/ resolveEnvApiKey a provider = Some ("shell env: " ++ name)).
Proof.
  intros a provider name. unfold resolveEnvApiKeyVarName.
  destruct (resolveEnvApiKey a provider) as [source|].
  - rewrite match_env_source_spec. split.
    + intros (Hn & [-> | ->]); auto.
    + intros (Hn & [[= ->] | [= ->]]); auto.
  - split; [discriminate|]. intros (_ & [H|H]); discriminate.
Qed.

(* ================================================================== *)
(** ** Model providers: [normalizeProviders] *)

Lemma strict_eq_aws_sdk a key p :
  strict_eq "aws-sdk"
    (nullish_or (auth p)
       (if (auth_trim a key =? "amazon-bedrock")%string then Some "aws-sdk" else None))
  = true <-> aws_sdk_mode a key p.
Proof.
  unfold aws_sdk_mode. destruct (auth p) as [m|]; cbn [nullish_or strict_eq].
  - rewrite String.eqb_eq. split.
    + intros <-. now left.
    + intros [[= ->] | [H _]]; [reflexivity | discriminate].
  - destruct (String.eqb_spec (auth_trim a key) "amazon-bedrock") as [E|E];
      cbn [strict_eq].
    + rewrite String.eqb_refl. split; [intros _; right; auto | reflexivity].
    + split; [discriminate | intros [H | [_ H]]; [discriminate | contradiction]].
Qed.

(** One provider: what the loop body keeps and what it changes. *)
Lemma normalize_provider_spec a key p :
  let q := snd (normalize_provider a key p) in
  baseUrl q = baseUrl p /\ api q = api p /\ auth q = auth p
  /\ models q
     = (if (auth_trim a key =? "google")%string then with_normal_ids (models p)
        else models p)
  /\ (fst (normalize_provider a key p) = false -> q = p)
  /\ (forall k,
        apiKey p = Some k -> k <> EmptyString ->
        blank a (Some (normalizeApiKeyConfig a k)) = false ->
        apiKey q = Some (normalizeApiKeyConfig a k))
  /\ (apiKey p = None -> models p = [] -> apiKey q = None)
  /\ (apiKey p = None -> models p <> [] -> aws_sdk_mode a key p ->
      apiKey q = Some (resolveAwsSdkApiKeyVarName a))
  /\ (apiKey p = None -> models p <> [] -> ~ aws_sdk_mode a key p ->
      apiKey q
      = (let found := nullish_or (resolveEnvApiKeyVarName a (auth_trim a key))
                        (resolveApiKeyFromProfiles a (auth_trim a key)) in
         if blank a found then None else found)).
Proof.
  intros q. subst q. unfold normalize_provider.
  (* step 1 *)
  set (c1 := truthy (apiKey p)
             && negb (normalizeApiKeyConfig a (template (apiKey p))
                      =? template (apiKey p))%string).
  set (s1 := if c1 then (true, set_apiKey p (normalizeApiKeyConfig a (template (apiKey p))))
             else (false, p)).
  assert (H1 : baseUrl (snd s1) = baseUrl p /\ api (snd s1) = api p
               /\ auth (snd s1) = auth p /\ models (snd s1) = models p
               /\ (fst s1 = false -> snd s1 = p)
               /\ (forall k, apiKey p = Some k -> k <> EmptyString ->
                   apiKey (snd s1) = Some (normalizeApiKeyConfig a k))
               /\ (apiKey p = None -> snd s1 = p)).
  { subst s1. destruct c1 eqn:Hc; cbn.
    - repeat split; try discriminate.
      + intros k Hk _. rewrite Hk. reflexivity.
      + intros Hk. subst c1. rewrite Hk in Hc. discriminate.
    - repeat split; auto.
      intros k Hk Hne. subst c1. rewrite Hk in Hc |- *. cbn in Hc.
      apply String.eqb_neq in Hne. rewrite Hne in Hc. cbn in Hc.
      apply negb_false_iff, String.eqb_eq in Hc. now rewrite Hc. }
  destruct s1 as [m1 p1]. cbn [fst snd] in H1.
  destruct H1 as (Hb1 & Ha1 & Hu1 & Hm1 & Hf1 & Hk1 & Hn1).
  (* step 2 *)
  set (s2 := if (0 <? List.length (models p1))%nat && blank a (apiKey p1)
             then _ else (false, p1)).
  assert (H2 : baseUrl (snd s2) = baseUrl p1 /\ api (snd s2) = api p1
               /\ auth (snd s2) = auth p1 /\ models (snd s2) = models p1
               /\ (fst s2 = false -> snd s2 = p1)
               /\ (blank a (apiKey p1) = false -> snd s2 = p1)
               /\ (models p1 = [] -> snd s2 = p1)
               /\ (apiKey p1 = None -> models p1 <> [] -> aws_sdk_mode a key p1 ->
                   apiKey (snd s2) = Some (resolveAwsSdkApiKeyVarName a))
               /\ (apiKey p1 = None -> models p1 <> [] -> ~ aws_sdk_mode a key p1 ->
                   apiKey (snd s2)
                   = (let found :=
                        nullish_or (resolveEnvApiKeyVarName a (auth_trim a key))
                          (resolveApiKeyFromProfiles a (auth_trim a key)) in
                      if blank a found then None else found))).
  { subst s2.
    pose proof (strict_eq_aws_sdk a key p1) as Haws.
    destruct (models p1) as [|m0 ms] eqn:Hms; cbn [List.length Nat.ltb Nat.leb andb].
    - repeat split; auto; intros; congruence.
    - destruct (blank a (apiKey p1)) eqn:Hbl.
      + destruct (strict_eq "aws-sdk" _) eqn:Hs.
        * cbn [fst snd set_apiKey baseUrl api auth models apiKey]. rewrite Hms.
          repeat split; intros; try reflexivity; try discriminate.
          exfalso. match goal with H : ~ aws_sdk_mode _ _ _ |- _ => apply H end.
          now apply Haws.
        * set (found := nullish_or _ _).
          assert (Hnot : ~ aws_sdk_mode a key p1).
          { intros H. apply Haws in H. congruence. }
          destruct (blank a found) eqn:Hbf;
            cbn [negb fst snd set_apiKey baseUrl api auth models apiKey];
            rewrite ?Hms; repeat split; intros; try reflexivity; try discriminate;
            try contradiction; try assumption.
          destruct found; [reflexivity | discriminate].
      + cbn [fst snd]. rewrite Hms.
        repeat split; intros; try reflexivity; try discriminate;
          match goal with H : apiKey p1 = None |- _ => rewrite H in Hbl end;
          discriminate. }
  destruct s2 as [m2 p2]. cbn [fst snd] in H2.
  destruct H2 as (Hb2 & Ha2 & Hu2 & Hm2 & Hf2 & Hbl2 & Hnm2 & Haws2 & Henv2).
  (* step 3 *)
  destruct (normalizeGoogleProvider_value p2) as [Hgv Hgf].
  destruct (auth_trim a key =? "google")%string eqn:Hg.
  - destruct (normalizeGoogleProvider p2) as [m3 p3]. cbn [fst snd] in *.
    subst p3. cbn [set_models baseUrl api auth models apiKey].
    split; [congruence|]. split; [congruence|]. split; [congruence|].
    split; [unfold with_normal_ids; congruence|]. split.
    { intros Hm. apply orb_false_iff in Hm. destruct Hm as [Hm Hm3].
      apply orb_false_iff in Hm. destruct Hm as [Hm1' Hm2'].
      rewrite (google_models_fixed _ (proj1 Hgf Hm3)).
      rewrite <- (Hf1 Hm1'), <- (Hf2 Hm2'). destruct p2; reflexivity. }
    split.
    { intros k Hk Hne Hnb. rewrite Hbl2; [now apply Hk1|].
      now rewrite (Hk1 k Hk Hne). }
    split.
    { intros Hk Hms. rewrite Hnm2; rewrite (Hn1 Hk); assumption. }
    split.
    { intros Hk Hms Hmd. pose proof (Hn1 Hk) as ->. now apply Haws2. }
    { intros Hk Hms Hmd. pose proof (Hn1 Hk) as ->. now apply Henv2. }
  - cbn [fst snd].
    split; [congruence|]. split; [congruence|]. split; [congruence|].
    split; [congruence|]. split.
    { intros Hm. rewrite orb_false_r in Hm.
      apply orb_false_iff in Hm. destruct Hm as [Hm1' Hm2'].
      rewrite <- (Hf1 Hm1'). now apply Hf2. }
    split.
    { intros k Hk Hne Hnb. rewrite Hbl2; [now apply Hk1|].
      now rewrite (Hk1 k Hk Hne). }
    split.
    { intros Hk Hms. rewrite Hnm2; rewrite (Hn1 Hk); assumption. }
    split.
    { intros Hk Hms Hmd. pose proof (Hn1 Hk) as ->. now apply Haws2. }
    { intros Hk Hms Hmd. pose proof (Hn1 Hk) as ->. now apply Henv2. }
Qed.

Lemma Forall2_map_right {A B} (R : A -> B -> Prop) (f : A -> B) l :
  (forall x, In x l -> R x (f x)) -> Forall2 R l (map f l).
Proof.
  induction l as [|x l IH]; cbn; intros H; constructor.
  - apply H. now left.
  - apply IH. intros y Hy. apply H. now right.
Qed.

Lemma existsb_map_comp {A B} (f : B -> bool) (g : A -> B) l :
  existsb f (map g l) = existsb (fun x => f (g x)) l.
Proof. induction l as [|x l IH]; cbn; [reflexivity | now rewrite IH]. Qed.

(** The loop of [normalizeProviders]: [mutated] collects the changes and
    [next] is assigned the normalized providers, in order. *)
Lemma normalize_fold a :
  forall entries m0 next0,
    fold_left (normalize_step a) entries (m0, next0)
    = (m0 || existsb (fun kp => fst (normalize_provider a (fst kp) (snd kp))) entries,
       fold_left (fun next kq => assign_provider next (fst kq) (snd kq))
                 (normalized_entries a entries) next0).
Proof.
  induction entries as [|[k p] l IH]; intros m0 next0.
  - cbn. now rewrite orb_false_r.
  - cbn [fold_left normalized_entries map existsb fst snd].
    unfold normalize_step at 2. cbn [fst snd].
    destruct (normalize_provider a k p) as [m q]. cbn [fst snd].
    rewrite IH, orb_assoc. reflexivity.
Qed.

Lemma normalized_entries_keys a entries :
  map fst (normalized_entries a entries) = map fst entries.
Proof. unfold normalized_entries. rewrite map_map. reflexivity. Qed.

Lemma normalized_entries_unchanged a entries :
  existsb (fun kp => fst (normalize_provider a (fst kp) (snd kp))) entries = false ->
  normalized_entries a entries = entries.
Proof.
  unfold normalized_entries.
  induction entries as [|[k p] l IH]; cbn [map existsb fst snd]; [reflexivity|].
  intros H. apply orb_false_iff in H. destruct H as [Hk Hl].
  rewrite (IH Hl).
  pose proof (normalize_provider_spec a k p) as (_ & _ & _ & _ & Hsame & _).
  cbv zeta in Hsame. now rewrite (Hsame Hk).
Qed.

Lemma normalizeProviders_value a providers :
  normalizeProviders a (Some providers)
  = (existsb (fun kp => fst (normalize_provider a (fst kp) (snd kp)))
       (own_entries providers),
     Some (if existsb (fun kp => fst (normalize_provider a (fst kp) (snd kp)))
                (own_entries providers)
           then assign_all (normalized_entries a (own_entries providers))
           else providers)).
Proof.
  unfold normalizeProviders, assign_all. rewrite normalize_fold. reflexivity.
Qed.

Lemma define_property_fresh key provider entries :
  ~ In key (map fst entries) ->
  define_property key provider entries = (entries ++ [(key, provider)])%list.
Proof.
  induction entries as [|[k p] l IH]; cbn; [reflexivity|].
  intros Hnot. destruct (String.eqb_spec k key) as [->|_].
  - exfalso. apply Hnot. now left.
  - rewrite IH; [reflexivity|]. intros Hin. apply Hnot. now right.
Qed.

(** Assignments under distinct, new keys: every key but ["__proto__"]
    becomes an own property, in order. *)
Lemma assign_fold_own :
  forall assigned next,
    NoDup (map fst assigned) ->
    (forall k, In k (map fst assigned) -> ~ In k (map fst (own_entries next))) ->
    own_entries
      (fold_left (fun next kq => assign_provider next (fst kq) (snd kq)) assigned next)
    = (own_entries next
       ++ filter (fun kq => negb (is_proto_key (fst kq))) assigned)%list.
Proof.
  induction assigned as [|[k q] l IH]; intros next Hnd Hnew.
  - cbn. now rewrite app_nil_r.
  - cbn [map fst] in Hnd. inversion Hnd as [|? ? Hk Hl]; subst.
    cbn [fold_left filter fst snd]. unfold assign_provider at 2.
    destruct (is_proto_key k) eqn:Hp; cbn [negb].
    + rewrite IH; [reflexivity | exact Hl |].
      cbn [own_entries]. intros k' Hk'. apply Hnew. now right.
    + rewrite IH; [|exact Hl|]; cbn [own_entries].
      * rewrite define_property_fresh by (apply Hnew; now left).
        rewrite <- app_assoc. reflexivity.
      * intros k' Hk'. rewrite define_property_fresh by (apply Hnew; now left).
        rewrite map_app, in_app_iff. cbn. intros [Hin|[->|[]]].
        -- exact (Hnew k' (or_intror Hk') Hin).
        -- exact (Hk Hk').
Qed.

(** The prototype after assignments under distinct keys is the provider
    assigned under ["__proto__"], when there is one. *)
Lemma assign_fold_proto :
  forall assigned next q,
    NoDup (map fst assigned) ->
    (prototype
       (fold_left (fun next kq => assign_provider next (fst kq) (snd kq)) assigned next)
     = Some q
     <-> In ("__proto__", q) assigned
         \/ (~ In "__proto__" (map fst assigned) /\ prototype next = Some q)).
Proof.
  induction assigned as [|[k v] l IH]; intros next q Hnd.
  - cbn. tauto.
  - cbn [map fst] in Hnd. inversion Hnd as [|? ? Hk Hl]; subst.
    cbn [fold_left fst snd]. rewrite (IH _ q Hl). unfold assign_provider, is_proto_key.
    destruct (String.eqb_spec k "__proto__") as [->|Hne]; cbn [prototype map fst In].
    + split.
      * intros [Hin | [_ [= ->]]]; [|now left; left].
        exfalso. apply Hk. apply (in_map fst) in Hin. exact Hin.
      * intros [[[= ->] | Hin] | [Hnot _]].
        -- right. split; [exact Hk | reflexivity].
        -- now left.
        -- exfalso. apply Hnot. now left.
    + split.
      * intros [Hin | [Hnot Hp]]; [left; now right|].
        right. split; [|exact Hp]. intros [Heq|Hin]; [now apply Hne | now apply Hnot].
      * intros [[[= Heq _] | Hin] | [Hnot Hp]].
        -- now contradiction Hne.
        -- now left.
        -- right. split; [|exact Hp]. intros Hin. apply Hnot. now right.
Qed.

Lemma in_normalized_entries a entries key q :
  In (key, q) (normalized_entries a entries)
  <-> exists p, In (key, p) entries /\ q = snd (normalize_provider a key p).
Proof.
  unfold normalized_entries. rewrite in_map_iff. split.
  - intros ([k p] & [= <- <-] & Hin). exists p. auto.
  - intros (p & Hin & ->). exists (key, p). auto.
Qed.

Lemma kept_keys_normalized a entries :
  map fst (filter (fun kq => negb (is_proto_key (fst kq)))
                  (normalized_entries a entries))
  = filter (fun k => negb (is_proto_key k)) (map fst entries).
Proof.
  unfold normalized_entries.
  induction entries as [|[k p] l IH]; cbn [map filter fst snd]; [reflexivity|].
  destruct (is_proto_key k); cbn [negb map fst]; now rewrite IH.
Qed.

Lemma normalize_provider_shape a key p :
  same_shape a key p (snd (normalize_provider a key p)).
Proof.
  pose proof (normalize_provider_spec a key p) as (Hb & Ha & Hu & Hm & _).
  repeat split; assumption.
Qed.

(** X24. What [normalizeProviders] does to the shape of the configuration.
    When it reports no change the result is the input itself. Otherwise
    the result is a new record whose own keys are the keys of the input
    other than ["__proto__"], in the same order; a provider configured
    under the key ["__proto__"] is not kept as a property but becomes the
    prototype of the result. Every provider of the result has the base
    URL, API, auth mode and models of the provider configured under its
    key, except that under the key ["google"] (after trimming) the model
    ids are normalized. Without providers the result is undefined. *)
Theorem normalizeProviders_frame :
  forall a providers,
    NoDup (map fst (own_entries providers)) ->
    exists next,
      snd (normalizeProviders a (Some providers)) = Some next
      /\ (fst (normalizeProviders a (Some providers)) = false -> next = providers)
      /\ (fst (normalizeProviders a (Some providers)) = true ->
          map fst (own_entries next)
          = filter (fun k => negb (is_proto_key k)) (map fst (own_entries providers))
          /\ forall q,
               prototype next = Some q <->
               exists p, In ("__proto__", p) (own_entries providers)
                         /\ q = snd (normalize_provider a "__proto__" p))
      /\ (forall key q,
            In (key, q) (own_entries next) ->
            exists p, In (key, p) (own_entries providers) /\ same_shape a key p q)
      /\ (forall key p,
            In (key, p) (own_entries providers) -> key <> "__proto__" ->
            exists q, In (key, q) (own_entries next) /\ same_shape a key p q)
      /\ normalizeProviders a None = (false, None).
Proof.
  intros a providers Hnd.
  rewrite normalizeProviders_value. cbn [fst snd].
  assert (Hown : own_entries (assign_all (normalized_entries a (own_entries providers)))
                 = filter (fun kq => negb (is_proto_key (fst kq)))
                          (normalized_entries a (own_entries providers))).
  { unfold assign_all. rewrite assign_fold_own; [reflexivity | | cbn; tauto].
    now rewrite normalized_entries_keys. }
  destruct (existsb _ (own_entries providers)) eqn:Hm.
  - eexists. split; [reflexivity|]. split; [discriminate|]. split; [|split; [|split]].
    + intros _. split.
      * rewrite Hown. apply kept_keys_normalized.
      * intros q. unfold assign_all. rewrite assign_fold_proto
          by now rewrite normalized_entries_keys.
        cbn [prototype]. rewrite in_normalized_entries.
        split; [intros [H | [_ H]]; [exact H | discriminate] | now left].
    + intros key q Hin. rewrite Hown in Hin. apply filter_In in Hin.
      destruct Hin as [Hin _]. apply in_normalized_entries in Hin.
      destruct Hin as (p & Hin & ->). exists p. split; [exact Hin|].
      apply normalize_provider_shape.
    + intros key p Hin Hkey. exists (snd (normalize_provider a key p)).
      split; [|apply normalize_provider_shape].
      rewrite Hown. apply filter_In. split.
      * apply in_normalized_entries. eauto.
      * cbn [fst]. unfold is_proto_key.
        destruct (String.eqb_spec key "__proto__"); [contradiction | reflexivity].
    + reflexivity.
  - exists providers. split; [reflexivity|]. split; [reflexivity|].
    split; [discriminate|].
    assert (Hsame : forall key p, In (key, p) (own_entries providers) ->
                    same_shape a key p p).
    { intros key p Hin.
      pose proof (normalize_provider_shape a key p) as Hshape.
      pose proof (normalize_provider_spec a key p) as (_ & _ & _ & _ & Hfix & _).
      rewrite Hfix in Hshape; [exact Hshape|].
      destruct (fst (normalize_provider a key p)) eqn:Hk; [|reflexivity].
      assert (existsb (fun kp => fst (normalize_provider a (fst kp) (snd kp)))
                (own_entries providers) = true)
        by (apply existsb_exists; exists (key, p); auto).
      congruence. }
    split; [|split; [|reflexivity]].
    + intros key q Hin. exists q. auto.
    + intros key p Hin _. exists p. auto.
Qed.

(** A provider configured under ["__proto__"] beside a Google provider
    that needs normalizing: the result has the Google provider only, and
    the other provider as its prototype. *)
Lemma normalizeProviders_frame_witness :
  NoDup (map fst (own_entries record_with_proto_key))
  /\ exists next,
       snd (normalizeProviders example_auth (Some record_with_proto_key)) = Some next
       /\ map fst (own_entries next) = [" google "]
       /\ prototype next = Some bedrock_provider.
Proof.
  assert (Hnd : NoDup (map fst (own_entries record_with_proto_key))).
  { cbn. repeat constructor; cbn; intuition discriminate. }
  split; [exact Hnd|].
  destruct (normalizeProviders_frame example_auth record_with_proto_key Hnd)
    as (next & Hv & _).
  exists next. split; [exact Hv|].
  vm_compute in Hv. injection Hv as <-. split; reflexivity.
Defined.

(** X25. How [normalizeProviders] settles the [apiKey] of each provider.
    It assigns every provider of the configuration, in order and under its
    own key, a provider whose key is settled as follows. A configured key
    whose normal form is not blank is only unwrapped, never replaced. A
    provider without key and without models gets none. A provider without
    key but with models gets the AWS variable name when its auth mode is
    ["aws-sdk"] (set, or implied by the key ["amazon-bedrock"]); otherwise
    it gets the variable named by the environment if there is one, else
    the first usable profile credential, and stays without key when what
    was found is blank. When something changed the result is the record
    built by these assignments, and the input itself otherwise; for
    distinct keys other than ["__proto__"] its own properties are exactly
    the assigned providers. *)
Theorem normalizeProviders_api_keys :
  forall a providers,
  exists assigned next,
    snd (normalizeProviders a (Some providers)) = Some next
    /\ Forall2
         (fun kp kq =>
            let key := fst kp in
            let p := snd kp in
            let q := snd kq in
            fst kq = key
            /\ (forall k,
                  apiKey p = Some k -> k <> EmptyString ->
                  blank a (Some (normalizeApiKeyConfig a k)) = false ->
                  apiKey q = Some (normalizeApiKeyConfig a k))
            /\ (apiKey p = None -> models p = [] -> apiKey q = None)
            /\ (apiKey p = None -> models p <> [] -> aws_sdk_mode a key p ->
                apiKey q = Some (resolveAwsSdkApiKeyVarName a))
            /\ (apiKey p = None -> models p <> [] -> ~ aws_sdk_mode a key p ->
                apiKey q
                = (let found :=
                     nullish_or (resolveEnvApiKeyVarName a (auth_trim a key))
                       (resolveApiKeyFromProfiles a (auth_trim a key)) in
                   if blank a found then None else found)))
         (own_entries providers) assigned
    /\ (fst (normalizeProviders a (Some providers)) = true ->
        next = assign_all assigned)
    /\ (fst (normalizeProviders a (Some providers)) = false ->
        next = providers /\ assigned = own_entries providers)
    /\ (NoDup (map fst (own_entries providers)) ->
        ~ In "__proto__" (map fst (own_entries providers)) ->
        own_entries next = assigned).
Proof.
  intros a providers.
  exists (normalized_entries a (own_entries providers)).
  rewrite normalizeProviders_value. cbn [fst snd].
  eexists. split; [reflexivity|]. split; [|split; [|split]].
  - apply Forall2_map_right. intros [k p] _. cbn [fst snd].
    pose proof (normalize_provider_spec a k p)
      as (_ & _ & _ & _ & _ & Hk & Hn & Haws & Henv).
    auto.
  - intros ->. reflexivity.
  - intros Hm. rewrite Hm. split; [reflexivity|].
    now apply normalized_entries_unchanged.
  - intros Hnd Hnot.
    destruct (existsb _ (own_entries providers)) eqn:Hm.
    + unfold assign_all. rewrite assign_fold_own; cbn [own_entries app].
      * apply filter_keep_all. intros [k q] Hin. cbn [fst].
        unfold is_proto_key. destruct (String.eqb_spec k "__proto__") as [->|_];
          [|reflexivity].
        exfalso. apply Hnot. rewrite <- (normalized_entries_keys a).
        apply (in_map fst) in Hin. exact Hin.
      * now rewrite normalized_entries_keys.
      * tauto.
    + symmetry. now apply normalized_entries_unchanged.
Qed.

(** The bedrock provider of the example has models and no key; its key
    implies the aws-sdk mode, and no AWS variable is set. *)
Lemma normalizeProviders_api_keys_witness :
  apiKey bedrock_provider = None
  /\ models bedrock_provider <> []
  /\ aws_sdk_mode example_auth "amazon-bedrock" bedrock_provider
  /\ snd (normalizeProviders example_auth
            (Some (mkRecord [("amazon-bedrock", bedrock_provider)] None)))
     = Some (mkRecord [("amazon-bedrock", set_apiKey bedrock_provider "AWS_PROFILE")]
                      None).
Proof.
  assert (Hm : models bedrock_provider <> []) by discriminate.
  assert (Haws : aws_sdk_mode example_auth "amazon-bedrock" bedrock_provider)
    by (right; split; reflexivity).
  split; [reflexivity|]. split; [exact Hm|]. split; [exact Haws|].
  destruct (normalizeProviders_api_keys example_auth
              (mkRecord [("amazon-bedrock", bedrock_provider)] None))
    as (assigned & next & Hv & _).
  rewrite Hv. vm_compute in Hv. injection Hv as <-. reflexivity.
Defined.
